(** * SimpleCache: the two-tier TTL cache of resources/lib/files/simplecache.py

    A shallow embedding of the Python class [SimpleCache] and the properties
    its specification states about it.  The cache keeps every entry twice:
    in the window properties of Kodi's home window (the ephemeral tier) and
    in one SQLite table (the durable tier).  Python's mutable state, its
    exceptions and the host services (clock, abort signal, SQLite) are made
    explicit in a state-and-exception monad. *)

From Stdlib Require Import ZArith String Ascii List Bool Lia.
From Stdlib Require Import Decimal DecimalZ DecimalString.
From stdpp Require Import base option list strings gmap.

Set Warnings "-register-all".

Local Open Scope string_scope.
Local Open Scope Z_scope.

(** ** Python values *)

(** Python text.  Rocq's [string] holds code points below 256, so the model
    covers Latin-1 text. *)
Definition ord (c : ascii) : Z := Z.of_N (N_of_ascii c).

(** [str(n)] and [int(s)] on decimal text; [int] raises ValueError ([None])
    on anything that is not an optionally signed run of digits. *)
Definition py_str_of_int (n : Z) : string := NilZero.string_of_int (Z.to_int n).
Definition py_int_of_str (s : string) : option Z :=
  Z.of_int <$> NilZero.int_of_string s.

(** The values [json.dumps] accepts and [json.loads] returns (floats left
    out).  [JNull] is Python's [None]. *)
Inductive json : Type :=
| JNull
| JBool (b : bool)
| JInt (n : Z)
| JStr (s : string)
| JList (l : list json)
| JDict (l : list (string * json)).

Definition is_None (v : json) : bool :=
  match v with JNull => true | _ => false end.

(** Truth value of a Python object, as [not x] tests it. *)
Definition truthy (v : json) : bool :=
  match v with
  | JNull => false
  | JBool b => b
  | JInt n => negb (n =? 0)
  | JStr s => negb (String.eqb s "")
  | JList l => match l with [] => false | _ => true end
  | JDict l => match l with [] => false | _ => true end
  end.

Definition truthy_str (s : string) : bool := negb (String.eqb s "").

Definition truthy_opt (o : option string) : bool :=
  match o with Some s => truthy_str s | None => false end.

(** ["{}".format(x)] for an optional string: [None] prints as "None". *)
Definition py_format (o : option string) : string :=
  match o with Some s => s | None => "None" end.

(** The serialiser is the [json] module of the Python library; the cache
    only needs [dumps] and [loads] ([loads] raises on malformed text). *)
Class Json := {
  json_dumps : json -> string;
  json_loads : string -> option json
}.

(** ** Exceptions and results *)

Inductive Exn : Type :=
| TypeError
| ValueError
| IndexError
| KeyError
| AttributeError
| UnboundLocalError.

(** A call returns, raises, or never comes back. *)
Inductive Res (A : Type) : Type :=
| Ok (a : A)
| Raise (e : Exn)
| Hang.
Arguments Ok {A} a.
Arguments Raise {A} e.
Arguments Hang {A}.

(** [reduce(lambda x, y: x + y, xs)] without an initial value. *)
Definition reduce_add (xs : list Z) : Res Z :=
  match xs with
  | [] => Raise TypeError
  | x :: rest => Ok (fold_left Z.add rest x)
  end.

(** [cachedata[i]]. *)
Definition py_index (v : json) (i : nat) : Res json :=
  match v with
  | JList l => match l !! i with Some x => Ok x | None => Raise IndexError end
  | JStr s =>
      match String.get i s with
      | Some c => Ok (JStr (String c EmptyString))
      | None => Raise IndexError
      end
  | JDict _ => Raise KeyError
  | _ => Raise TypeError
  end.

(** [int(x)]. *)
Definition py_int (v : json) : Res Z :=
  match v with
  | JInt n => Ok n
  | JBool b => Ok (if b then 1 else 0)
  | JStr s => match py_int_of_str s with Some n => Ok n | None => Raise ValueError end
  | _ => Raise TypeError
  end.

(** [n == x] for an int [n]. *)
Definition py_eq_int (n : Z) (v : json) : bool :=
  match v with
  | JInt m => n =? m
  | JBool b => n =? (if b then 1 else 0)
  | _ => false
  end.

Definition TIME_MINUTES : Z := 60.
Definition TIME_HOURS : Z := 60 * TIME_MINUTES.
Definition TIME_DAYS : Z := 24 * TIME_HOURS.

(** ** Checksum *)

(** [SimpleCache._get_checksum], with the class attribute [global_checksum]
    passed in. *)
Definition _get_checksum (global_checksum : option string)
    (stringinput : option string) : Res Z :=
  if negb (truthy_opt stringinput) && negb (truthy_opt global_checksum) then Ok 0
  else
    let stringinput :=
      if truthy_opt global_checksum
      then py_format global_checksum +:+ "-" +:+ py_format stringinput
      else py_format stringinput in
    reduce_add (map ord (list_ascii_of_string stringinput)).

(** The sum of the code points of a text. *)
Definition codepoint_sum (s : string) : Z :=
  fold_right Z.add 0 (map ord (list_ascii_of_string s)).

(** ** The host process and the state of the cache *)

(** One row of the table [simplecache(id TEXT UNIQUE, expires INTEGER,
    data TEXT, checksum INTEGER)]; the table maps [id] to the other columns. *)
Record Row := mkRow { r_expires : Z; r_data : string; r_checksum : Z }.

(** The database file, as the probe of [_get_database] finds it: missing;
    [Corrupt], a file on which the probe raises, whatever is in it (a damaged
    file, one without the table, one locked by another writer at that
    moment); or holding the table, the probe passing. *)
Inductive DbFile : Type :=
| NoFile
| Corrupt
| Table (rows : gmap string Row).

(** The statements the class sends to SQLite, with their parameters. *)
Inductive Stmt : Type :=
| SelectEntry (id : string)
    (* SELECT expires, data, checksum FROM simplecache WHERE id = ? *)
| SelectIdExpires
    (* SELECT id, expires FROM simplecache *)
| InsertOrReplace (id : string) (expires : Z) (data : string) (checksum : Z)
    (* INSERT OR REPLACE INTO simplecache( id, expires, data, checksum) VALUES (?, ?, ?, ?) *)
| DeleteEntry (id : string)
    (* DELETE FROM simplecache WHERE id = ? *)
| DeleteAll
    (* DELETE FROM simplecache *)
| Vacuum.

(** A cursor holds the rows a statement produced. *)
Definition Cursor : Type := list (string * Row).

Definition fetchone (c : Cursor) : option (string * Row) := head c.
Definition fetchall (c : Cursor) : list (string * Row) := c.

Definition run_stmt (q : Stmt) (t : gmap string Row) : gmap string Row * Cursor :=
  match q with
  | SelectEntry id => (t, match t !! id with Some r => [(id, r)] | None => [] end)
  | SelectIdExpires => (t, map_to_list t)
  | InsertOrReplace id e d c => (<[id := mkRow e d c]> t, [])
  | DeleteEntry id => (delete id t, [])
  | DeleteAll => (∅, [])
  | Vacuum => (t, [])
  end.

(** What one call of [execute] does: it runs, or raises. *)
Inductive Fault : Type :=
| NoFault
| OperationalError (msg : string)   (* sqlite3.OperationalError(msg) *)
| OtherError.                       (* an exception of any other class *)

Definition locked : Fault := OperationalError "database is locked".

(** The file is written for Kodi Leia and Matrix, that is Python 2 and 3. *)
Inductive PyVersion : Type := Python2 | Python3.

(** What the run leaves behind besides the two tiers. *)
Inductive Event : Type :=
| EvExecute (q : Stmt)        (* one call of execute *)
| EvWaitForAbort (ms : Z)     (* Monitor.waitForAbort *)
| EvSleep (ms : Z).           (* xbmc.sleep *)

(** A queued write: [(endpoint, checksum, expires, data)]. *)
Definition Queued : Type := string * Z * Z * json.

Record St := mkSt {
  (* the host *)
  python : PyVersion;
  win : gmap string string;       (* properties of xbmcgui.Window(10000) *)
  disk : DbFile;                  (* the file at _db_file *)
  clock : Z;                      (* int(time.time()) *)
  aborts : list bool;             (* answers of the coming abortRequested() calls *)
  faults : list Fault;            (* outcomes of the coming execute() calls *)
  creates : list bool;            (* whether the coming table creations succeed *)
  trace : list Event;
  (* class attributes, shared by all instances *)
  global_checksum : option string;
  _busy_tasks : list string;
  (* instance attributes *)
  _exit : bool;
  _queue : list Queued
}.

Definition set_win (f : gmap string string -> gmap string string) (s : St) : St :=
  mkSt (python s) (f (win s)) (disk s) (clock s) (aborts s) (faults s) (creates s)
       (trace s) (global_checksum s) (_busy_tasks s) (_exit s) (_queue s).
Definition set_disk (d : DbFile) (s : St) : St :=
  mkSt (python s) (win s) d (clock s) (aborts s) (faults s) (creates s)
       (trace s) (global_checksum s) (_busy_tasks s) (_exit s) (_queue s).
Definition set_clock (t : Z) (s : St) : St :=
  mkSt (python s) (win s) (disk s) t (aborts s) (faults s) (creates s)
       (trace s) (global_checksum s) (_busy_tasks s) (_exit s) (_queue s).
Definition set_aborts (l : list bool) (s : St) : St :=
  mkSt (python s) (win s) (disk s) (clock s) l (faults s) (creates s)
       (trace s) (global_checksum s) (_busy_tasks s) (_exit s) (_queue s).
Definition set_faults (l : list Fault) (s : St) : St :=
  mkSt (python s) (win s) (disk s) (clock s) (aborts s) l (creates s)
       (trace s) (global_checksum s) (_busy_tasks s) (_exit s) (_queue s).
Definition set_creates (l : list bool) (s : St) : St :=
  mkSt (python s) (win s) (disk s) (clock s) (aborts s) (faults s) l
       (trace s) (global_checksum s) (_busy_tasks s) (_exit s) (_queue s).
Definition add_event (e : Event) (s : St) : St :=
  mkSt (python s) (win s) (disk s) (clock s) (aborts s) (faults s) (creates s)
       (trace s ++ [e])%list (global_checksum s) (_busy_tasks s) (_exit s) (_queue s).
Definition set_busy (f : list string -> list string) (s : St) : St :=
  mkSt (python s) (win s) (disk s) (clock s) (aborts s) (faults s) (creates s)
       (trace s) (global_checksum s) (f (_busy_tasks s)) (_exit s) (_queue s).
Definition set_exit (b : bool) (s : St) : St :=
  mkSt (python s) (win s) (disk s) (clock s) (aborts s) (faults s) (creates s)
       (trace s) (global_checksum s) (_busy_tasks s) b (_queue s).
Definition set_queue (q : list Queued) (s : St) : St :=
  mkSt (python s) (win s) (disk s) (clock s) (aborts s) (faults s) (creates s)
       (trace s) (global_checksum s) (_busy_tasks s) (_exit s) q.

(** The rows of the durable tier, as a reader opening the file sees them. *)
Definition rows (s : St) : gmap string Row :=
  match disk s with Table t => t | _ => ∅ end.

(** ** The monad: state that survives an exception *)

Definition M (A : Type) : Type := St -> Res A * St.

Definition ret {A} (a : A) : M A := fun s => (Ok a, s).

Definition bind {A B} (m : M A) (k : A -> M B) : M B := fun s =>
  match m s with
  | (Ok a, s') => k a s'
  | (Raise e, s') => (Raise e, s')
  | (Hang, s') => (Hang, s')
  end.

Definition raise {A} (e : Exn) : M A := fun s => (Raise e, s).
Definition lift {A} (r : Res A) : M A := fun s => (r, s).
Definition gets {A} (f : St -> A) : M A := fun s => (Ok (f s), s).
Definition modify (f : St -> St) : M unit := fun s => (Ok tt, f s).

Notation "x <- c1 ;; c2" := (bind c1 (fun x => c2))
  (at level 100, c1 at next level, right associativity).
Notation "c1 ;; c2" := (bind c1 (fun _ => c2))
  (at level 100, right associativity).

(** ** Host services *)

Definition getProperty (key : string) : M string :=
  gets (fun s => default "" (win s !! key)).
Definition setProperty (key value : string) : M unit :=
  modify (set_win (insert key value)).
Definition clearProperty (key : string) : M unit :=
  modify (set_win (delete key)).

Definition abortRequested : M bool := fun s =>
  match aborts s with
  | [] => (Ok false, s)
  | b :: rest => (Ok b, set_aborts rest s)
  end.
Definition waitForAbort (ms : Z) : M unit := modify (add_event (EvWaitForAbort ms)).
Definition xbmc_sleep (ms : Z) : M unit := modify (add_event (EvSleep ms)).

(** Modelled from the spec: [resources.lib.addon.plugin.kodi_log] is not
    part of the sources at hand; the spec describes the logging sink as a
    fire-and-forget call whose result is not used. *)
Definition kodi_log (msg : string) : M unit := ret tt.

(** Modelled from the spec: [resources.lib.addon.timedate.set_timestamp] is
    not part of the sources at hand; the spec describes the timestamp source
    as wall-clock integer seconds with a helper that adds an offset, and
    [set] uses it as [expires = now + ttl_days * 86400]. *)
Definition set_timestamp (wait_time : Z) : M Z :=
  gets (fun s => clock s + wait_time).

(** Modelled from the spec: [resources.lib.files.utils.pickle_deepcopy] is
    not part of the sources at hand; the spec describes it as a value-level
    deep copy, which on immutable values is the identity. *)
Definition pickle_deepcopy (data : json) : json := data.

Definition next_fault : M Fault := fun s =>
  match faults s with
  | [] => (Ok NoFault, s)
  | f :: rest => (Ok f, set_faults rest s)
  end.

Definition next_create : M bool := fun s =>
  match creates s with
  | [] => (Ok true, s)
  | b :: rest => (Ok b, set_creates rest s)
  end.

Definition loads `{Json} (text : string) : M json :=
  match json_loads text with
  | Some v => ret v
  | None => raise ValueError
  end.

(** ** The class SimpleCache *)

(** The attributes [__init__] fixes for the life of an instance. *)
Record Self := mkSelf {
  _sc_name : string;
  _mem_only : bool;
  _delaywrite : bool
}.

Definition _auto_clean_interval : Z := 4 * TIME_HOURS.
Definition __name__ : string := "resources.lib.files.simplecache".

(** How a [while] loop of [_execute_sql] ends, and what the local variable
    [error] holds by then.  Python 3 deletes the name bound by
    [except ... as error] when the handler is left; Python 2 keeps it. *)
Inductive ErrorVar : Type := ErrorNone | ErrorBound | ErrorUnbound.

Inductive LoopEnd : Type :=
| Returned (result : option Cursor)   (* a [return] inside the loop *)
| Left (error : ErrorVar).            (* [break], or the loop condition failed *)

(** ["database is locked" in error]: Python 2 searches [error.args], Python 3
    raises TypeError ([None]) because an exception is not iterable. *)
Definition locked_in (v : PyVersion) (msg : string) : option bool :=
  match v with
  | Python2 => Some (String.eqb msg "database is locked")
  | Python3 => None
  end.

Definition after_handler (v : PyVersion) : ErrorVar :=
  match v with Python2 => ErrorBound | Python3 => ErrorUnbound end.

(** [l.remove(x)]: drops the first occurrence of [x]. *)
Fixpoint list_remove (x : string) (l : list string) : list string :=
  match l with
  | [] => []
  | y :: l => if String.eqb x y then l else y :: list_remove x l
  end.

Section Engine.
Context `{Json}.
Variable self : Self.

(** [with self.busy_tasks(task_name): body]; the label is removed on
    every way out of the body. *)
Definition busy_tasks {A} (task_name : string) (body : M A) : M A := fun s =>
  let '(r, s') := body (set_busy (fun l => (l ++ [task_name])%list) s) in
  (r, set_busy (list_remove task_name) s').

(** [_get_database(attempts)]: the connection, or [None].  The probe
    [SELECT * FROM simplecache LIMIT 1] passes on [Table]; on any exception
    of the probe ([NoFile], [Corrupt]) the file is deleted, with what it
    held, and the table created anew, and a failed creation is retried after
    a pause while [attempts] lasts. *)
Fixpoint _get_database (attempts : nat) : M (option unit) :=
  d <- gets disk ;;
  match d with
  | Table _ => ret (Some tt)
  | _ =>
      (* corrupt or missing: delete the file and create the table *)
      modify (set_disk NoFile) ;;
      created <- next_create ;;
      if created then modify (set_disk (Table ∅)) ;; ret (Some tt)
      else
        kodi_log "CACHE: Exception while initializing _database" ;;
        match attempts with
        | O => ret None
        | S attempts =>
            waitForAbort 1000 ;;
            _get_database attempts
        end
  end.

(** One call of [execute] on the open connection. *)
Definition execute (query : Stmt) : M (Fault + Cursor) :=
  modify (add_event (EvExecute query)) ;;
  f <- next_fault ;;
  d <- gets disk ;;
  match f, d with
  | NoFault, Table t =>
      let '(t', c) := run_stmt query t in
      modify (set_disk (Table t')) ;; ret (inr c)
  | NoFault, _ => ret (inl (OperationalError "no such table: simplecache"))
  | _, _ => ret (inl f)
  end.

(** The loop [while not retries == 10 and not abortRequested()], counted
    by the retries that remain. *)
Fixpoint sql_loop (remaining : nat) (error : ErrorVar) (query : Stmt) : M LoopEnd :=
  match remaining with
  | O => ret (Left error)
  | S remaining =>
      aborted <- abortRequested ;;
      if aborted then ret (Left error) else
      exiting <- gets _exit ;;
      if exiting then ret (Returned None) else
      r <- execute query ;;
      match r with
      | inr result => ret (Returned (Some result))
      | inl (OperationalError msg) =>
          v <- gets python ;;
          match locked_in v msg with
          | Some true =>
              kodi_log "CACHE: Locked: Retrying DB commit..." ;;
              waitForAbort 500 ;;
              sql_loop remaining (after_handler v) query
          | Some false => ret (Left (after_handler v))
          | None => ret (Left (after_handler v))     (* except TypeError: break *)
          end
      | inl _ => ret (Left error)                    (* except Exception: break *)
      end
  end.

(** [_execute_sql(query, data)].  The statement carries its parameters; the
    class never passes a list of parameter rows, so only [execute] is
    reached.  After the loop the log line formats [error]: reading the name
    raises when Python 3 has unbound it. *)
Definition _execute_sql (query : Stmt) : M (option Cursor) :=
  _database <- _get_database 2 ;;
  match _database with
  | None => raise AttributeError              (* with None as _database *)
  | Some _ =>
      r <- sql_loop 10 ErrorNone query ;;
      match r with
      | Returned result => ret result
      | Left ErrorUnbound => raise UnboundLocalError   (* "...{}".format(error) *)
      | Left _ => kodi_log "CACHE: _database ERROR ! -- " ;; ret None
      end
  end.

Definition mem_key (endpoint : string) : string :=
  _sc_name self +:+ "_" +:+ endpoint.

Definition _get_mem_cache (endpoint : string) (checksum cur_time : Z) : M json :=
  let endpoint := mem_key endpoint in
  cachedata <- getProperty endpoint ;;
  if negb (truthy_str cachedata) then ret JNull else
  cachedata <- loads cachedata ;;
  if negb (truthy cachedata) then ret JNull else
  c0 <- lift (py_index cachedata 0) ;;
  expires <- lift (py_int c0) ;;
  if expires <=? cur_time then ret JNull else
  if checksum =? 0 then lift (py_index cachedata 1) else
  c2 <- lift (py_index cachedata 2) ;;
  if py_eq_int checksum c2 then lift (py_index cachedata 1) else ret JNull.

Definition _set_mem_cache (endpoint : string) (checksum expires : Z) (data : json)
    : M unit :=
  let endpoint := mem_key endpoint in
  let cachedata := JList [JInt expires; data; JInt checksum] in
  setProperty endpoint (json_dumps cachedata).

Definition _get_db_cache (endpoint : string) (checksum cur_time : Z) : M json :=
  cache_data <- _execute_sql (SelectEntry endpoint) ;;
  match cache_data with
  | None => ret JNull
  | Some cache_data =>
      match fetchone cache_data with
      | None => ret JNull
      | Some (_, cache_data) =>
          if r_expires cache_data <=? cur_time then ret JNull else
          if (checksum =? 0) || (checksum =? r_checksum cache_data) then
            result <- loads (r_data cache_data) ;;
            _set_mem_cache endpoint checksum (r_expires cache_data) result ;;
            ret result
          else ret JNull
      end
  end.

Definition _set_db_cache (endpoint : string) (checksum expires : Z) (data : json)
    : M unit :=
  _execute_sql (InsertOrReplace endpoint expires (json_dumps data) checksum) ;;
  ret tt.

Definition derive_checksum (checksum : string) : M Z :=
  g <- gets global_checksum ;;
  lift (_get_checksum g (Some checksum)).

Definition get (endpoint : string) (checksum : string) : M json :=
  checksum <- derive_checksum checksum ;;
  cur_time <- set_timestamp 0 ;;
  result <- _get_mem_cache endpoint checksum cur_time ;;
  if negb (is_None result) || _mem_only self then ret result
  else _get_db_cache endpoint checksum cur_time.

Definition set (endpoint : string) (data : json) (checksum : string)
    (cache_days : Z) : M unit :=
  busy_tasks ("set." +:+ endpoint) (
    checksum <- derive_checksum checksum ;;
    expires <- set_timestamp (cache_days * TIME_DAYS) ;;
    _set_mem_cache endpoint checksum expires data ;;
    if _mem_only self then ret tt else
    if _delaywrite self then
      q <- gets _queue ;;
      modify (set_queue (q ++ [(endpoint, checksum, expires, pickle_deepcopy data)])%list)
    else _set_db_cache endpoint checksum expires data).

Definition lastexecuted_key : string := _sc_name self +:+ ".clean.lastexecuted".
Definition cleanbusy_key : string := _sc_name self +:+ ".cleanbusy".

(** [self._exit or self._monitor.abortRequested()] *)
Definition exit_or_abort : M bool :=
  exiting <- gets _exit ;;
  if exiting then ret true else abortRequested.

(** The [for] loop of [_do_cleanup]; [true] when it was left by [return]. *)
Fixpoint cleanup_rows (force : bool) (cur_time : Z) (l : list (string * Row))
    : M bool :=
  match l with
  | [] => ret false
  | (cache_id, cache_data) :: l =>
      let cache_expires := r_expires cache_data in
      stop <- exit_or_abort ;;
      if stop then ret true else
      clearProperty cache_id ;;
      (if force || (cache_expires <? cur_time)
       then _execute_sql (DeleteEntry cache_id) ;;
            kodi_log "CACHE: delete from db"
       else ret tt) ;;
      cleanup_rows force cur_time l
  end.

(** The two lines under [# Washup]. *)
Definition washup (cur_time : Z) : M unit :=
  setProperty lastexecuted_key (py_str_of_int cur_time) ;;
  clearProperty cleanbusy_key.

Definition _do_cleanup (force : bool) : M unit :=
  stop <- exit_or_abort ;;
  if stop then ret tt else
  body <- busy_tasks __name__ (
    cur_time <- set_timestamp 0 ;;
    busy <- getProperty cleanbusy_key ;;
    if truthy_str busy then ret None else
    setProperty cleanbusy_key "busy" ;;
    cursor <- _execute_sql SelectIdExpires ;;
    match cursor with
    | None => raise AttributeError             (* None.fetchall() *)
    | Some cursor =>
        returned <- cleanup_rows force cur_time (fetchall cursor) ;;
        if returned then ret None else
        _execute_sql Vacuum ;;
        ret (Some cur_time)
    end) ;;
  match body with
  | None => ret tt                             (* a [return] inside the with block *)
  | Some cur_time => washup cur_time ;; kodi_log "CACHE: Auto cleanup done"
  end.

Definition _do_delete : M unit :=
  stop <- exit_or_abort ;;
  if stop then ret tt else
  cur_time <- busy_tasks __name__ (
    cur_time <- set_timestamp 0 ;;
    setProperty cleanbusy_key "busy" ;;
    _execute_sql DeleteAll ;;
    _execute_sql Vacuum ;;
    ret cur_time) ;;
  washup cur_time ;;
  kodi_log "CACHE: Delete done".

Definition check_cleanup : M unit :=
  if _mem_only self then ret tt else
  cur_time <- set_timestamp 0 ;;
  lastexecuted <- getProperty lastexecuted_key ;;
  if negb (truthy_str lastexecuted) then
    setProperty lastexecuted_key (py_str_of_int cur_time)
  else
    last <- match py_int_of_str lastexecuted with
            | Some n => ret n
            | None => raise ValueError
            end ;;
    due <- set_timestamp _auto_clean_interval ;;
    if last + due <? cur_time then _do_cleanup false else ret tt.

(** [while self._busy_tasks and not abortRequested(): xbmc.sleep(25)].
    Nothing in this thread empties the list, so the loop ends when the
    list is empty at entry or when an abort is polled. *)
Fixpoint await_tasks (polls : list bool) (s : St) : Res unit * St :=
  match _busy_tasks s with
  | [] => (Ok tt, s)
  | _ :: _ =>
      match polls with
      | [] => (Hang, s)
      | true :: polls => (Ok tt, set_aborts polls s)
      | false :: polls => await_tasks polls (add_event (EvSleep 25) (set_aborts polls s))
      end
  end.

Definition wait_for_tasks : M unit := fun s => await_tasks (aborts s) s.

(** [for i in self._queue: self._set_db_cache( *i )] *)
Fixpoint flush (queue : list Queued) : M unit :=
  match queue with
  | [] => ret tt
  | (endpoint, checksum, expires, data) :: queue =>
      _set_db_cache endpoint checksum expires data ;;
      flush queue
  end.

Definition close : M unit :=
  modify (set_exit true) ;;
  wait_for_tasks ;;
  queue <- gets _queue ;;
  (if match queue with [] => false | _ => true end
   then kodi_log "CACHE: Write Items in Queue" else ret tt) ;;
  flush queue ;;
  modify (set_queue []) ;;
  kodi_log "CACHE: Closed".

Definition __del__ : M unit :=
  exiting <- gets _exit ;;
  if negb exiting then close else ret tt.

End Engine.

(** [SimpleCache(folder, filename, mem_only, delay_write)]: a new instance
    starts with the class's [_exit = False] and an empty queue. *)
Definition __init__ `{Json} (folder filename : option string)
    (mem_only delay_write : bool) : M Self :=
  let folder := if truthy_opt folder then py_format folder else "database_v2" in
  let filename := if truthy_opt filename then py_format filename else "defaultcache.db" in
  let self := mkSelf (folder +:+ "_" +:+ filename +:+ "_simplecache") mem_only delay_write in
  modify (set_exit false) ;;
  modify (set_queue []) ;;
  check_cleanup self ;;
  kodi_log "CACHE: Initialized" ;;
  ret self.

(** ** A reference serialiser

    A printer and a reader for the JSON text that [json.dumps] writes with
    its default separators, used to run the model on concrete inputs. *)
Module PyJson.

Definition dquote : ascii := ascii_of_nat 34.

Definition quote (s : string) : string :=
  let esc := fix esc (s : string) : string :=
    match s with
    | EmptyString => EmptyString
    | String c r =>
        if Ascii.eqb c dquote || Ascii.eqb c "\"
        then String "\" (String c (esc r))
        else String c (esc r)
    end in
  String dquote (esc s) +:+ String dquote EmptyString.

Fixpoint join (sep : string) (l : list string) : string :=
  match l with
  | [] => ""
  | [x] => x
  | x :: l => x +:+ sep +:+ join sep l
  end.

Fixpoint dumps (v : json) : string :=
  match v with
  | JNull => "null"
  | JBool true => "true"
  | JBool false => "false"
  | JInt n => py_str_of_int n
  | JStr s => quote s
  | JList l => "[" +:+ join ", " (map dumps l) +:+ "]"
  | JDict l =>
      "{" +:+ join ", " (map (fun kv => quote (fst kv) +:+ ": " +:+ dumps (snd kv)) l)
          +:+ "}"
  end.

Fixpoint strip (p s : string) : option string :=
  match p, s with
  | EmptyString, _ => Some s
  | String a p, String b s => if Ascii.eqb a b then strip p s else None
  | _, _ => None
  end.

Fixpoint skip_ws (s : string) : string :=
  match s with
  | String c r => if Ascii.eqb c " " then skip_ws r else s
  | _ => s
  end.

Definition is_num_char (c : ascii) : bool :=
  Ascii.eqb c "-" || ((48 <=? ord c) && (ord c <=? 57)).

Fixpoint span_num (s : string) : string * string :=
  match s with
  | String c r =>
      if is_num_char c then let '(d, r') := span_num r in (String c d, r')
      else (EmptyString, s)
  | EmptyString => (EmptyString, EmptyString)
  end.

(** The text of a string literal after its opening quote. *)
Fixpoint read_string (s : string) : option (string * string) :=
  match s with
  | EmptyString => None
  | String c r =>
      if Ascii.eqb c dquote then Some (EmptyString, r)
      else if Ascii.eqb c "\" then
        match r with
        | String e r' =>
            match read_string r' with
            | Some (t, rest) => Some (String e t, rest)
            | None => None
            end
        | EmptyString => None
        end
      else
        match read_string r with
        | Some (t, rest) => Some (String c t, rest)
        | None => None
        end
  end.

Fixpoint read_value (fuel : nat) (s : string) : option (json * string) :=
  match fuel with
  | O => None
  | S fuel =>
      let s := skip_ws s in
      match strip "null" s, strip "true" s, strip "false" s with
      | Some r, _, _ => Some (JNull, r)
      | _, Some r, _ => Some (JBool true, r)
      | _, _, Some r => Some (JBool false, r)
      | _, _, _ =>
          match strip (String dquote EmptyString) s, strip "[" s, strip "{" s with
          | Some r, _, _ =>
              match read_string r with
              | Some (t, rest) => Some (JStr t, rest)
              | None => None
              end
          | _, Some r, _ =>
              match strip "]" (skip_ws r) with
              | Some rest => Some (JList [], rest)
              | None =>
                  match read_items fuel r with
                  | Some (l, rest) => Some (JList l, rest)
                  | None => None
                  end
              end
          | _, _, Some r =>
              match strip "}" (skip_ws r) with
              | Some rest => Some (JDict [], rest)
              | None =>
                  match read_members fuel r with
                  | Some (l, rest) => Some (JDict l, rest)
                  | None => None
                  end
              end
          | _, _, _ =>
              let '(d, rest) := span_num s in
              match py_int_of_str d with
              | Some n => Some (JInt n, rest)
              | None => None
              end
          end
      end
  end
with read_items (fuel : nat) (s : string) : option (list json * string) :=
  match fuel with
  | O => None
  | S fuel =>
      match read_value fuel s with
      | Some (v, r) =>
          let r := skip_ws r in
          match strip "]" r, strip "," r with
          | Some rest, _ => Some ([v], rest)
          | _, Some r' =>
              match read_items fuel r' with
              | Some (l, rest) => Some (v :: l, rest)
              | None => None
              end
          | _, _ => None
          end
      | None => None
      end
  end
with read_members (fuel : nat) (s : string) : option (list (string * json) * string) :=
  match fuel with
  | O => None
  | S fuel =>
      match strip (String dquote EmptyString) (skip_ws s) with
      | Some r =>
          match read_string r with
          | Some (k, r) =>
              match strip ":" (skip_ws r) with
              | Some r =>
                  match read_value fuel r with
                  | Some (v, r) =>
                      let r := skip_ws r in
                      match strip "}" r, strip "," r with
                      | Some rest, _ => Some ([(k, v)], rest)
                      | _, Some r' =>
                          match read_members fuel r' with
                          | Some (l, rest) => Some ((k, v) :: l, rest)
                          | None => None
                          end
                      | _, _ => None
                      end
                  | None => None
                  end
              | None => None
              end
          | None => None
          end
      | None => None
      end
  end.

Definition loads (s : string) : option json :=
  match read_value (S (String.length s)) s with
  | Some (v, rest) =>
      match skip_ws rest with
      | EmptyString => Some v
      | _ => None
      end
  | None => None
  end.

End PyJson.

#[export] Instance py_json : Json :=
  {| json_dumps := PyJson.dumps; json_loads := PyJson.loads |}.

(** * Vocabulary of the properties *)

(** The contract of the checksum deriver as the specification words it:
    0 when both are absent or empty, else the code-point sum of
    "<override>-<input>" when the override is set and of the input text when
    it is not. *)
Definition derive (input override : option string) : Z :=
  if negb (truthy_opt input) && negb (truthy_opt override) then 0
  else if truthy_opt override
       then codepoint_sum (py_format override +:+ "-" +:+ py_format input)
       else codepoint_sum (py_format input).

(** What a statement sent to SQLite cannot touch: the ephemeral tier and the
    attributes of the cache. *)
Record frame (s s' : St) : Prop := mkFrame {
  frame_python : python s' = python s;
  frame_win : win s' = win s;
  frame_clock : clock s' = clock s;
  frame_global : global_checksum s' = global_checksum s;
  frame_busy : _busy_tasks s' = _busy_tasks s;
  frame_exit : _exit s' = _exit s;
  frame_queue : _queue s' = _queue s
}.

(** What became of the table after a loop of [_execute_sql] ended in [e]:
    the statement ran exactly once when a cursor comes back, and not at all
    otherwise. *)
Definition ran (q : Stmt) (e : LoopEnd) (s s' : St) : Prop :=
  match e with
  | Returned (Some c) =>
      _exit s = false /\
      exists t, disk s = Table t /\ disk s' = Table (fst (run_stmt q t)) /\
                c = snd (run_stmt q t)
  | _ => disk s' = disk s
  end.

(** A value the serialiser writes as non-empty text and reads back. *)
Definition serialisable `{Json} (v : json) : Prop :=
  truthy_str (json_dumps v) = true /\ json_loads (json_dumps v) = Some v.

(** The store raises nothing in the calls to come. *)
Definition healthy (s : St) : Prop := faults s = [] /\ creates s = [].

(** The next statement is let through: the cache is not exiting, no abort is
    pending and [execute] does not raise. *)
Definition answers (s : St) : Prop :=
  _exit s = false /\ hd false (aborts s) = false /\ hd NoFault (faults s) = NoFault.

(** The entry [set] writes for [(data, checksum, cache_days)] in state [s]. *)
Definition entry_of (d : json) (cs : string) (ttl : Z) (s : St) : json :=
  JList [JInt (clock s + ttl * TIME_DAYS); d;
         JInt (derive (Some cs) (global_checksum s))].

(** The row a queued write puts into the table. *)
Definition write_row `{Json} (t : gmap string Row) (q : Queued) : gmap string Row :=
  let '(e, c, x, d) := q in <[e := mkRow x (json_dumps d) c]> t.

(** The label [set] registers in the busy-task list. *)
Definition set_label (e : string) : string := "set." +:+ e.

(** The state after one attempt that found the store locked and paused. *)
Definition after_locked (q : Stmt) (s : St) : St :=
  add_event (EvWaitForAbort 500)
    (set_faults (tail (faults s)) (add_event (EvExecute q) s)).

Fixpoint after_retries (k : nat) (q : Stmt) (s : St) : St :=
  match k with
  | O => s
  | S k => after_retries k q (after_locked q s)
  end.

(** A quiet host: nothing aborts, nothing fails, no task is running. *)
Definition quiet (v : PyVersion) (w : gmap string string) (d : DbFile)
    (g : option string) (now : Z) : St :=
  mkSt v w d now [] [] [] [] g [] false [].

Definition direct_cache : Self := mkSelf "database_v2_defaultcache.db_simplecache" false false.
Definition deferred_cache : Self := mkSelf "database_v2_defaultcache.db_simplecache" false true.
Definition mem_cache : Self := mkSelf "database_v2_defaultcache.db_simplecache" true false.

(** The cache is not exiting and the host neither aborts nor fails in the
    calls to come. *)
Definition calm (s : St) : Prop :=
  _exit s = false /\ aborts s = [] /\ faults s = [].

(** What the loop of [_do_cleanup] does to the table and to the ephemeral
    tier at one row. *)
Definition sweep_row (force : bool) (now : Z) (t : gmap string Row)
    (r : string * Row) : gmap string Row :=
  if force || (r_expires (snd r) <? now) then delete (fst r) t else t.

Definition clear_row (w : gmap string string) (r : string * Row)
    : gmap string string :=
  delete (fst r) w.

(** The name [__init__] gives an instance:
    [u'{}_{}_simplecache'.format(folder, filename)], after the defaults. *)
Definition sc_name (folder filename : option string) : string :=
  (if truthy_opt folder then py_format folder else "database_v2") +:+ "_" +:+
  (if truthy_opt filename then py_format filename else "defaultcache.db") +:+
  "_simplecache".

(** * Properties *)

(** ** Checksum derivation *)

Lemma fold_left_add_sum (l : list Z) (a : Z) :
  fold_left Z.add l a = a + fold_right Z.add 0 l.
Proof.
  revert a. induction l as [|x l IH]; intros a; simpl.
  - lia.
  - rewrite IH. lia.
Qed.

Lemma reduce_add_nonempty (s : string) :
  truthy_str s = true ->
  reduce_add (map ord (list_ascii_of_string s)) = Ok (codepoint_sum s).
Proof.
  destruct s as [|c s]; simpl; [discriminate|]. intros _.
  unfold codepoint_sum. simpl. now rewrite fold_left_add_sum.
Qed.

Lemma truthy_str_app_l (a b : string) :
  truthy_str a = true -> truthy_str (a +:+ b) = true.
Proof. destruct a; simpl; [discriminate | reflexivity]. Qed.

Lemma ord_nonneg (c : ascii) : 0 <= ord c.
Proof. unfold ord. lia. Qed.

Lemma codepoint_sum_nonneg (s : string) : 0 <= codepoint_sum s.
Proof.
  unfold codepoint_sum. induction s as [|c s IH]; simpl; [lia|].
  pose proof (ord_nonneg c). lia.
Qed.

Lemma codepoint_sum_app (a b : string) :
  codepoint_sum (a +:+ b) = codepoint_sum a + codepoint_sum b.
Proof.
  unfold codepoint_sum. induction a as [|c a IH]; simpl; [reflexivity|].
  rewrite IH. lia.
Qed.

Lemma get_checksum_eq (override input : option string) :
  _get_checksum override input = Ok (derive input override).
Proof.
  unfold _get_checksum, derive.
  destruct (truthy_opt input) eqn:Hi, (truthy_opt override) eqn:Ho; simpl;
    try reflexivity.
  - apply reduce_add_nonempty. destruct override as [g|]; [|discriminate].
    simpl in *. now apply truthy_str_app_l.
  - apply reduce_add_nonempty. destruct input as [i|]; [|discriminate]. exact Hi.
  - apply reduce_add_nonempty. destruct override as [g|]; [|discriminate].
    simpl in *. now apply truthy_str_app_l.
Qed.

(** C9. [_get_checksum] returns 0 when both the input and the override are
    absent or empty; otherwise it returns the sum of the code points of
    "<override>-<input>" when the override is set and of the input text when
    it is not (an absent input prints as "None" under [format]).  It never
    raises. *)
Theorem get_checksum_derivation (override input : option string) :
  _get_checksum override input =
    Ok (if negb (truthy_opt input) && negb (truthy_opt override) then 0
        else if truthy_opt override
             then codepoint_sum (py_format override +:+ "-" +:+ py_format input)
             else codepoint_sum (py_format input)).
Proof.
  unfold _get_checksum.
  destruct (truthy_opt input) eqn:Hi, (truthy_opt override) eqn:Ho; simpl.
  - (* both given: the text starts with the override *)
    apply reduce_add_nonempty.
    destruct override as [g|]; [|discriminate]. simpl in *.
    now apply truthy_str_app_l.
  - (* input alone *)
    apply reduce_add_nonempty.
    destruct input as [i|]; [|discriminate]. exact Hi.
  - (* override alone: the text is "<override>-" or "<override>-None" *)
    apply reduce_add_nonempty.
    destruct override as [g|]; [|discriminate]. simpl in *.
    now apply truthy_str_app_l.
  - (* neither *)
    reflexivity.
Qed.

Example get_checksum_v1 : _get_checksum None (Some "v1") = Ok 167.
Proof. reflexivity. Qed.

Example get_checksum_override : _get_checksum (Some "G") (Some "") = Ok 116.
Proof. reflexivity. Qed.

(** ** Stepping through monadic code *)

Ltac munfold :=
  unfold loads, getProperty, setProperty, clearProperty, waitForAbort,
    xbmc_sleep, kodi_log, set_timestamp, next_fault, next_create,
    abortRequested in *;
  unfold bind, ret, raise, lift, gets, modify in *.

(** Projections of an updated state. *)
Ltac st :=
  cbn [python win disk clock aborts faults creates trace global_checksum
       _busy_tasks _exit _queue add_event set_win set_disk set_clock set_aborts
       set_faults set_creates set_busy set_exit set_queue] in *.

Lemma frame_refl (s : St) : frame s s.
Proof. now constructor. Qed.

Lemma frame_trans (s1 s2 s3 : St) : frame s1 s2 -> frame s2 s3 -> frame s1 s3.
Proof. intros [] []. constructor; congruence. Qed.

#[local] Hint Resolve frame_refl : core.

Lemma frame_set_disk d s : frame s (set_disk d s).
Proof. now constructor. Qed.
Lemma frame_set_aborts l s : frame s (set_aborts l s).
Proof. now constructor. Qed.
Lemma frame_set_faults l s : frame s (set_faults l s).
Proof. now constructor. Qed.
Lemma frame_set_creates l s : frame s (set_creates l s).
Proof. now constructor. Qed.
Lemma frame_add_event e s : frame s (add_event e s).
Proof. now constructor. Qed.

#[local] Hint Resolve frame_set_disk frame_set_aborts frame_set_faults
  frame_set_creates frame_add_event : core.

(** ** Opening the database *)

Lemma get_database_table (attempts : nat) (s : St) t :
  disk s = Table t -> _get_database attempts s = (Ok (Some tt), s).
Proof. intros Hd. destruct attempts; simpl; munfold; now rewrite Hd. Qed.

(** Opening never raises; it keeps the rows a reader sees, and a connection
    comes with a table. *)
Lemma get_database_inv (attempts : nat) (s s' : St) r :
  _get_database attempts s = (r, s') ->
  frame s s' /\ rows s' = rows s /\ faults s' = faults s /\ aborts s' = aborts s /\
  ((r = Ok (Some tt) /\ exists t, disk s' = Table t) \/ r = Ok None).
Proof.
  revert s s' r. induction attempts as [|n IH]; intros s s' r; simpl; munfold.
  - destruct (disk s) eqn:Hd; simpl.
    1,2: destruct (creates s) as [|[] l]; simpl; intros [= <- <-];
         unfold rows; simpl; rewrite ?Hd;
         (split; [now constructor|]); repeat split; eauto.
    intros [= <- <-]. repeat split; eauto.
  - destruct (disk s) eqn:Hd; simpl.
    1,2: destruct (creates s) as [|[] l] eqn:Hc; simpl;
         [ intros [= <- <-]; unfold rows; simpl; rewrite ?Hd;
           (split; [now constructor|]); repeat split; eauto
         | intros [= <- <-]; unfold rows; simpl; rewrite ?Hd;
           (split; [now constructor|]); repeat split; eauto
         | intros Hrec; apply IH in Hrec;
           destruct Hrec as (Hf & Hr & Hfa & Hab & Hres);
           unfold rows in *; simpl in *; rewrite ?Hd in *;
           (split; [destruct Hf; now constructor|]); repeat split; eauto ].
    intros [= <- <-]. repeat split; eauto.
Qed.

(** ** Running a statement *)

Lemma execute_inv (q : Stmt) (s s' : St) r :
  execute q s = (r, s') ->
  frame s s' /\ aborts s' = aborts s /\
  ((exists t, disk s = Table t /\ disk s' = Table (fst (run_stmt q t)) /\
              r = Ok (inr (snd (run_stmt q t)))) \/
   (disk s' = disk s /\ exists f, r = Ok (inl f))).
Proof.
  unfold execute; munfold. simpl.
  destruct (faults s) as [|[|msg|] l] eqn:Hf; simpl;
  destruct (disk s) as [| |t] eqn:Hd; simpl;
  try (destruct (run_stmt q t) as [t' c] eqn:Hrun; simpl);
  intros [= <- <-]; (split; [now constructor|]); (split; [reflexivity|]);
  simpl.
  all: try (right; split; [congruence|eauto]).
  all: left; exists t; now rewrite Hrun.
Qed.

(** The loop never raises and never hangs. *)
Lemma sql_loop_inv (q : Stmt) (n : nat) :
  forall (err : ErrorVar) (s s' : St) r,
  sql_loop n err q s = (r, s') ->
  frame s s' /\ exists e, r = Ok e /\ ran q e s s'.
Proof.
  induction n as [|n IH]; intros err s s' r; simpl.
  - munfold. intros [= <- <-]. split; eauto. exists (Left err). now split.
  - unfold bind at 1. destruct (abortRequested s) as [ra sa] eqn:Ha.
    assert (Hfa : frame s sa /\ disk sa = disk s /\ exists b, ra = Ok b).
    { revert Ha. munfold. destruct (aborts s); intros [= <- <-]; eauto 6. }
    destruct Hfa as (Hf1 & Hd1 & b & ->).
    destruct b.
    + munfold. intros [= <- <-]. split; [exact Hf1|].
      exists (Left err). now split.
    + unfold bind at 1. unfold gets at 1.
      destruct (_exit sa) eqn:Hex.
      * munfold. intros [= <- <-]. split; [exact Hf1|].
        exists (Returned None). now split.
      * unfold bind at 1. destruct (execute q sa) as [re se] eqn:He.
        apply execute_inv in He. destruct He as (Hf2 & _ & He).
        assert (Hfs : frame s se) by (eapply frame_trans; eassumption).
        assert (Hexs : _exit s = false)
          by (destruct Hf1 as [_ _ _ _ _ Hx _]; congruence).
        destruct He as [(t & Ht & Ht' & ->) | (Hd2 & f & ->)].
        -- munfold. intros [= <- <-]. split; [exact Hfs|].
           exists (Returned (Some (snd (run_stmt q t)))). split; [reflexivity|].
           simpl. split; [exact Hexs|]. exists t. rewrite <- Hd1. now repeat split.
        -- assert (Hds : disk se = disk s) by congruence.
           destruct f as [|msg|].
           ++ munfold. intros [= <- <-]. split; [exact Hfs|].
              exists (Left err). now split.
           ++ unfold bind at 1. unfold gets at 1.
              destruct (locked_in (python se) msg) as [[]|].
              ** unfold bind at 1, kodi_log at 1, ret at 1.
                 unfold bind at 1, waitForAbort at 1, modify at 1.
                 intros Hrec. apply IH in Hrec.
                 destruct Hrec as (Hf3 & e & -> & Hran).
                 split.
                 { eapply frame_trans; [exact Hfs|].
                   eapply frame_trans; [|exact Hf3]. auto. }
                 exists e. split; [reflexivity|].
                 unfold ran in *. destruct e as [[c|]|]; simpl in *;
                   try congruence.
                 destruct Hran as (_ & t & Ht & Ht' & ->).
                 split; [exact Hexs|]. exists t. rewrite <- Hds. now repeat split.
              ** munfold. intros [= <- <-]. split; [exact Hfs|].
                 exists (Left (after_handler (python se))). now split.
              ** munfold. intros [= <- <-]. split; [exact Hfs|].
                 exists (Left (after_handler (python se))). now split.
           ++ munfold. intros [= <- <-]. split; [exact Hfs|].
              exists (Left err). now split.
Qed.

(** [_execute_sql] keeps the ephemeral tier and the attributes of the cache;
    it returns a cursor only after running the statement once on the table,
    and leaves the rows alone otherwise.  It may raise, but never hangs. *)
Lemma execute_sql_inv (q : Stmt) (s s' : St) r :
  _execute_sql q s = (r, s') ->
  frame s s' /\
  match r with
  | Ok (Some c) =>
      _exit s = false /\
      rows s' = fst (run_stmt q (rows s)) /\ c = snd (run_stmt q (rows s))
  | Ok None | Raise _ => rows s' = rows s
  | Hang => False
  end.
Proof.
  unfold _execute_sql. unfold bind at 1.
  destruct (_get_database 2 s) as [rd sd] eqn:Hdb.
  apply get_database_inv in Hdb.
  destruct Hdb as (Hf1 & Hr1 & _ & _ & [(-> & t & Ht) | ->]).
  - unfold bind at 1. destruct (sql_loop 10 ErrorNone q sd) as [rl sl] eqn:Hl.
    apply sql_loop_inv in Hl. destruct Hl as (Hf2 & e & -> & Hran).
    assert (Hfs : frame s sl) by (eapply frame_trans; eassumption).
    destruct e as [[c|]|err]; simpl in Hran.
    + munfold. intros [= <- <-]. split; [exact Hfs|].
      destruct Hran as (Hex & t0 & Ht0 & Ht' & ->).
      assert (t0 = t) by congruence. subst t0.
      assert (Hrs : rows s = t) by (rewrite <- Hr1; unfold rows; now rewrite Ht).
      split; [destruct Hf1; congruence|].
      rewrite Hrs. split; [|reflexivity]. unfold rows. now rewrite Ht'.
    + munfold. intros [= <- <-]. split; [exact Hfs|].
      rewrite <- Hr1. unfold rows. now rewrite Hran.
    + destruct err; munfold; intros [= <- <-]; (split; [exact Hfs|]);
        rewrite <- Hr1; unfold rows; now rewrite Hran.
  - munfold. intros [= <- <-]. split; [exact Hf1|]. exact Hr1.
Qed.

(** ** The ephemeral tier *)

Section Tiers.
Context `{Json}.
Variable self : Self.

Lemma derive_checksum_run (checksum : string) (s : St) :
  derive_checksum checksum s =
    (Ok (derive (Some checksum) (global_checksum s)), s).
Proof. unfold derive_checksum; munfold. now rewrite get_checksum_eq. Qed.

(** Reading the ephemeral tier changes nothing. *)
Lemma get_mem_cache_state (e : string) (cs now : Z) (s : St) :
  snd (_get_mem_cache self e cs now s) = s.
Proof.
  unfold _get_mem_cache; munfold.
  destruct (truthy_str (default "" (win s !! mem_key self e))); simpl; [|reflexivity].
  destruct (json_loads (default "" (win s !! mem_key self e))) as [cd|]; simpl;
    [|reflexivity].
  destruct (truthy cd); simpl; [|reflexivity].
  destruct (py_index cd 0) as [c0| |]; simpl; try reflexivity.
  destruct (py_int c0) as [exp| |]; simpl; try reflexivity.
  destruct (exp <=? now); simpl; [reflexivity|].
  destruct (cs =? 0); simpl.
  - now destruct (py_index cd 1).
  - destruct (py_index cd 2) as [c2| |]; simpl; try reflexivity.
    destruct (py_eq_int cs c2); simpl; [|reflexivity].
    now destruct (py_index cd 1).
Qed.

Lemma get_mem_cache_absent (e : string) (cs now : Z) (s : St) :
  default "" (win s !! mem_key self e) = "" ->
  _get_mem_cache self e cs now s = (Ok JNull, s).
Proof. intros Hw. unfold _get_mem_cache; munfold. now rewrite Hw. Qed.

(** An entry [[expires, data, checksum]] is served iff it has not expired and
    the checksum asked for is 0 or the stored one. *)
Lemma get_mem_cache_entry (e txt : string) (cs now exp : Z) (d c : json) (s : St) :
  win s !! mem_key self e = Some txt ->
  truthy_str txt = true ->
  json_loads txt = Some (JList [JInt exp; d; c]) ->
  _get_mem_cache self e cs now s =
    (Ok (if exp <=? now then JNull
         else if (cs =? 0) || py_eq_int cs c then d else JNull), s).
Proof.
  intros Hw Ht Hl. unfold _get_mem_cache; munfold.
  rewrite Hw. simpl. rewrite Ht, Hl. simpl.
  destruct (exp <=? now); [reflexivity|].
  destruct (cs =? 0); simpl; [reflexivity|].
  now destruct (py_eq_int cs c).
Qed.

(** Whatever the text under the key, what has expired is not served. *)
Lemma get_mem_cache_expired (e txt : string) (cs now exp : Z) (cd c0 : json) (s : St) :
  win s !! mem_key self e = Some txt ->
  json_loads txt = Some cd ->
  py_index cd 0 = Ok c0 ->
  py_int c0 = Ok exp ->
  exp <= now ->
  _get_mem_cache self e cs now s = (Ok JNull, s).
Proof.
  intros Hw Hl H0 Hi Hle. unfold _get_mem_cache; munfold.
  rewrite Hw. simpl. destruct (truthy_str txt); [|reflexivity]. simpl.
  rewrite Hl. destruct (truthy cd); [|reflexivity]. simpl.
  rewrite H0, Hi. apply Z.leb_le in Hle. now rewrite Hle.
Qed.

(** A value comes out of the ephemeral tier only from an entry that has not
    expired and whose checksum is accepted. *)
Lemma get_mem_cache_hit (e : string) (cs now : Z) (s : St) (v : json) :
  fst (_get_mem_cache self e cs now s) = Ok v ->
  is_None v = false ->
  exists txt cd c0 exp,
    win s !! mem_key self e = Some txt /\
    json_loads txt = Some cd /\
    py_index cd 0 = Ok c0 /\ py_int c0 = Ok exp /\ now < exp /\
    py_index cd 1 = Ok v /\
    (cs = 0 \/ exists c2, py_index cd 2 = Ok c2 /\ py_eq_int cs c2 = true).
Proof.
  unfold _get_mem_cache; munfold.
  destruct (win s !! mem_key self e) as [txt|] eqn:Hw; simpl;
    [|intros [= <-]; discriminate].
  destruct (truthy_str txt); simpl; [|intros [= <-]; discriminate].
  destruct (json_loads txt) as [cd|] eqn:Hl; simpl; [|discriminate].
  destruct (truthy cd); simpl; [|intros [= <-]; discriminate].
  destruct (py_index cd 0) as [c0| |] eqn:H0; simpl; try discriminate.
  destruct (py_int c0) as [exp| |] eqn:Hi; simpl; try discriminate.
  destruct (exp <=? now) eqn:Hle; simpl; [intros [= <-]; discriminate|].
  apply Z.leb_gt in Hle.
  destruct (cs =? 0) eqn:Hcs; simpl.
  - apply Z.eqb_eq in Hcs. intros Hv _.
    exists txt, cd, c0, exp. repeat split; auto.
  - destruct (py_index cd 2) as [c2| |] eqn:H2; simpl; try discriminate.
    destruct (py_eq_int cs c2) eqn:Heq; simpl; [|intros [= <-]; discriminate].
    intros Hv _. exists txt, cd, c0, exp. repeat split; eauto.
Qed.

Lemma set_mem_cache_run (e : string) (cs exp : Z) (d : json) (s : St) :
  _set_mem_cache self e cs exp d s =
    (Ok tt, set_win (insert (mem_key self e)
                       (json_dumps (JList [JInt exp; d; JInt cs]))) s).
Proof. reflexivity. Qed.

End Tiers.

(** ** Reads and writes of the engine *)

Section Calls.
Context `{Json}.
Variable self : Self.

Lemma sql_loop_ok (q : Stmt) (n : nat) (err : ErrorVar) (s : St) t :
  disk s = Table t -> answers s ->
  exists s',
    sql_loop (S n) err q s = (Ok (Returned (Some (snd (run_stmt q t)))), s') /\
    frame s s' /\ disk s' = Table (fst (run_stmt q t)) /\
    trace s' = (trace s ++ [EvExecute q])%list /\
    aborts s' = tail (aborts s) /\ faults s' = tail (faults s).
Proof.
  intros Hd (Hex & Hab & Hfa).
  cbn [sql_loop]. unfold execute. munfold.
  destruct (aborts s) as [|a la] eqn:Ha; simpl in Hab; subst; simpl;
    rewrite Hex; simpl;
    destruct (faults s) as [|f lf] eqn:Hf; simpl in Hfa; subst; simpl;
    rewrite Hd; destruct (run_stmt q t) as [t' c] eqn:Hrun; simpl;
    eexists; (split; [reflexivity|]); simpl; rewrite ?Ha, ?Hf;
    (split; [now constructor|]); auto.
Qed.

Lemma execute_sql_ok (q : Stmt) (s : St) t :
  disk s = Table t -> answers s ->
  exists s',
    _execute_sql q s = (Ok (Some (snd (run_stmt q t))), s') /\
    frame s s' /\ disk s' = Table (fst (run_stmt q t)) /\
    trace s' = (trace s ++ [EvExecute q])%list /\
    aborts s' = tail (aborts s) /\ faults s' = tail (faults s).
Proof.
  intros Hd Ha.
  destruct (sql_loop_ok q 9 ErrorNone s t Hd Ha) as (s' & Hl & Hrest).
  exists s'. split; [|exact Hrest].
  unfold _execute_sql. unfold bind at 1.
  rewrite (get_database_table 2 s t Hd).
  unfold bind at 1. now rewrite Hl.
Qed.

Lemma sql_loop_healthy (q : Stmt) (n : nat) (s s' : St) r t :
  disk s = Table t -> healthy s ->
  sql_loop (S n) ErrorNone q s = (r, s') ->
  healthy s' /\ (r = Ok (Left ErrorNone) \/ exists c, r = Ok (Returned c)).
Proof.
  intros Hd (Hf & Hc). unfold healthy.
  cbn [sql_loop]. unfold execute. munfold.
  destruct (aborts s) as [|[] la]; simpl.
  - destruct (_exit s); simpl; [intros [= <- <-]; eauto|].
    rewrite Hf. st. rewrite Hd. simpl. destruct (run_stmt q t); simpl.
    intros [= <- <-]; simpl; eauto.
  - intros [= <- <-]; simpl; eauto.
  - destruct (_exit s); simpl; [intros [= <- <-]; eauto|].
    rewrite Hf. st. rewrite Hd. simpl. destruct (run_stmt q t); simpl.
    intros [= <- <-]; simpl; eauto.
Qed.

Lemma execute_sql_healthy (q : Stmt) (s s' : St) r :
  healthy s -> _execute_sql q s = (r, s') ->
  healthy s' /\ exists c, r = Ok c.
Proof.
  intros (Hf & Hc). unfold _execute_sql. unfold bind at 1.
  assert (Hdb : exists sd t, _get_database 2 s = (Ok (Some tt), sd) /\
            disk sd = Table t /\ healthy sd).
  { unfold healthy. cbn [_get_database]. munfold. destruct (disk s) eqn:Hd; simpl.
    1,2: rewrite Hc; simpl; eexists; eexists; split; [reflexivity|]; simpl; eauto.
    eexists; eexists; split; [reflexivity|]; eauto. }
  destruct Hdb as (sd & t & -> & Hd & Hh).
  unfold bind at 1.
  destruct (sql_loop 10 ErrorNone q sd) as [rl sl] eqn:Hl.
  apply (sql_loop_healthy q 9 sd sl rl t Hd Hh) in Hl.
  destruct Hl as (Hh' & [-> | (c & ->)]); munfold; intros [= <- <-]; eauto.
Qed.

(** The durable read. *)
Lemma get_db_cache_inv (e : string) (cs now : Z) (s s' : St) r :
  _get_db_cache self e cs now s = (r, s') ->
  rows s' = rows s /\ clock s' = clock s /\ global_checksum s' = global_checksum s /\
  match r with
  | Ok v =>
      (v = JNull /\ win s' = win s) \/
      (exists row,
         rows s !! e = Some row /\ now < r_expires row /\
         (cs = 0 \/ cs = r_checksum row) /\
         json_loads (r_data row) = Some v /\
         win s' = <[mem_key self e :=
                      json_dumps (JList [JInt (r_expires row); v; JInt cs])]> (win s))
  | Raise _ => win s' = win s
  | Hang => False
  end.
Proof.
  unfold _get_db_cache. unfold bind at 1.
  destruct (_execute_sql (SelectEntry e) s) as [rq sq] eqn:Hq.
  apply execute_sql_inv in Hq. destruct Hq as (Hf & Hq).
  destruct rq as [[c|]| |]; simpl in Hq; [| | |contradiction].
  - destruct Hq as (Hex & Hr & Hc). simpl in Hr, Hc.
    destruct (rows s !! e) as [row|] eqn:Hrow; subst c; simpl.
    + destruct (r_expires row <=? now) eqn:Hle; simpl.
      * munfold. intros [= <- <-]. destruct Hf. repeat split; auto.
      * apply Z.leb_gt in Hle.
        destruct ((cs =? 0) || (cs =? r_checksum row)) eqn:Hcs; simpl.
        -- unfold bind at 1. unfold loads.
           destruct (json_loads (r_data row)) as [v|] eqn:Hl; simpl.
           ++ munfold. simpl. intros [= <- <-]. simpl.
              destruct Hf. repeat split; auto.
              right. exists row. repeat split; auto.
              ** apply orb_true_iff in Hcs. destruct Hcs as [Hz|Hz];
                   apply Z.eqb_eq in Hz; auto.
              ** now f_equal.
           ++ munfold. intros [= <- <-]. destruct Hf. repeat split; auto.
        -- munfold. intros [= <- <-]. destruct Hf. repeat split; auto.
    + munfold. intros [= <- <-]. destruct Hf. repeat split; auto.
  - munfold. intros [= <- <-]. destruct Hf. repeat split; auto.
  - munfold. intros [= <- <-]. destruct Hf. repeat split; auto.
Qed.

(** With a healthy store the durable read returns, provided the text of a
    row it would serve can be read back. *)
Lemma get_db_cache_healthy (e : string) (cs now : Z) (s s' : St) r :
  healthy s ->
  (forall row, rows s !! e = Some row -> now < r_expires row ->
     cs = 0 \/ cs = r_checksum row ->
     exists v, json_loads (r_data row) = Some v) ->
  _get_db_cache self e cs now s = (r, s') ->
  healthy s' /\ exists v, r = Ok v.
Proof.
  intros Hh Hl. unfold _get_db_cache. unfold bind at 1.
  destruct (_execute_sql (SelectEntry e) s) as [rq sq] eqn:Hq.
  pose proof (execute_sql_healthy _ _ _ _ Hh Hq) as (Hh' & c & ->).
  apply execute_sql_inv in Hq. destruct Hq as (_ & Hq).
  destruct c as [c|]; simpl in Hq.
  - destruct Hq as (_ & _ & ->). simpl.
    destruct (rows s !! e) as [row|] eqn:Hrow; simpl.
    + destruct (r_expires row <=? now) eqn:Hle; simpl;
        [munfold; intros [= <- <-]; eauto|].
      destruct ((cs =? 0) || (cs =? r_checksum row)) eqn:Hcs; simpl;
        [|munfold; intros [= <- <-]; eauto].
      destruct (Hl row eq_refl) as (v & Hv).
      { now apply Z.leb_gt. }
      { apply orb_true_iff in Hcs. destruct Hcs as [Hz|Hz];
          apply Z.eqb_eq in Hz; auto. }
      unfold loads. rewrite Hv.
      munfold. intros [= <- <-]; eauto.
    + munfold; intros [= <- <-]; eauto.
  - munfold; intros [= <- <-]; eauto.
Qed.

(** A row that has expired, or whose checksum is refused, is not served. *)
Lemma get_db_cache_miss (e : string) (cs now : Z) (s s' : St) r :
  healthy s ->
  (forall row, rows s !! e = Some row ->
     r_expires row <= now \/ (cs <> 0 /\ cs <> r_checksum row)) ->
  _get_db_cache self e cs now s = (r, s') ->
  r = Ok JNull /\ win s' = win s /\ rows s' = rows s /\ healthy s'.
Proof.
  intros Hh Hrow Hrun.
  destruct (get_db_cache_healthy e cs now s s' r Hh) as (Hh' & v & ->);
    [|exact Hrun|].
  { intros row Hr Hexp Hcs. exfalso. destruct (Hrow row Hr) as [|[]]; [lia|].
    destruct Hcs; contradiction. }
  apply get_db_cache_inv in Hrun. destruct Hrun as (Hrows & _ & _ & Hv).
  destruct Hv as [(-> & Hw) | (row & Hr & Hexp & Hcs & _)].
  - split; [reflexivity|]. split; [exact Hw|]. split; [exact Hrows|exact Hh'].
  - exfalso. destruct (Hrow row Hr) as [|[]]; [lia|]. destruct Hcs; contradiction.
Qed.

(** [get] serves a value found in the ephemeral tier without going further. *)
Lemma get_mem_hit (e cs : string) (s : St) (v : json) :
  fst (_get_mem_cache self e (derive (Some cs) (global_checksum s)) (clock s) s) = Ok v ->
  is_None v = false ->
  get self e cs s = (Ok v, s).
Proof.
  intros Hm Hv. unfold get. unfold bind at 1. rewrite derive_checksum_run.
  unfold bind at 1. unfold set_timestamp, gets. rewrite Z.add_0_r.
  unfold bind at 1.
  pose proof (get_mem_cache_state self e (derive (Some cs) (global_checksum s)) (clock s) s) as Hs.
  destruct (_get_mem_cache self e _ (clock s) s) as [rm sm]. simpl in *. subst.
  rewrite Hv. reflexivity.
Qed.

Lemma get_mem_miss (e cs : string) (s : St) :
  fst (_get_mem_cache self e (derive (Some cs) (global_checksum s)) (clock s) s) = Ok JNull ->
  get self e cs s =
    if _mem_only self then (Ok JNull, s)
    else _get_db_cache self e (derive (Some cs) (global_checksum s)) (clock s) s.
Proof.
  intros Hm. unfold get. unfold bind at 1. rewrite derive_checksum_run.
  unfold bind at 1. unfold set_timestamp, gets. rewrite Z.add_0_r.
  unfold bind at 1.
  pose proof (get_mem_cache_state self e (derive (Some cs) (global_checksum s)) (clock s) s) as Hs.
  destruct (_get_mem_cache self e _ (clock s) s) as [rm sm]. simpl in *. subst.
  now destruct (_mem_only self).
Qed.

Lemma get_run (e cs : string) (s : St) :
  get self e cs s =
    match fst (_get_mem_cache self e (derive (Some cs) (global_checksum s)) (clock s) s) with
    | Ok v =>
        if negb (is_None v) || _mem_only self then (Ok v, s)
        else _get_db_cache self e (derive (Some cs) (global_checksum s)) (clock s) s
    | Raise ex => (Raise ex, s)
    | Hang => (Hang, s)
    end.
Proof.
  unfold get. unfold bind at 1. rewrite derive_checksum_run.
  unfold bind at 1. unfold set_timestamp, gets. rewrite Z.add_0_r.
  unfold bind at 1.
  pose proof (get_mem_cache_state self e (derive (Some cs) (global_checksum s)) (clock s) s) as Hs.
  destruct (_get_mem_cache self e _ (clock s) s) as [rm sm]. simpl in *. subst.
  destruct rm as [v| |]; [|reflexivity|reflexivity].
  now destruct (negb (is_None v) || _mem_only self).
Qed.

(** A value comes out of [get] only from an entry or a row that has not
    expired. *)
Lemma get_hit_unexpired (e cs : string) (s s' : St) (v : json) :
  get self e cs s = (Ok v, s') ->
  is_None v = false ->
  (exists txt cd c0 exp,
     win s !! mem_key self e = Some txt /\ json_loads txt = Some cd /\
     py_index cd 0 = Ok c0 /\ py_int c0 = Ok exp /\ clock s < exp) \/
  (exists row, rows s !! e = Some row /\ clock s < r_expires row).
Proof.
  intros Hget Hv. rewrite get_run in Hget.
  set (c := derive (Some cs) (global_checksum s)) in *.
  destruct (fst (_get_mem_cache self e c (clock s) s)) as [v0| |] eqn:Hm;
    try discriminate.
  destruct (is_None v0) eqn:Hv0; simpl in Hget.
  - destruct (_mem_only self); [injection Hget as <- <-; congruence|].
    apply get_db_cache_inv in Hget. destruct Hget as (_ & _ & _ & Hr).
    destruct Hr as [(-> & _) | (row & Hrow & Hexp & _)]; [discriminate|].
    right. eauto.
  - injection Hget as <- <-.
    apply get_mem_cache_hit in Hm; [|exact Hv0].
    destruct Hm as (txt & cd & c0 & exp & Hw & Hl & H0 & Hi & Hexp & _).
    left. exists txt, cd, c0, exp. auto.
Qed.

End Calls.

Section Writes.
Context `{Json}.
Variable self : Self.

(** The durable write keeps the ephemeral tier and the cache attributes; it
    writes the row or leaves the table as it was. *)
Lemma set_db_cache_inv (e : string) (cs exp : Z) (d : json) (s s' : St) r :
  _set_db_cache e cs exp d s = (r, s') ->
  frame s s' /\ r <> Hang /\
  (rows s' = rows s \/
   (_exit s = false /\ rows s' = <[e := mkRow exp (json_dumps d) cs]> (rows s))).
Proof.
  unfold _set_db_cache. unfold bind at 1.
  destruct (_execute_sql _ s) as [rq sq] eqn:Hq.
  apply execute_sql_inv in Hq. destruct Hq as (Hf & Hq).
  destruct rq as [[c|]| |]; simpl in Hq; [| | |contradiction];
    munfold; intros [= <- <-]; (split; [exact Hf|]); (split; [discriminate|]);
    tauto.
Qed.

(** What [set] does, mode by mode. *)
Lemma set_run (e : string) (d : json) (cs : string) (ttl : Z) (s : St) :
  let c := derive (Some cs) (global_checksum s) in
  let exp := clock s + ttl * TIME_DAYS in
  let s1 := set_win (insert (mem_key self e) (json_dumps (entry_of d cs ttl s)))
              (set_busy (fun l => (l ++ [set_label e])%list) s) in
  set self e d cs ttl s =
    if _mem_only self then (Ok tt, set_busy (list_remove (set_label e)) s1)
    else if _delaywrite self then
      (Ok tt, set_busy (list_remove (set_label e))
                (set_queue (_queue s ++ [(e, c, exp, d)])%list s1))
    else
      let '(r, s2) := _set_db_cache e c exp d s1 in
      (r, set_busy (list_remove (set_label e)) s2).
Proof.
  intros c exp s1. unfold set, busy_tasks. unfold bind at 1.
  rewrite derive_checksum_run. st.
  unfold bind at 1. unfold set_timestamp at 1, gets at 1. st.
  unfold bind at 1. rewrite set_mem_cache_run. fold c exp.
  change (set_win _ _) with s1.
  destruct (_mem_only self); [reflexivity|].
  destruct (_delaywrite self); [reflexivity|].
  now destruct (_set_db_cache e c exp d s1).
Qed.

(** After [set], however it ends, the ephemeral tier holds the entry. *)
Lemma set_inv (e : string) (d : json) (cs : string) (ttl : Z) (s s' : St) r :
  set self e d cs ttl s = (r, s') ->
  win s' = <[mem_key self e := json_dumps (entry_of d cs ttl s)]> (win s) /\
  clock s' = clock s /\ global_checksum s' = global_checksum s /\
  python s' = python s /\ _exit s' = _exit s /\
  _busy_tasks s' = list_remove (set_label e) (_busy_tasks s ++ [set_label e])%list.
Proof.
  rewrite set_run. cbv zeta.
  destruct (_mem_only self); [intros [= <- <-]; now repeat split|].
  destruct (_delaywrite self); [intros [= <- <-]; now repeat split|].
  destruct (_set_db_cache _ _ _ _ _) as [r2 s2] eqn:Hdb.
  apply set_db_cache_inv in Hdb. destruct Hdb as ([] & _).
  intros [= <- <-]. st. repeat split; congruence.
Qed.

End Writes.

(** ** Deferred writes and shutdown *)

Section Shutdown.
Context `{Json}.
Variable self : Self.

Lemma await_tasks_inv (polls : list bool) :
  forall (s s' : St) r,
  await_tasks polls s = (r, s') ->
  frame s s' /\ disk s' = disk s /\ faults s' = faults s /\ creates s' = creates s /\
  (r = Ok tt \/ r = Hang) /\ (_busy_tasks s = [] -> r = Ok tt /\ s' = s).
Proof.
  induction polls as [|[] polls IH]; intros s s' r; simpl.
  - destruct (_busy_tasks s) eqn:Hb; intros [= <- <-]; repeat split; auto;
      discriminate.
  - destruct (_busy_tasks s) eqn:Hb; intros [= <- <-]; repeat split; auto;
      discriminate.
  - destruct (_busy_tasks s) eqn:Hb.
    + intros [= <- <-]; repeat split; auto.
    + intros Hrec. apply IH in Hrec.
      destruct Hrec as ([] & Hd & Hf & Hc & Hr & _). st.
      repeat split; auto; discriminate.
Qed.

(** Once the exit flag is set, flushing the queue writes nothing. *)
Lemma flush_exiting (queue : list Queued) :
  forall (s s' : St) r,
  _exit s = true ->
  flush queue s = (r, s') ->
  frame s s' /\ rows s' = rows s /\ r <> Hang.
Proof.
  induction queue as [|[[[e c] x] d] queue IH]; intros s s' r Hex; simpl.
  - munfold. intros [= <- <-]. split; [auto|]. split; [reflexivity|discriminate].
  - unfold bind at 1. destruct (_set_db_cache e c x d s) as [r1 s1] eqn:H1.
    apply set_db_cache_inv in H1. destruct H1 as (Hf1 & Hh1 & Hr1).
    assert (Hrows : rows s1 = rows s) by (destruct Hr1 as [|[]]; congruence).
    destruct r1 as [[]|ex|]; [| |contradiction].
    + intros Hrec. apply IH in Hrec; [|destruct Hf1; congruence].
      destruct Hrec as (Hf2 & Hr2 & Hh2).
      split; [eapply frame_trans; eassumption|]. split; congruence.
    + intros [= <- <-]. split; [exact Hf1|]. split; [exact Hrows|discriminate].
Qed.

(** With a healthy store the flush returns. *)
Lemma flush_healthy (queue : list Queued) :
  forall (s s' : St) r,
  healthy s -> flush queue s = (r, s') -> r = Ok tt.
Proof.
  induction queue as [|[[[e c] x] d] queue IH]; intros s s' r Hh; simpl.
  - munfold. now intros [= <- <-].
  - unfold bind at 1. unfold _set_db_cache. unfold bind at 1.
    destruct (_execute_sql _ s) as [rq sq] eqn:Hq.
    destruct (execute_sql_healthy _ _ _ _ Hh Hq) as (Hh' & c' & ->).
    unfold ret at 1. now apply IH.
Qed.

(** Were the exit flag not set, the same loop would write every queued
    entry. *)
Lemma flush_writes (queue : list Queued) :
  forall (s : St) t,
  _exit s = false -> aborts s = [] -> faults s = [] -> disk s = Table t ->
  exists s',
    flush queue s = (Ok tt, s') /\ disk s' = Table (fold_left write_row queue t).
Proof.
  induction queue as [|[[[e c] x] d] queue IH]; intros s t Hex Ha Hf Hd.
  - exists s. now split.
  - assert (Hans : answers s)
      by (split; [exact Hex|split; [now rewrite Ha|now rewrite Hf]]).
    destruct (execute_sql_ok (InsertOrReplace e x (json_dumps d) c) s t Hd Hans)
      as (s1 & Hq & Hfr & Hd1 & _ & Ha1 & Hf1).
    destruct (IH s1 (<[e := mkRow x (json_dumps d) c]> t)) as (s' & Hfl & Hd');
      [destruct Hfr; congruence|now rewrite Ha1, Ha|now rewrite Hf1, Hf|exact Hd1|].
    exists s'. split; [|exact Hd'].
    cbn [flush]. unfold bind at 1. unfold _set_db_cache. unfold bind at 1.
    rewrite Hq. unfold ret at 1. exact Hfl.
Qed.

(** [close] never changes the durable tier: it sets the exit flag first, and
    [_execute_sql] returns at once under that flag. *)
Lemma close_inv (s s' : St) r :
  close s = (r, s') ->
  rows s' = rows s /\ win s' = win s /\
  (_busy_tasks s = [] -> r <> Hang) /\
  (r = Ok tt -> _queue s' = []) /\
  (_busy_tasks s = [] -> healthy s -> r = Ok tt).
Proof.
  unfold close. unfold bind at 1, modify at 1.
  unfold bind at 1, wait_for_tasks at 1.
  destruct (await_tasks (aborts (set_exit true s)) (set_exit true s)) as [ra sa] eqn:Ha.
  apply await_tasks_inv in Ha.
  destruct Ha as (Hfa & Hda & Hfl & Hcr & Hra & Hba). st.
  assert (Hrows_a : rows sa = rows s) by (unfold rows; now rewrite Hda).
  assert (Hexa : _exit sa = true) by (destruct Hfa; st; congruence).
  assert (Hwa : win sa = win s) by (destruct Hfa; st; congruence).
  destruct Hra as [-> | ->].
  - unfold bind at 1, gets at 1. unfold bind at 1.
    assert (Hlog : forall q : list Queued,
              (if match q with [] => false | _ => true end
               then kodi_log "CACHE: Write Items in Queue" else ret tt) sa
              = (Ok tt, sa)) by (intros []; reflexivity).
    rewrite Hlog. unfold bind at 1.
    destruct (flush (_queue sa) sa) as [rf sf] eqn:Hfl'.
    pose proof Hfl' as Hfl2. apply flush_exiting in Hfl'; [|exact Hexa].
    destruct Hfl' as (Hff & Hrf & Hhf).
    destruct rf as [[]|ex|]; [| |contradiction].
    + munfold. intros [= <- <-]. st.
      repeat split; try congruence.
      * change (rows sf = rows s). congruence.
      * destruct Hff; congruence.
    + intros [= <- <-].
      split; [congruence|]. split; [destruct Hff; congruence|].
      split; [discriminate|]. split; [discriminate|].
      intros Hb Hh. exfalso.
      destruct (Hba Hb) as (_ & ->).
      assert (Hhe : healthy (set_exit true s)) by exact Hh.
      pose proof (flush_healthy _ _ _ _ Hhe Hfl2). discriminate.
  - intros [= <- <-]. split; [exact Hrows_a|]. split; [exact Hwa|].
    split; [intros Hb; destruct (Hba Hb); discriminate|].
    split; [discriminate|]. intros Hb. destruct (Hba Hb); discriminate.
Qed.

End Shutdown.

(** C1.  With deferred writes on and mem-only off, [set(e, d)] queues the
    entry and leaves the durable tier without a row for [e]; but [close()]
    sets the exit flag before it flushes, every [_execute_sql] of the flush
    returns at once, and the durable tier still has no row for [e] after
    [close()] has emptied the queue: the queued write is lost. *)
Theorem deferred_write_lost `{Json} (self : Self) (e : string) (d : json)
    (cs : string) (ttl : Z) (s : St) :
  _mem_only self = false -> _delaywrite self = true ->
  _busy_tasks s = [] -> healthy s ->
  rows s !! e = None ->
  exists s1 s2,
    set self e d cs ttl s = (Ok tt, s1) /\
    _queue s1 = (_queue s ++ [(e, derive (Some cs) (global_checksum s),
                               clock s + ttl * TIME_DAYS, d)])%list /\
    rows s1 !! e = None /\
    close s1 = (Ok tt, s2) /\
    _queue s2 = [] /\
    rows s2 !! e = None.
Proof.
  intros Hm Hdw Hb Hh He.
  pose proof (set_run self e d cs ttl s) as Hset. cbv zeta in Hset.
  rewrite Hm, Hdw in Hset.
  eexists. destruct (close _) as [r s2] eqn:Hc at 1. exists s2.
  split; [exact Hset|].
  split; [reflexivity|].
  assert (Hr1 : rows (set_busy (list_remove (set_label e))
                  (set_queue (_queue s ++ [(e, derive (Some cs) (global_checksum s),
                                clock s + ttl * TIME_DAYS, d)])%list
                     (set_win (insert (mem_key self e) (json_dumps (entry_of d cs ttl s)))
                        (set_busy (fun l => (l ++ [set_label e])%list) s)))) = rows s)
    by reflexivity.
  split; [now rewrite Hr1|].
  apply close_inv in Hc. destruct Hc as (Hrows & _ & _ & Hq & Hok).
  assert (Hbusy : _busy_tasks (set_busy (list_remove (set_label e))
                  (set_queue (_queue s ++ [(e, derive (Some cs) (global_checksum s),
                                clock s + ttl * TIME_DAYS, d)])%list
                     (set_win (insert (mem_key self e) (json_dumps (entry_of d cs ttl s)))
                        (set_busy (fun l => (l ++ [set_label e])%list) s)))) = []).
  { st. rewrite Hb. simpl. now rewrite String.eqb_refl. }
  assert (r = Ok tt) by (apply Hok; [exact Hbusy | exact Hh]). subst r.
  split; [reflexivity|]. split; [now apply Hq|].
  now rewrite Hrows, Hr1.
Qed.

(** ** Concrete runs *)

Lemma deferred_write_lost_witness :
  exists s1 s2,
    set deferred_cache "e" (JInt 7) "" 30 (quiet Python3 ∅ NoFile None 1000) = (Ok tt, s1) /\
    _queue s1 = [("e", 0, 2593000, JInt 7)] /\
    rows s1 !! "e" = None /\
    close s1 = (Ok tt, s2) /\
    _queue s2 = [] /\
    rows s2 !! "e" = None.
Proof.
  apply (deferred_write_lost deferred_cache "e" (JInt 7) "" 30
           (quiet Python3 ∅ NoFile None 1000));
    try reflexivity; split; reflexivity.
Defined.

(** ** Retrying a locked store *)

(** One round of the loop under Python 2 when the store is locked. *)
Lemma sql_loop_locked_py2 (q : Stmt) (n : nat) (err : ErrorVar) (s : St) rest :
  python s = Python2 -> _exit s = false -> aborts s = [] ->
  faults s = locked :: rest ->
  sql_loop (S n) err q s = sql_loop n ErrorBound q (after_locked q s).
Proof.
  intros Hp Hex Ha Hf. cbn [sql_loop]. unfold execute. munfold.
  rewrite Ha. st. rewrite Hex. st. rewrite Hf. unfold locked. st.
  destruct (disk s); st; rewrite Hp; unfold after_locked; rewrite Hf; reflexivity.
Qed.

Lemma after_retries_frame (k : nat) (q : Stmt) :
  forall s, frame s (after_retries k q s) /\
            aborts (after_retries k q s) = aborts s /\
            disk (after_retries k q s) = disk s /\
            faults (after_retries k q s) = drop k (faults s).
Proof.
  induction k as [|k IH]; intros s; simpl.
  - repeat split; auto.
  - destruct (IH (after_locked q s)) as ([] & Ha & Hd & Hf).
    unfold after_locked in *. st.
    repeat split; try congruence.
    rewrite Hf. destruct (faults s); simpl; [now rewrite drop_nil|reflexivity].
Qed.

(** Under Python 2 a store that stays locked is tried [k] times, with a
    pause after each attempt. *)
Lemma sql_loop_retries_py2 (q : Stmt) (k : nat) :
  forall (n : nat) (err : ErrorVar) (s : St) rest,
  python s = Python2 -> _exit s = false -> aborts s = [] ->
  faults s = (repeat locked (S k) ++ rest)%list ->
  sql_loop (S k + n) err q s = sql_loop n ErrorBound q (after_retries (S k) q s).
Proof.
  induction k as [|k IH]; intros n err s rest Hp Hex Ha Hf.
  - simpl in Hf. cbn [Nat.add after_retries].
    now rewrite (sql_loop_locked_py2 q n err s rest).
  - change (S (S k) + n)%nat with (S (S k + n)).
    change (repeat locked (S (S k)) ++ rest)%list
      with (locked :: (repeat locked (S k) ++ rest))%list in Hf.
    rewrite (sql_loop_locked_py2 q _ err s _ Hp Hex Ha Hf).
    rewrite (IH n ErrorBound (after_locked q s) rest); try assumption.
    + reflexivity.
    + unfold after_locked. st. now rewrite Hf.
Qed.

(** X1.  Under Python 2 a store that stays locked is tried ten times, with
    a pause of half a second after each attempt; then the loop gives up and
    the call reports failure by returning [None]. *)
Lemma execute_sql_gives_up_py2 (q : Stmt) (s : St) t rest :
  python s = Python2 -> disk s = Table t -> _exit s = false -> aborts s = [] ->
  faults s = (repeat locked 10 ++ rest)%list ->
  _execute_sql q s = (Ok None, after_retries 10 q s) /\
  faults (after_retries 10 q s) = rest /\
  trace (after_retries 10 q s) =
    (trace s ++ concat (repeat [EvExecute q; EvWaitForAbort 500] 10))%list.
Proof.
  intros Hp Hd Hex Ha Hf. split; [|split].
  - unfold _execute_sql. unfold bind at 1.
    rewrite (get_database_table 2 s t Hd). unfold bind at 1.
    change 10%nat with (S 9 + 0)%nat at 1.
    rewrite (sql_loop_retries_py2 q 9 0 ErrorNone s rest Hp Hex Ha Hf).
    reflexivity.
  - destruct (after_retries_frame 10 q s) as (_ & _ & _ & ->).
    rewrite Hf. reflexivity.
  - cbn [after_retries]. unfold after_locked. st.
    rewrite <- !app_assoc. reflexivity.
Qed.

(** Under Python 2 a locked store that frees up after [k < 10] attempts is
    answered on attempt [k + 1]. *)
Lemma execute_sql_retry_succeeds_py2 (q : Stmt) (k : nat) (s : St) t rest :
  python s = Python2 -> disk s = Table t -> _exit s = false -> aborts s = [] ->
  faults s = (repeat locked (S k) ++ NoFault :: rest)%list ->
  (S k < 10)%nat ->
  exists s',
    _execute_sql q s = (Ok (Some (snd (run_stmt q t))), s') /\
    disk s' = Table (fst (run_stmt q t)) /\ faults s' = rest.
Proof.
  intros Hp Hd Hex Ha Hf Hk.
  destruct (after_retries_frame (S k) q s) as (Hfr & Hab & Hdk & Hfa).
  assert (Hans : answers (after_retries (S k) q s)).
  { repeat split.
    - destruct Hfr; congruence.
    - now rewrite Hab, Ha.
    - rewrite Hfa, Hf. rewrite drop_app_length'; [reflexivity|].
      now rewrite repeat_length. }
  assert (Hd' : disk (after_retries (S k) q s) = Table t) by congruence.
  destruct (sql_loop_ok q (8 - k) ErrorBound _ t Hd' Hans)
    as (s' & Hl & _ & Hds & _ & _ & Hfs).
  exists s'. split; [|split].
  - unfold _execute_sql. unfold bind at 1.
    rewrite (get_database_table 2 s t Hd). unfold bind at 1.
    replace 10%nat with (S k + S (8 - k))%nat by lia.
    rewrite (sql_loop_retries_py2 q k (S (8 - k)) ErrorNone s _ Hp Hex Ha Hf).
    now rewrite Hl.
  - exact Hds.
  - rewrite Hfs, Hfa, Hf. rewrite drop_app_length'; [reflexivity|].
    now rewrite repeat_length.
Qed.

(** A failure that is not retried ends the loop after one attempt. *)
Lemma sql_loop_break (q : Stmt) (n : nat) (err : ErrorVar) (s : St) t f rest :
  disk s = Table t -> _exit s = false -> hd false (aborts s) = false ->
  faults s = f :: rest -> f <> NoFault ->
  (forall msg, f = OperationalError msg -> locked_in (python s) msg <> Some true) ->
  exists s',
    sql_loop (S n) err q s =
      (Ok (Left (match f with
                 | OperationalError _ => after_handler (python s)
                 | _ => err
                 end)), s') /\
    trace s' = (trace s ++ [EvExecute q])%list /\ faults s' = rest /\
    disk s' = disk s.
Proof.
  intros Hd Hex Ha Hf Hn Hl.
  cbn [sql_loop]. unfold execute. munfold.
  destruct (aborts s) as [|a la]; simpl in Ha; subst; st; rewrite Hex; st;
    rewrite Hf; st; rewrite Hd.
  all: destruct f as [|msg|]; [contradiction| |]; st.
  all: try (eexists; split; [reflexivity|]; st; now repeat split).
  all: specialize (Hl msg eq_refl);
       destruct (locked_in (python s) msg) as [[]|]; [contradiction| |].
  all: eexists; split; [reflexivity|]; st; now repeat split.
Qed.

(** X2.  Under Python 2 a failure other than a lock ends the loop after one
    attempt, with no pause, and the call returns [None] without raising. *)
Lemma execute_sql_other_failure_py2 (q : Stmt) (s : St) t f rest :
  python s = Python2 -> disk s = Table t -> _exit s = false ->
  hd false (aborts s) = false ->
  faults s = f :: rest -> f <> NoFault -> f <> locked ->
  exists s',
    _execute_sql q s = (Ok None, s') /\
    trace s' = (trace s ++ [EvExecute q])%list /\ faults s' = rest /\
    disk s' = disk s.
Proof.
  intros Hp Hd Hex Ha Hf Hn Hl.
  destruct (sql_loop_break q 9 ErrorNone s t f rest Hd Hex Ha Hf Hn)
    as (s' & Hloop & Hrest).
  { intros msg ->. rewrite Hp. simpl. intros [= Hm].
    apply String.eqb_eq in Hm. now subst msg. }
  exists s'. split; [|exact Hrest].
  unfold _execute_sql. unfold bind at 1.
  rewrite (get_database_table 2 s t Hd). unfold bind at 1.
  rewrite Hloop. rewrite Hp. now destruct f.
Qed.

(** C3.  Under Python 3 the test ["database is locked" in error] raises
    TypeError, so a locked store is never retried: after one attempt, with no
    pause, the loop is left; and since [error] is unbound by then, formatting
    the log line raises UnboundLocalError out of [_execute_sql] instead of
    returning [None].  The same happens for every other OperationalError. *)
Theorem execute_sql_operational_error_py3 (q : Stmt) (s : St) t msg rest :
  python s = Python3 -> disk s = Table t -> _exit s = false ->
  hd false (aborts s) = false ->
  faults s = OperationalError msg :: rest ->
  exists s',
    _execute_sql q s = (Raise UnboundLocalError, s') /\
    trace s' = (trace s ++ [EvExecute q])%list /\
    faults s' = rest /\ disk s' = disk s.
Proof.
  intros Hp Hd Hex Ha Hf.
  destruct (sql_loop_break q 9 ErrorNone s t _ rest Hd Hex Ha Hf)
    as (s' & Hloop & Hrest).
  { discriminate. }
  { intros m _. now rewrite Hp. }
  exists s'. split; [|exact Hrest].
  unfold _execute_sql. unfold bind at 1.
  rewrite (get_database_table 2 s t Hd). unfold bind at 1.
  rewrite Hloop. now rewrite Hp.
Qed.

Lemma execute_sql_operational_error_py3_witness :
  exists s',
    _execute_sql (SelectEntry "e")
      (mkSt Python3 ∅ (Table ∅) 1000 [] [locked] [] [] None [] false [])
      = (Raise UnboundLocalError, s') /\
    trace s' = [EvExecute (SelectEntry "e")] /\
    faults s' = [] /\ disk s' = Table ∅.
Proof.
  apply (execute_sql_operational_error_py3 (SelectEntry "e")
           (mkSt Python3 ∅ (Table ∅) 1000 [] [locked] [] [] None [] false [])
           ∅ "database is locked" []); reflexivity.
Defined.

Lemma execute_sql_gives_up_py2_witness :
  let q := InsertOrReplace "e" 2000 "7" 0 in
  let s := mkSt Python2 ∅ (Table ∅) 1000 [] (repeat locked 10) [] [] None [] false [] in
  _execute_sql q s = (Ok None, after_retries 10 q s) /\
  faults (after_retries 10 q s) = [] /\
  trace (after_retries 10 q s) =
    (trace s ++ concat (repeat [EvExecute q; EvWaitForAbort 500] 10))%list.
Proof.
  exact (execute_sql_gives_up_py2 (InsertOrReplace "e" 2000 "7" 0)
           (mkSt Python2 ∅ (Table ∅) 1000 [] (repeat locked 10) [] [] None [] false [])
           ∅ [] eq_refl eq_refl eq_refl eq_refl eq_refl).
Defined.

Lemma execute_sql_other_failure_py2_witness :
  exists s',
    _execute_sql (SelectEntry "e")
      (mkSt Python2 ∅ (Table ∅) 1000 [] [OtherError] [] [] None [] false [])
      = (Ok None, s') /\
    trace s' = [EvExecute (SelectEntry "e")] /\ faults s' = [] /\
    disk s' = Table ∅.
Proof.
  apply (execute_sql_other_failure_py2 (SelectEntry "e")
           (mkSt Python2 ∅ (Table ∅) 1000 [] [OtherError] [] [] None [] false [])
           ∅ OtherError []); try reflexivity; discriminate.
Defined.

(** ** Scheduling the cleanup *)

(** What [check_cleanup] does on a cache that is not mem-only. *)
Lemma check_cleanup_run `{Json} (self : Self) (s : St) :
  _mem_only self = false ->
  check_cleanup self s =
    let lastexecuted := default "" (win s !! lastexecuted_key self) in
    if negb (truthy_str lastexecuted)
    then (Ok tt, set_win (insert (lastexecuted_key self) (py_str_of_int (clock s))) s)
    else match py_int_of_str lastexecuted with
         | None => (Raise ValueError, s)
         | Some last =>
             if last + (clock s + _auto_clean_interval) <? clock s
             then _do_cleanup self false s
             else (Ok tt, s)
         end.
Proof.
  intros Hm. unfold check_cleanup. rewrite Hm. munfold. rewrite Z.add_0_r.
  cbv zeta. destruct (negb (truthy_str _)); [reflexivity|].
  destruct (py_int_of_str _) as [last|]; [|reflexivity].
  now destruct (last + (clock s + _auto_clean_interval) <? clock s).
Qed.

(** X3.  With no "last executed" marker in the ephemeral tier,
    [check_cleanup] sets the marker to now and runs no cleanup. *)
Lemma check_cleanup_first `{Json} (self : Self) (s : St) :
  _mem_only self = false ->
  win s !! lastexecuted_key self = None ->
  check_cleanup self s =
    (Ok tt, set_win (insert (lastexecuted_key self) (py_str_of_int (clock s))) s).
Proof.
  intros Hm Hw. rewrite check_cleanup_run by exact Hm.
  rewrite Hw. cbv zeta. simpl default.
  change (truthy_str "") with false. reflexivity.
Qed.

Lemma check_cleanup_first_witness :
  check_cleanup direct_cache (quiet Python3 ∅ (Table ∅) None 1000) =
    (Ok tt, set_win (insert (lastexecuted_key direct_cache) "1000")
              (quiet Python3 ∅ (Table ∅) None 1000)).
Proof.
  exact (check_cleanup_first direct_cache (quiet Python3 ∅ (Table ∅) None 1000)
           eq_refl eq_refl).
Defined.

Lemma check_cleanup_mem_only `{Json} (self : Self) (s : St) :
  _mem_only self = true -> check_cleanup self s = (Ok tt, s).
Proof. intros Hm. unfold check_cleanup. now rewrite Hm. Qed.

(** C4.  With the marker present, [check_cleanup] compares
    [int(lastexecuted) + set_timestamp(interval)] with now, and
    [set_timestamp] adds the interval to now: the test is
    [lastexecuted + now + interval < now].  So for every marker that is not
    more than the interval below zero -- every timestamp a clock gives -- no
    cleanup runs, however long ago the last one was. *)
Theorem check_cleanup_never_due `{Json} (self : Self) (s : St) (txt : string) (last : Z) :
  _mem_only self = false ->
  win s !! lastexecuted_key self = Some txt ->
  truthy_str txt = true ->
  py_int_of_str txt = Some last ->
  0 <= last + _auto_clean_interval ->
  check_cleanup self s = (Ok tt, s).
Proof.
  intros Hm Hw Ht Hi Hle. rewrite check_cleanup_run by exact Hm.
  rewrite Hw. cbv zeta. simpl default. rewrite Ht, Hi. simpl negb. cbv iota.
  assert (Hlt : (last + (clock s + _auto_clean_interval) <? clock s) = false)
    by (apply Z.ltb_ge; lia).
  now rewrite Hlt.
Qed.

(** The marker says the last cleanup ran at 1000; now is 1000000000, far
    more than four hours later; and nothing happens. *)
Lemma check_cleanup_never_due_witness :
  check_cleanup direct_cache
    (quiet Python3 {[lastexecuted_key direct_cache := "1000"]} (Table ∅) None 1000000000)
  = (Ok tt,
     quiet Python3 {[lastexecuted_key direct_cache := "1000"]} (Table ∅) None 1000000000).
Proof.
  apply (check_cleanup_never_due direct_cache _ "1000" 1000); try reflexivity.
  vm_compute. discriminate.
Defined.

(** The cleanup runs only for a marker below minus the interval. *)
Lemma check_cleanup_due `{Json} (self : Self) (s : St) (txt : string) (last : Z) :
  _mem_only self = false ->
  win s !! lastexecuted_key self = Some txt ->
  truthy_str txt = true ->
  py_int_of_str txt = Some last ->
  last + _auto_clean_interval < 0 ->
  check_cleanup self s = _do_cleanup self false s.
Proof.
  intros Hm Hw Ht Hi Hlt. rewrite check_cleanup_run by exact Hm.
  rewrite Hw. cbv zeta. simpl default. rewrite Ht, Hi. simpl negb. cbv iota.
  assert (Hb : (last + (clock s + _auto_clean_interval) <? clock s) = true)
    by (apply Z.ltb_lt; lia).
  now rewrite Hb.
Qed.

(** ** Cleanup cut short *)

Lemma append_inj_l (p a b : string) : p +:+ a = p +:+ b -> a = b.
Proof. induction p as [|c p IH]; simpl; [auto|]. intros [= Hp]. auto. Qed.

Lemma marker_keys_differ (self : Self) : cleanbusy_key self <> lastexecuted_key self.
Proof.
  unfold cleanbusy_key, lastexecuted_key. intros Heq.
  apply append_inj_l in Heq. discriminate.
Qed.

(** C5.  When the abort signal fires at the first row of the enumeration,
    [_do_cleanup] returns from inside the [with] block: the busy-task label
    is released, but the wash-up after the block is skipped.  The "cleanup
    busy" marker stays set, the "last executed" marker is not recorded, and
    no row is deleted. *)
Theorem cleanup_abort_skips_washup `{Json} (self : Self) (force : bool) (s : St)
    t id row rest polls :
  _exit s = false ->
  _busy_tasks s = [] ->
  aborts s = false :: false :: true :: polls ->
  hd NoFault (faults s) = NoFault ->
  default "" (win s !! cleanbusy_key self) = "" ->
  disk s = Table t ->
  map_to_list t = (id, row) :: rest ->
  exists s',
    _do_cleanup self force s = (Ok tt, s') /\
    win s' !! cleanbusy_key self = Some "busy" /\
    win s' !! lastexecuted_key self = win s !! lastexecuted_key self /\
    rows s' = rows s /\
    _busy_tasks s' = [].
Proof.
  intros Hex Hb Ha Hf Hbusy Hd Hl.
  unfold _do_cleanup, busy_tasks, exit_or_abort. munfold. st.
  rewrite Hex, Ha. st. rewrite Hbusy. change (truthy_str "") with false. cbv iota beta.
  match goal with
  | |- context [_execute_sql SelectIdExpires ?x] =>
      assert (Hd1 : disk x = Table t) by exact Hd;
      assert (Hans : answers x) by (split; [exact Hex|split; [reflexivity|exact Hf]]);
      destruct (execute_sql_ok SelectIdExpires x t Hd1 Hans)
        as (s2 & Hq & Hfr & Hd2 & _ & Ha2 & _);
      rewrite Hq
  end.
  simpl run_stmt in *. simpl snd. simpl fst in Hd2. unfold fetchall. rewrite Hl.
  cbn [cleanup_rows]. unfold exit_or_abort. munfold.
  assert (Hex2 : _exit s2 = false) by (destruct Hfr; st; congruence).
  rewrite Hex2. st. rewrite Ha2. st.
  eexists. split; [reflexivity|]. st.
  destruct Hfr as [_ Hw _ _ Hbt _ _]. st.
  rewrite Hw.
  split; [apply lookup_insert_eq|].
  split; [apply lookup_insert_ne, marker_keys_differ|].
  split.
  - unfold rows. st. now rewrite Hd2, Hd.
  - rewrite Hbt. rewrite Hb. reflexivity.
Qed.

(** Two rows in the table, one of them expired; the abort comes at the
    first row. *)
Lemma cleanup_abort_skips_washup_witness :
  exists s',
    _do_cleanup direct_cache false
      (mkSt Python3 ∅ (Table {["a" := mkRow 10 "1" 0]}) 1000
            [false; false; true] [] [] [] None [] false [])
      = (Ok tt, s') /\
    win s' !! cleanbusy_key direct_cache = Some "busy" /\
    win s' !! lastexecuted_key direct_cache = None /\
    rows s' = {["a" := mkRow 10 "1" 0]} /\
    _busy_tasks s' = [].
Proof.
  exact (cleanup_abort_skips_washup direct_cache false
           (mkSt Python3 ∅ (Table {["a" := mkRow 10 "1" 0]}) 1000
                 [false; false; true] [] [] [] None [] false [])
           {["a" := mkRow 10 "1" 0]} "a" (mkRow 10 "1" 0) [] []
           eq_refl eq_refl eq_refl eq_refl eq_refl eq_refl eq_refl).
Defined.

(** Without the abort the same cleanup deletes the expired row, records
    the marker and clears the busy marker. *)
Example cleanup_completes :
  let s' := snd (_do_cleanup direct_cache false
                   (mkSt Python3 ∅ (Table {["a" := mkRow 10 "1" 0]}) 1000
                         [] [] [] [] None [] false [])) in
  win s' !! cleanbusy_key direct_cache = None /\
  win s' !! lastexecuted_key direct_cache = Some "1000" /\
  rows s' = ∅.
Proof. vm_compute. repeat split. Qed.

(** ** Durable hits *)

(** The durable read when the statement is let through: the row is served
    iff it has not expired and the checksum asked for is 0 or the stored one;
    a row served is copied to the ephemeral tier under the checksum asked
    for. *)
Lemma get_db_cache_run `{Json} (self : Self) (e : string) (cs now : Z) (s : St)
    t row v :
  answers s -> disk s = Table t -> t !! e = Some row ->
  json_loads (r_data row) = Some v ->
  exists s',
    _get_db_cache self e cs now s =
      (Ok (if r_expires row <=? now then JNull
           else if (cs =? 0) || (cs =? r_checksum row) then v else JNull), s') /\
    rows s' = rows s /\ clock s' = clock s /\
    win s' =
      if (r_expires row <=? now) || negb ((cs =? 0) || (cs =? r_checksum row))
      then win s
      else <[mem_key self e :=
               json_dumps (JList [JInt (r_expires row); v; JInt cs])]> (win s).
Proof.
  intros Hans Hd Ht Hl.
  destruct (execute_sql_ok (SelectEntry e) s t Hd Hans)
    as (s1 & Hq & Hfr & Hd1 & _).
  unfold _get_db_cache. unfold bind at 1. rewrite Hq.
  unfold run_stmt, fetchone in *. cbn [fst snd] in *. rewrite Ht. cbn [head].
  cbv iota beta.
  assert (Hrows : rows s1 = rows s) by (unfold rows; now rewrite Hd1, Hd).
  destruct (r_expires row <=? now); simpl.
  - munfold. eexists. split; [reflexivity|]. destruct Hfr. repeat split; auto.
  - destruct ((cs =? 0) || (cs =? r_checksum row)); simpl.
    + unfold loads. rewrite Hl. unfold _set_mem_cache. munfold.
      eexists. split; [reflexivity|]. st. destruct Hfr.
      repeat split; auto. now f_equal.
    + munfold. eexists. split; [reflexivity|]. destruct Hfr. repeat split; auto.
Qed.

(** C6, as amended.  On a durable-tier hit in [get] -- ephemeral miss, engine
    not mem-only, a row for the endpoint with [expires > now] whose checksum
    equals the derived checksum or the derived checksum is 0 -- the found value
    is returned and the ephemeral tier is repopulated with the found value,
    the found expiry and the DERIVED checksum (the one asked for), which is
    the found checksum whenever it is not 0. *)
Theorem get_durable_hit_repopulates `{Json} (self : Self) (e cs : string) (s : St)
    t row v :
  fst (_get_mem_cache self e (derive (Some cs) (global_checksum s)) (clock s) s)
    = Ok JNull ->
  _mem_only self = false ->
  answers s -> disk s = Table t -> t !! e = Some row ->
  clock s < r_expires row ->
  derive (Some cs) (global_checksum s) = 0 \/
    derive (Some cs) (global_checksum s) = r_checksum row ->
  json_loads (r_data row) = Some v ->
  exists s',
    get self e cs s = (Ok v, s') /\
    win s' = <[mem_key self e :=
                 json_dumps (JList [JInt (r_expires row); v;
                                    JInt (derive (Some cs) (global_checksum s))])]>
               (win s) /\
    (derive (Some cs) (global_checksum s) <> 0 ->
     win s' = <[mem_key self e :=
                  json_dumps (JList [JInt (r_expires row); v;
                                     JInt (r_checksum row)])]> (win s)) /\
    rows s' = rows s.
Proof.
  intros Hmiss Hm Hans Hd Ht Hexp Hcs Hl.
  rewrite (get_mem_miss self e cs s Hmiss), Hm.
  destruct (get_db_cache_run self e (derive (Some cs) (global_checksum s))
              (clock s) s t row v Hans Hd Ht Hl) as (s' & Hrun & Hrows & _ & Hw).
  assert (Hle : (r_expires row <=? clock s) = false) by (apply Z.leb_gt; lia).
  assert (Hok : (derive (Some cs) (global_checksum s) =? 0)
                || (derive (Some cs) (global_checksum s) =? r_checksum row) = true).
  { apply orb_true_iff. destruct Hcs as [Hz|Hz]; [left|right]; now apply Z.eqb_eq. }
  rewrite Hle, Hok in Hrun. rewrite Hle, Hok in Hw. simpl in Hw.
  exists s'. split; [exact Hrun|]. split; [exact Hw|]. split; [|exact Hrows].
  intros Hnz. destruct Hcs as [Hz|Hz]; [contradiction|]. now rewrite Hw, Hz.
Qed.

Lemma get_durable_hit_repopulates_witness :
  exists s',
    get direct_cache "e" "v1"
      (quiet Python3 ∅ (Table {["e" := mkRow 2000 "7" 167]}) None 1000) = (Ok (JInt 7), s') /\
    win s' = <[mem_key direct_cache "e" := "[2000, 7, 167]"]> ∅ /\
    (167 <> 0 -> win s' = <[mem_key direct_cache "e" := "[2000, 7, 167]"]> ∅) /\
    rows s' = {["e" := mkRow 2000 "7" 167]}.
Proof.
  exact (get_durable_hit_repopulates direct_cache "e" "v1"
           (quiet Python3 ∅ (Table {["e" := mkRow 2000 "7" 167]}) None 1000)
           {["e" := mkRow 2000 "7" 167]} (mkRow 2000 "7" 167) (JInt 7)
           eq_refl eq_refl (conj eq_refl (conj eq_refl eq_refl)) eq_refl eq_refl
           eq_refl (or_intror eq_refl) eq_refl).
Defined.

(** C6 as stated fails when the caller gives no checksum: the row found
    carries checksum 167, the entry written to the ephemeral tier carries 0. *)
Lemma get_durable_hit_counterexample :
  let s := quiet Python3 ∅ (Table {["e" := mkRow 2000 "7" 167]}) None 1000 in
  fst (get direct_cache "e" "" s) = Ok (JInt 7) /\
  win (snd (get direct_cache "e" "" s)) !! mem_key direct_cache "e"
    = Some "[2000, 7, 0]" /\
  json_dumps (JList [JInt 2000; JInt 7; JInt 167]) = "[2000, 7, 167]" /\
  "[2000, 7, 0]" <> "[2000, 7, 167]".
Proof.
  cbv zeta. split; [vm_compute; reflexivity|]. split; [vm_compute; reflexivity|].
  split; [reflexivity|discriminate].
Qed.

(** ** Expiry *)

Lemma set_healthy `{Json} (self : Self) (e : string) (d : json) (cs : string)
    (ttl : Z) (s : St) :
  healthy s ->
  exists s1,
    set self e d cs ttl s = (Ok tt, s1) /\ healthy s1 /\
    (rows s1 = rows s \/
     rows s1 = <[e := mkRow (clock s + ttl * TIME_DAYS) (json_dumps d)
                        (derive (Some cs) (global_checksum s))]> (rows s)).
Proof.
  intros Hh. rewrite set_run. cbv zeta.
  destruct (_mem_only self); [eexists; split; [reflexivity|]; split; [exact Hh|now left]|].
  destruct (_delaywrite self); [eexists; split; [reflexivity|]; split; [exact Hh|now left]|].
  destruct (_set_db_cache _ _ _ _ _) as [r2 s2] eqn:Hdb.
  pose proof Hdb as Hinv. apply set_db_cache_inv in Hinv.
  destruct Hinv as (_ & _ & Hrows).
  unfold _set_db_cache in Hdb. unfold bind at 1 in Hdb.
  destruct (_execute_sql _ _) as [rq sq] eqn:Hq in Hdb.
  apply execute_sql_healthy in Hq; [|exact Hh].
  destruct Hq as (Hh2 & c & ->). unfold ret in Hdb. injection Hdb as <- <-.
  eexists. split; [reflexivity|]. split; [exact Hh2|].
  destruct Hrows as [Hr|[_ Hr]]; [left|right]; exact Hr.
Qed.

(** [get] misses when what the two tiers hold for the endpoint has expired. *)
Lemma get_expired `{Json} (self : Self) (e cs : string) (s : St) :
  healthy s ->
  (forall txt, win s !! mem_key self e = Some txt -> truthy_str txt = true ->
     exists cd c0 exp,
       json_loads txt = Some cd /\ py_index cd 0 = Ok c0 /\ py_int c0 = Ok exp /\
       exp <= clock s) ->
  (forall row, rows s !! e = Some row -> r_expires row <= clock s) ->
  exists s', get self e cs s = (Ok JNull, s').
Proof.
  intros Hh Hmem Hrow.
  assert (Hm : _get_mem_cache self e (derive (Some cs) (global_checksum s)) (clock s) s
               = (Ok JNull, s)).
  { destruct (win s !! mem_key self e) as [txt|] eqn:Hw.
    - destruct (truthy_str txt) eqn:Ht.
      + destruct (Hmem txt eq_refl Ht) as (cd & c0 & exp & Hl & H0 & Hi & Hle).
        now apply (get_mem_cache_expired self e txt _ _ exp cd c0).
      + apply get_mem_cache_absent. rewrite Hw. simpl.
        unfold truthy_str in Ht. apply negb_false_iff in Ht.
        now apply String.eqb_eq in Ht.
    - apply get_mem_cache_absent. now rewrite Hw. }
  rewrite get_mem_miss by (now rewrite Hm).
  destruct (_mem_only self); [eauto|].
  destruct (_get_db_cache self e _ (clock s) s) as [r s'] eqn:Hdb.
  apply get_db_cache_miss in Hdb; [|exact Hh|].
  - destruct Hdb as (-> & _). eauto.
  - intros row Hr. left. now apply Hrow.
Qed.

(** C8.  Expiry is exclusive in both tiers.  (A) The ephemeral tier serves
    an entry [[expires, data, checksum]] only when [expires > now], and then
    iff the checksum is accepted.  (B) The durable tier does the same with a
    row.  (C) Whatever the store does, [get] returns a value only from an
    entry or a row with [expires > now].  (D) When what the two tiers hold
    for the endpoint has [expires <= now], [get] returns [None].  (E) In
    particular, after [set] with [ttl_days = 0] the entry has
    [expires = now], and every [get] evaluated at or after that time
    misses. *)
Theorem expiry_is_exclusive `{Json} (self : Self) (e : string) :
  (forall (s : St) (cs now : Z) txt exp d c,
     win s !! mem_key self e = Some txt -> truthy_str txt = true ->
     json_loads txt = Some (JList [JInt exp; d; c]) ->
     _get_mem_cache self e cs now s =
       (Ok (if exp <=? now then JNull
            else if (cs =? 0) || py_eq_int cs c then d else JNull), s)) /\
  (forall (s : St) (cs now : Z) t row v,
     answers s -> disk s = Table t -> t !! e = Some row ->
     json_loads (r_data row) = Some v ->
     fst (_get_db_cache self e cs now s) =
       Ok (if r_expires row <=? now then JNull
           else if (cs =? 0) || (cs =? r_checksum row) then v else JNull)) /\
  (forall (s s' : St) (cs : string) (v : json),
     get self e cs s = (Ok v, s') -> is_None v = false ->
     (exists txt cd c0 exp,
        win s !! mem_key self e = Some txt /\ json_loads txt = Some cd /\
        py_index cd 0 = Ok c0 /\ py_int c0 = Ok exp /\ clock s < exp) \/
     (exists row, rows s !! e = Some row /\ clock s < r_expires row)) /\
  (forall (s : St) (cs : string),
     healthy s ->
     (forall txt, win s !! mem_key self e = Some txt -> truthy_str txt = true ->
        exists cd c0 exp,
          json_loads txt = Some cd /\ py_index cd 0 = Ok c0 /\
          py_int c0 = Ok exp /\ exp <= clock s) ->
     (forall row, rows s !! e = Some row -> r_expires row <= clock s) ->
     exists s', get self e cs s = (Ok JNull, s')) /\
  (forall (s : St) (d : json) (cs cs' : string) (now : Z),
     healthy s ->
     (forall row, rows s !! e = Some row -> r_expires row <= now) ->
     serialisable (entry_of d cs 0 s) ->
     clock s <= now ->
     exists s1 s2,
       set self e d cs 0 s = (Ok tt, s1) /\
       get self e cs' (set_clock now s1) = (Ok JNull, s2)).
Proof.
  split; [|split; [|split; [|split]]].
  - intros s cs now txt exp d c. apply get_mem_cache_entry.
  - intros s cs now t row v Hans Hd Ht Hl.
    destruct (get_db_cache_run self e cs now s t row v Hans Hd Ht Hl)
      as (s' & -> & _). reflexivity.
  - intros s s' cs v. apply get_hit_unexpired.
  - intros s cs. apply get_expired.
  - intros s d cs cs' now Hh Hold (Htxt & Hl) Hnow.
    destruct (set_healthy self e d cs 0 s Hh) as (s1 & Hset & Hh1 & Hrows).
    pose proof Hset as Hinv. apply set_inv in Hinv. destruct Hinv as (Hw & _).
    destruct (get_expired self e cs' (set_clock now s1)) as (s2 & Hget).
    + exact Hh1.
    + st. rewrite Hw, lookup_insert_eq. intros txt [= <-] _.
      unfold entry_of in *. rewrite Hl.
      eexists; eexists; eexists. repeat split. lia.
    + st. change (rows (set_clock now s1)) with (rows s1).
      intros row Hr. destruct Hrows as [Hrs|Hrs]; rewrite Hrs in Hr.
      * now apply Hold.
      * destruct (decide (e = e)) as [_|]; [|contradiction].
        rewrite lookup_insert_eq in Hr. injection Hr as <-. simpl. lia.
    + exists s1, s2. now split.
Qed.

Lemma expiry_is_exclusive_witness :
  exists s1 s2,
    set direct_cache "e" (JInt 7) "v1" 0 (quiet Python3 ∅ NoFile None 1000) = (Ok tt, s1) /\
    get direct_cache "e" "v1" (set_clock 1000 s1) = (Ok JNull, s2).
Proof.
  apply (proj2 (proj2 (proj2 (proj2 (expiry_is_exclusive direct_cache "e"))))
           (quiet Python3 ∅ NoFile None 1000) (JInt 7) "v1" "v1" 1000).
  - split; reflexivity.
  - intros row Hr. discriminate Hr.
  - split; reflexivity.
  - reflexivity.
Defined.

(** ** Checksum gating *)

Section Gating.
Context `{Json}.
Variable self : Self.

(** After [set] on a healthy store with no earlier row for the endpoint, a
    [get] whose derived checksum is 0 or the one stored returns the data. *)
Lemma get_after_set (e : string) (d : json) (cs cs' : string) (ttl now : Z)
    (s s1 : St) :
  healthy s -> rows s !! e = None ->
  serialisable (entry_of d cs ttl s) ->
  json_loads (json_dumps d) = Some d ->
  now < clock s + ttl * TIME_DAYS ->
  set self e d cs ttl s = (Ok tt, s1) ->
  derive (Some cs') (global_checksum s) = 0 \/
    derive (Some cs') (global_checksum s) = derive (Some cs) (global_checksum s) ->
  fst (get self e cs' (set_clock now s1)) = Ok d.
Proof.
  intros Hh Hfresh (Htxt & Hl) Hd Hnow Hset Hcs.
  destruct (set_healthy self e d cs ttl s Hh) as (s1' & Hset' & Hh1 & Hrows).
  assert (s1' = s1) by congruence. subst s1'. clear Hset'.
  apply set_inv in Hset. destruct Hset as (Hw & _ & Hg & _).
  rewrite get_run. st. rewrite Hg.
  set (c' := derive (Some cs') (global_checksum s)) in *.
  set (c := derive (Some cs) (global_checksum s)) in *.
  assert (Hm : _get_mem_cache self e c' now (set_clock now s1) = (Ok d, set_clock now s1)).
  { erewrite get_mem_cache_entry; [| |exact Htxt|exact Hl].
    - apply Z.leb_gt in Hnow. rewrite Hnow. fold c.
      replace ((c' =? 0) || py_eq_int c' (JInt c)) with true; [reflexivity|].
      symmetry. apply orb_true_iff. simpl.
      destruct Hcs as [Hz|Hz]; [left|right]; now apply Z.eqb_eq.
    - st. rewrite Hw. apply lookup_insert_eq. }
  rewrite Hm. simpl fst.
  destruct (is_None d) eqn:Hnone; simpl; [|reflexivity].
  destruct (_mem_only self); [reflexivity|].
  destruct (_get_db_cache self e c' now (set_clock now s1)) as [r s2] eqn:Hdb.
  assert (Hserved : forall row, rows (set_clock now s1) !! e = Some row ->
            json_loads (r_data row) = Some d).
  { change (rows (set_clock now s1)) with (rows s1). intros row Hr.
    destruct Hrows as [Hrs|Hrs]; rewrite Hrs in Hr; [congruence|].
    rewrite lookup_insert_eq in Hr. injection Hr as <-. exact Hd. }
  pose proof Hdb as Hdb2.
  apply get_db_cache_healthy in Hdb; [|exact Hh1|eauto].
  destruct Hdb as (_ & v & ->).
  apply get_db_cache_inv in Hdb2. destruct Hdb2 as (_ & _ & _ & Hv).
  destruct d; try discriminate. simpl.
  destruct Hv as [(-> & _) | (row & Hr & _ & _ & Hlv & _)]; [reflexivity|].
  apply Hserved in Hr. congruence.
Qed.

End Gating.

Lemma derive_unset (cs : string) (g : option string) :
  truthy_opt g = false ->
  derive (Some cs) g = codepoint_sum cs.
Proof.
  intros Hg. unfold derive. rewrite Hg. simpl.
  destruct cs; reflexivity.
Qed.

Lemma derive_empty_override (g : string) :
  truthy_str g = true ->
  derive (Some "") (Some g) = codepoint_sum (g +:+ "-") /\
  0 < codepoint_sum (g +:+ "-").
Proof.
  intros Hg. unfold derive. simpl. rewrite Hg. simpl. split.
  - reflexivity.
  - rewrite codepoint_sum_app. pose proof (codepoint_sum_nonneg g).
    change (codepoint_sum "-") with 45. lia.
Qed.

(** With the override "G" set, an entry stored under checksum 0 and an
    empty checksum asked for: the derived checksum is 116 and the entry is
    refused; without the override it is served. *)
Example override_gates_empty_checksum_run :
  let w : gmap string string := {[mem_key mem_cache "e" := "[2000, 7, 0]"]} in
  fst (get mem_cache "e" "" (quiet Python3 w NoFile (Some "G") 1000)) = Ok JNull /\
  fst (get mem_cache "e" "" (quiet Python3 w NoFile None 1000)) = Ok (JInt 7).
Proof. cbv zeta. split; vm_compute; reflexivity. Qed.

(** ** Further properties of the engine *)

(** X4.  A mem-only engine answers [get] from the ephemeral tier alone: the
    result is what [_get_mem_cache] gives and no state changes, so the
    durable tier is never queried. *)
Theorem get_mem_only `{Json} (self : Self) (e cs : string) (s : St) :
  _mem_only self = true ->
  get self e cs s =
    (fst (_get_mem_cache self e (derive (Some cs) (global_checksum s)) (clock s) s), s).
Proof.
  intros Hm. rewrite get_run, Hm.
  destruct (fst (_get_mem_cache self e _ (clock s) s)) as [v| |]; try reflexivity.
  now rewrite orb_true_r.
Qed.

Lemma get_mem_only_witness :
  get mem_cache "e" "" (quiet Python3 ∅ (Table {["e" := mkRow 2000 "7" 0]}) None 1000) =
    (fst (_get_mem_cache mem_cache "e" 0 1000
            (quiet Python3 ∅ (Table {["e" := mkRow 2000 "7" 0]}) None 1000)),
     quiet Python3 ∅ (Table {["e" := mkRow 2000 "7" 0]}) None 1000).
Proof.
  exact (get_mem_only mem_cache "e" ""
           (quiet Python3 ∅ (Table {["e" := mkRow 2000 "7" 0]}) None 1000) eq_refl).
Defined.

(** X5.  On an engine that is neither mem-only nor deferred, when the
    statement is let through, [set] writes the entry to the ephemeral tier
    and the row [(expires, json text of data, derived checksum)] to the
    durable tier, and queues nothing. *)
Theorem set_writes_through `{Json} (self : Self) (e : string) (d : json)
    (cs : string) (ttl : Z) (s : St) t :
  _mem_only self = false -> _delaywrite self = false ->
  answers s -> disk s = Table t ->
  exists s1,
    set self e d cs ttl s = (Ok tt, s1) /\
    win s1 = <[mem_key self e := json_dumps (entry_of d cs ttl s)]> (win s) /\
    disk s1 = Table (<[e := mkRow (clock s + ttl * TIME_DAYS) (json_dumps d)
                             (derive (Some cs) (global_checksum s))]> t) /\
    _queue s1 = _queue s.
Proof.
  intros Hm Hdw Hans Hd. rewrite set_run. cbv zeta. rewrite Hm, Hdw.
  unfold _set_db_cache. unfold bind at 1.
  match goal with
  | |- context [_execute_sql ?q ?x] =>
      assert (Hd1 : disk x = Table t) by exact Hd;
      assert (Hans1 : answers x) by exact Hans;
      destruct (execute_sql_ok q x t Hd1 Hans1) as (s2 & Hq & Hfr & Hd2 & _);
      rewrite Hq
  end.
  unfold ret. eexists. split; [reflexivity|]. st.
  destruct Hfr as [_ Hw _ _ _ _ Hqu]. st.
  split; [exact Hw|]. split; [exact Hd2|exact Hqu].
Qed.

Lemma set_writes_through_witness :
  exists s1,
    set direct_cache "e" (JInt 7) "v1" 30 (quiet Python3 ∅ (Table ∅) None 1000)
      = (Ok tt, s1) /\
    win s1 = <[mem_key direct_cache "e" := "[2593000, 7, 167]"]> ∅ /\
    disk s1 = Table (<["e" := mkRow 2593000 "7" 167]> ∅) /\
    _queue s1 = [].
Proof.
  exact (set_writes_through direct_cache "e" (JInt 7) "v1" 30
           (quiet Python3 ∅ (Table ∅) None 1000) ∅ eq_refl eq_refl
           (conj eq_refl (conj eq_refl eq_refl)) eq_refl).
Defined.

(** X6.  [_do_cleanup] does nothing when the cache is exiting or an abort is
    signalled at entry: no marker is touched and no statement is sent. *)
Theorem cleanup_skipped_on_exit_or_abort `{Json} (self : Self) (force : bool) (s : St) :
  _exit s = true \/ hd false (aborts s) = true ->
  exists s',
    _do_cleanup self force s = (Ok tt, s') /\
    win s' = win s /\ disk s' = disk s /\ trace s' = trace s /\
    _busy_tasks s' = _busy_tasks s.
Proof.
  intros Hstop. unfold _do_cleanup, exit_or_abort. munfold.
  destruct (_exit s) eqn:Hex; [eexists; split; [reflexivity|]; auto|].
  destruct Hstop as [|Ha]; [discriminate|].
  destruct (aborts s) as [|[] l]; simpl in Ha; try discriminate.
  eexists. split; [reflexivity|]. auto.
Qed.

Lemma cleanup_skipped_on_exit_or_abort_witness :
  exists s',
    _do_cleanup direct_cache true
      (mkSt Python3 ∅ (Table {["a" := mkRow 10 "1" 0]}) 1000 [true] [] [] [] None [] false [])
      = (Ok tt, s') /\
    win s' = ∅ /\ disk s' = Table {["a" := mkRow 10 "1" 0]} /\ trace s' = [] /\
    _busy_tasks s' = [].
Proof.
  exact (cleanup_skipped_on_exit_or_abort direct_cache true
           (mkSt Python3 ∅ (Table {["a" := mkRow 10 "1" 0]}) 1000 [true] [] [] []
                 None [] false [])
           (or_intror eq_refl)).
Defined.

(** X7.  [_do_cleanup] skips the pass when the "cleanup busy" marker is
    already set: the marker stays, no statement is sent, and the busy-task
    label taken for the call is released. *)
Theorem cleanup_skipped_when_busy `{Json} (self : Self) (force : bool) (s : St) :
  _exit s = false -> hd false (aborts s) = false ->
  _busy_tasks s = [] ->
  truthy_str (default "" (win s !! cleanbusy_key self)) = true ->
  exists s',
    _do_cleanup self force s = (Ok tt, s') /\
    win s' = win s /\ disk s' = disk s /\ trace s' = trace s /\
    _busy_tasks s' = [].
Proof.
  intros Hex Ha Hb Hbusy. unfold _do_cleanup, busy_tasks, exit_or_abort. munfold.
  rewrite Hex.
  destruct (aborts s) as [|a l]; simpl in Ha; subst; st; rewrite Hbusy;
    cbv iota beta; eexists; (split; [reflexivity|]); st; rewrite Hb;
    repeat split; reflexivity.
Qed.

Lemma cleanup_skipped_when_busy_witness :
  exists s',
    _do_cleanup direct_cache false
      (quiet Python3 {[cleanbusy_key direct_cache := "busy"]}
             (Table {["a" := mkRow 10 "1" 0]}) None 1000)
      = (Ok tt, s') /\
    win s' = {[cleanbusy_key direct_cache := "busy"]} /\
    disk s' = Table {["a" := mkRow 10 "1" 0]} /\ trace s' = [] /\
    _busy_tasks s' = [].
Proof.
  exact (cleanup_skipped_when_busy direct_cache false
           (quiet Python3 {[cleanbusy_key direct_cache := "busy"]}
                  (Table {["a" := mkRow 10 "1" 0]}) None 1000)
           eq_refl eq_refl eq_refl eq_refl).
Defined.

(** * The statement executor and the database file *)

Lemma after_retries_trace (k : nat) (q : Stmt) :
  forall s,
  trace (after_retries k q s) =
    (trace s ++ concat (repeat [EvExecute q; EvWaitForAbort 500] k))%list.
Proof.
  induction k as [|k IH]; intros s; simpl.
  - now rewrite app_nil_r.
  - rewrite IH. unfold after_locked. st. now rewrite <- !app_assoc.
Qed.

(** X8.  Under Python 2 a store that is locked for [k + 1 < 10] attempts and
    then free is answered on the next attempt: the call makes [k + 2]
    attempts in all, pauses half a second after each locked one, runs the
    statement once and returns its cursor. *)
Theorem execute_sql_answered_after_retries_py2 (q : Stmt) (k : nat) (s : St) t rest :
  python s = Python2 -> disk s = Table t -> _exit s = false -> aborts s = [] ->
  faults s = (repeat locked (S k) ++ NoFault :: rest)%list ->
  (S k < 10)%nat ->
  exists s',
    _execute_sql q s = (Ok (Some (snd (run_stmt q t))), s') /\
    disk s' = Table (fst (run_stmt q t)) /\ faults s' = rest /\
    trace s' =
      (trace s ++ concat (repeat [EvExecute q; EvWaitForAbort 500] (S k))
               ++ [EvExecute q])%list.
Proof.
  intros Hp Hd Hex Ha Hf Hk.
  destruct (after_retries_frame (S k) q s) as (Hfr & Hab & Hdk & Hfa).
  assert (Hans : answers (after_retries (S k) q s)).
  { split; [destruct Hfr; congruence|]. split.
    - now rewrite Hab, Ha.
    - rewrite Hfa, Hf. rewrite drop_app_length'; [reflexivity|].
      now rewrite repeat_length. }
  assert (Hd' : disk (after_retries (S k) q s) = Table t) by congruence.
  destruct (sql_loop_ok q (8 - k) ErrorBound _ t Hd' Hans)
    as (s' & Hl & _ & Hds & Htr & _ & Hfs).
  exists s'. split; [|split; [exact Hds|split]].
  - unfold _execute_sql. unfold bind at 1.
    rewrite (get_database_table 2 s t Hd). unfold bind at 1.
    replace 10%nat with (S k + S (8 - k))%nat by lia.
    rewrite (sql_loop_retries_py2 q k (S (8 - k)) ErrorNone s _ Hp Hex Ha Hf).
    now rewrite Hl.
  - rewrite Hfs, Hfa, Hf. rewrite drop_app_length'; [reflexivity|].
    now rewrite repeat_length.
  - rewrite Htr, after_retries_trace. now rewrite <- app_assoc.
Qed.

Lemma execute_sql_answered_after_retries_py2_witness :
  exists s',
    _execute_sql (InsertOrReplace "e" 2000 "7" 0)
      (mkSt Python2 ∅ (Table ∅) 1000 [] [locked; locked; NoFault] [] [] None [] false [])
      = (Ok (Some []), s') /\
    disk s' = Table {["e" := mkRow 2000 "7" 0]} /\ faults s' = [] /\
    trace s' =
      [EvExecute (InsertOrReplace "e" 2000 "7" 0); EvWaitForAbort 500;
       EvExecute (InsertOrReplace "e" 2000 "7" 0); EvWaitForAbort 500;
       EvExecute (InsertOrReplace "e" 2000 "7" 0)].
Proof.
  exact (execute_sql_answered_after_retries_py2 (InsertOrReplace "e" 2000 "7" 0) 1
           (mkSt Python2 ∅ (Table ∅) 1000 [] [locked; locked; NoFault] [] [] None []
                 false [])
           ∅ [] eq_refl eq_refl eq_refl eq_refl eq_refl
           (proj1 (Nat.leb_le 3 10) eq_refl)).
Defined.

(** X9.  When the cache is exiting, or an abort is pending at the first
    poll, [_execute_sql] on a readable database sends no statement: it
    returns [None] and the table and the ephemeral tier are as before. *)
Theorem execute_sql_stops_on_exit_or_abort (q : Stmt) (s : St) t :
  disk s = Table t ->
  _exit s = true \/ hd false (aborts s) = true ->
  exists s',
    _execute_sql q s = (Ok None, s') /\
    disk s' = disk s /\ win s' = win s /\ trace s' = trace s /\
    faults s' = faults s.
Proof.
  intros Hd Hstop. unfold _execute_sql. unfold bind at 1.
  rewrite (get_database_table 2 s t Hd). unfold bind at 1.
  change 10%nat with (S 9). generalize 9%nat. intros n.
  cbn [sql_loop]. munfold.
  destruct (aborts s) as [|[] l] eqn:Ha; st.
  - destruct Hstop as [Hex|Hab]; [|discriminate]. rewrite Hex.
    eexists. split; [reflexivity|]. now repeat split.
  - eexists. split; [reflexivity|]. now repeat split.
  - destruct Hstop as [Hex|Hab]; [|discriminate]. rewrite Hex.
    eexists. split; [reflexivity|]. now repeat split.
Qed.

Lemma execute_sql_stops_on_exit_or_abort_witness :
  exists s',
    _execute_sql (DeleteEntry "e")
      (mkSt Python3 ∅ (Table {["e" := mkRow 2000 "7" 0]}) 1000 [true] [] [] [] None []
            false [])
      = (Ok None, s') /\
    disk s' = Table {["e" := mkRow 2000 "7" 0]} /\ win s' = ∅ /\ trace s' = [] /\
    faults s' = [].
Proof.
  exact (execute_sql_stops_on_exit_or_abort (DeleteEntry "e")
           (mkSt Python3 ∅ (Table {["e" := mkRow 2000 "7" 0]}) 1000 [true] [] [] []
                 None [] false [])
           {["e" := mkRow 2000 "7" 0]} eq_refl (or_intror eq_refl)).
Defined.

(** X10.  Under either Python, when [execute] raises an exception that is
    not an OperationalError, [_execute_sql] leaves the loop after that one
    attempt, with no pause, and returns [None] without raising; the table is
    unchanged. *)
Theorem execute_sql_other_exception (q : Stmt) (s : St) t rest :
  disk s = Table t -> _exit s = false -> hd false (aborts s) = false ->
  faults s = OtherError :: rest ->
  exists s',
    _execute_sql q s = (Ok None, s') /\
    trace s' = (trace s ++ [EvExecute q])%list /\ faults s' = rest /\
    disk s' = disk s.
Proof.
  intros Hd Hex Ha Hf.
  destruct (sql_loop_break q 9 ErrorNone s t OtherError rest Hd Hex Ha Hf)
    as (s' & Hloop & Hrest); [discriminate|discriminate|].
  exists s'. split; [|exact Hrest].
  unfold _execute_sql. unfold bind at 1.
  rewrite (get_database_table 2 s t Hd). unfold bind at 1.
  now rewrite Hloop.
Qed.

Lemma execute_sql_other_exception_witness :
  exists s',
    _execute_sql (SelectEntry "e")
      (mkSt Python3 ∅ (Table ∅) 1000 [] [OtherError] [] [] None [] false [])
      = (Ok None, s') /\
    trace s' = [EvExecute (SelectEntry "e")] /\ faults s' = [] /\
    disk s' = Table ∅.
Proof.
  exact (execute_sql_other_exception (SelectEntry "e")
           (mkSt Python3 ∅ (Table ∅) 1000 [] [OtherError] [] [] None [] false [])
           ∅ [] eq_refl eq_refl eq_refl eq_refl).
Defined.

(** One failed creation of the table, then the pause before the next try. *)
Lemma get_database_retry (attempts : nat) (s : St) rest :
  (forall t, disk s <> Table t) -> creates s = false :: rest ->
  _get_database (S attempts) s =
    _get_database attempts
      (add_event (EvWaitForAbort 1000) (set_creates rest (set_disk NoFile s))).
Proof.
  intros Hd Hc. cbn [_get_database]. munfold.
  destruct (disk s) as [| |t] eqn:Hds; [| |now destruct (Hd t)];
    st; rewrite Hc; reflexivity.
Qed.

(** X11.  When the file is missing or unreadable, [_get_database] deletes it
    and creates an empty table.  If the creation fails [k] times, with [k]
    at most the number of attempts left, it pauses one second after each
    failure, tries again and returns the connection to the empty table; the
    ephemeral tier is not touched. *)
Theorem get_database_recreates (k : nat) :
  forall (attempts : nat) (s : St) rest,
  (forall t, disk s <> Table t) ->
  creates s = (repeat false k ++ rest)%list -> hd true rest = true ->
  (k <= attempts)%nat ->
  exists s',
    _get_database attempts s = (Ok (Some tt), s') /\
    disk s' = Table ∅ /\ creates s' = tail rest /\ win s' = win s /\
    trace s' = (trace s ++ repeat (EvWaitForAbort 1000) k)%list.
Proof.
  induction k as [|k IH]; intros attempts s rest Hd Hc Hr Hk.
  - simpl in Hc.
    destruct attempts; cbn [_get_database]; munfold;
      (destruct (disk s) as [| |t] eqn:Hds; [| |now destruct (Hd t)]);
      st; rewrite Hc; destruct rest as [|[] rest]; try discriminate;
      eexists; (split; [reflexivity|]); st; simpl; rewrite ?app_nil_r, ?Hc;
      now repeat split.
  - destruct attempts as [|attempts]; [lia|].
    change (repeat false (S k) ++ rest)%list
      with (false :: (repeat false k ++ rest))%list in Hc.
    rewrite (get_database_retry attempts s _ Hd Hc).
    destruct (IH attempts
                (add_event (EvWaitForAbort 1000)
                   (set_creates (repeat false k ++ rest)%list (set_disk NoFile s)))
                rest) as (s' & Hrun & Hds & Hcs & Hw & Htr);
      [intros t; discriminate|reflexivity|exact Hr|lia|].
    exists s'. split; [exact Hrun|]. st.
    split; [exact Hds|]. split; [exact Hcs|]. split; [exact Hw|].
    rewrite Htr. simpl. now rewrite <- app_assoc.
Qed.

Lemma get_database_recreates_witness :
  exists s',
    _get_database 2
      (mkSt Python3 ∅ Corrupt 1000 [] [] [false; true] [] None [] false [])
      = (Ok (Some tt), s') /\
    disk s' = Table ∅ /\ creates s' = [] /\ win s' = ∅ /\
    trace s' = [EvWaitForAbort 1000].
Proof.
  apply (get_database_recreates 1 2
           (mkSt Python3 ∅ Corrupt 1000 [] [] [false; true] [] None [] false [])
           [true]).
  - intros t. discriminate.
  - reflexivity.
  - reflexivity.
  - apply (proj1 (Nat.leb_le 1 2) eq_refl).
Defined.

(** X12.  When the file is missing or unreadable and the creation of the
    table fails three times in a row, [_get_database] gives up after two
    pauses of one second and returns [None]; [_execute_sql] then raises on
    [with None as _database] instead of returning [None], and no statement
    is sent. *)
Theorem execute_sql_raises_without_database (q : Stmt) (s : St) rest :
  (forall t, disk s <> Table t) ->
  creates s = false :: false :: false :: rest ->
  exists s',
    _get_database 2 s = (Ok None, s') /\
    _execute_sql q s = (Raise AttributeError, s') /\
    disk s' = NoFile /\ creates s' = rest /\
    trace s' = (trace s ++ [EvWaitForAbort 1000; EvWaitForAbort 1000])%list.
Proof.
  intros Hd Hc.
  assert (Hrun : _get_database 2 s =
            (Ok None,
             set_creates rest (set_disk NoFile
               (add_event (EvWaitForAbort 1000) (set_creates [false] (set_disk NoFile
                 (add_event (EvWaitForAbort 1000)
                    (set_creates (false :: false :: rest) (set_disk NoFile s))))))))).
  { rewrite (get_database_retry 1 s _ Hd Hc).
    rewrite (get_database_retry 0 _ (false :: rest));
      [|intros t; discriminate|reflexivity].
    cbn [_get_database]. munfold. st. reflexivity. }
  eexists. split; [exact Hrun|]. split.
  - unfold _execute_sql. unfold bind at 1. now rewrite Hrun.
  - st. rewrite <- app_assoc. now repeat split.
Qed.

Lemma execute_sql_raises_without_database_witness :
  exists s',
    _get_database 2
      (mkSt Python3 ∅ NoFile 1000 [] [] [false; false; false] [] None [] false [])
      = (Ok None, s') /\
    _execute_sql (SelectEntry "e")
      (mkSt Python3 ∅ NoFile 1000 [] [] [false; false; false] [] None [] false [])
      = (Raise AttributeError, s') /\
    disk s' = NoFile /\ creates s' = [] /\
    trace s' = [EvWaitForAbort 1000; EvWaitForAbort 1000].
Proof.
  apply (execute_sql_raises_without_database (SelectEntry "e")
           (mkSt Python3 ∅ NoFile 1000 [] [] [false; false; false] [] None [] false [])
           []).
  - intros t. discriminate.
  - reflexivity.
Defined.

(** * Writes and reads, end to end *)

Lemma mem_key_inj (self : Self) (e e' : string) :
  mem_key self e = mem_key self e' -> e = e'.
Proof.
  unfold mem_key. intros Heq. apply append_inj_l in Heq.
  now injection Heq.
Qed.

Lemma list_remove_last (x : string) (l : list string) :
  Permutation (list_remove x (l ++ [x])%list) l.
Proof.
  induction l as [|y l IH]; simpl.
  - now rewrite String.eqb_refl.
  - destruct (String.eqb x y) eqn:Hxy.
    + apply String.eqb_eq in Hxy. subst y.
      symmetry. apply Permutation_cons_append.
    + now constructor.
Qed.

(** What [set] can have done to the durable tier and to the queue. *)
Lemma set_rows `{Json} (self : Self) (e : string) (d : json) (cs : string)
    (ttl : Z) (s s1 : St) r :
  set self e d cs ttl s = (r, s1) ->
  r <> Hang /\
  (rows s1 = rows s \/
   rows s1 = <[e := mkRow (clock s + ttl * TIME_DAYS) (json_dumps d)
                      (derive (Some cs) (global_checksum s))]> (rows s)) /\
  (_queue s1 = _queue s \/
   _queue s1 = (_queue s ++ [(e, derive (Some cs) (global_checksum s),
                              clock s + ttl * TIME_DAYS, d)])%list).
Proof.
  rewrite set_run. cbv zeta.
  destruct (_mem_only self);
    [intros [= <- <-]; split; [discriminate|]; split; now left|].
  destruct (_delaywrite self);
    [intros [= <- <-]; split; [discriminate|]; split; [now left|now right]|].
  destruct (_set_db_cache _ _ _ _ _) as [r2 s2] eqn:Hdb.
  apply set_db_cache_inv in Hdb. destruct Hdb as (Hf & Hh & Hr).
  intros [= <- <-]. split; [exact Hh|]. split.
  - destruct Hr as [Hr|[_ Hr]]; [left|right]; exact Hr.
  - left. destruct Hf. st. congruence.
Qed.

(** X14.  On a store that raises no error and holds no row for [e], an
    entry written by [set(e, d, cs, ttl_days)] lives exactly [ttl_days] days:
    [get(e, cs)] evaluated at time [t] returns [d] when
    [t < now + ttl_days * 86400] and [None] from then on, for every integer
    [ttl_days], negative ones included. *)
Theorem entry_lifetime `{Json} (self : Self) (e : string) (d : json) (cs : string)
    (ttl : Z) (s : St) :
  healthy s -> rows s !! e = None ->
  serialisable (entry_of d cs ttl s) ->
  json_loads (json_dumps d) = Some d ->
  exists s1,
    set self e d cs ttl s = (Ok tt, s1) /\
    forall t,
      fst (get self e cs (set_clock t s1)) =
        Ok (if t <? clock s + ttl * TIME_DAYS then d else JNull).
Proof.
  intros Hh Hfresh Hser Hd.
  destruct (set_healthy self e d cs ttl s Hh) as (s1 & Hset & Hh1 & Hrows).
  exists s1. split; [exact Hset|]. intros t.
  destruct (t <? clock s + ttl * TIME_DAYS) eqn:Hlt.
  - apply Z.ltb_lt in Hlt.
    apply (get_after_set self e d cs cs ttl t s s1); auto.
  - apply Z.ltb_ge in Hlt. destruct Hser as (Htxt & Hl).
    pose proof Hset as Hinv. apply set_inv in Hinv. destruct Hinv as (Hw & _).
    destruct (get_expired self e cs (set_clock t s1)) as (s2 & Hget).
    + exact Hh1.
    + st. rewrite Hw, lookup_insert_eq. intros txt [= <-] _.
      unfold entry_of in *. rewrite Hl.
      eexists; eexists; eexists. repeat split. exact Hlt.
    + st. change (rows (set_clock t s1)) with (rows s1).
      intros row Hr. destruct Hrows as [Hrs|Hrs]; rewrite Hrs in Hr; [congruence|].
      rewrite lookup_insert_eq in Hr. injection Hr as <-. exact Hlt.
    + now rewrite Hget.
Qed.

Lemma entry_lifetime_witness :
  exists s1,
    set direct_cache "e" (JInt 7) "v1" 1 (quiet Python3 ∅ NoFile None 1000) = (Ok tt, s1) /\
    forall t,
      fst (get direct_cache "e" "v1" (set_clock t s1)) =
        Ok (if t <? 1000 + 1 * TIME_DAYS then JInt 7 else JNull).
Proof.
  apply (entry_lifetime direct_cache "e" (JInt 7) "v1" 1
           (quiet Python3 ∅ NoFile None 1000)); try reflexivity; split; reflexivity.
Defined.

Lemma execute_sql_calm (q : Stmt) (s : St) t :
  calm s -> disk s = Table t ->
  exists s',
    _execute_sql q s = (Ok (Some (snd (run_stmt q t))), s') /\
    frame s s' /\ disk s' = Table (fst (run_stmt q t)) /\ calm s' /\
    trace s' = (trace s ++ [EvExecute q])%list.
Proof.
  intros (Hex & Ha & Hf) Hd.
  assert (Hans : answers s)
    by (split; [exact Hex|split; [now rewrite Ha|now rewrite Hf]]).
  destruct (execute_sql_ok q s t Hd Hans) as (s' & Hq & Hfr & Hd' & Htr & Ha' & Hf').
  exists s'. split; [exact Hq|]. split; [exact Hfr|]. split; [exact Hd'|].
  split; [|exact Htr].
  split; [destruct Hfr; congruence|]. split.
  - now rewrite Ha', Ha.
  - now rewrite Hf', Hf.
Qed.

(** [set] on a calm engine that writes through. *)
Lemma set_direct_calm `{Json} (self : Self) (e : string) (d : json) (cs : string)
    (ttl : Z) (s : St) t :
  _mem_only self = false -> _delaywrite self = false ->
  calm s -> disk s = Table t ->
  exists s1,
    set self e d cs ttl s = (Ok tt, s1) /\
    win s1 = <[mem_key self e := json_dumps (entry_of d cs ttl s)]> (win s) /\
    disk s1 = Table (<[e := mkRow (clock s + ttl * TIME_DAYS) (json_dumps d)
                             (derive (Some cs) (global_checksum s))]> t) /\
    calm s1 /\ clock s1 = clock s /\ global_checksum s1 = global_checksum s.
Proof.
  intros Hm Hdw Hcalm Hd. rewrite set_run. cbv zeta. rewrite Hm, Hdw.
  unfold _set_db_cache. unfold bind at 1.
  match goal with
  | |- context [_execute_sql ?q ?x] =>
      assert (Hd1 : disk x = Table t) by exact Hd;
      assert (Hc1 : calm x) by exact Hcalm;
      destruct (execute_sql_calm q x t Hc1 Hd1) as (s2 & Hq & Hfr & Hd2 & Hc2 & _);
      rewrite Hq
  end.
  unfold ret. eexists. split; [reflexivity|]. st.
  destruct Hfr as [_ Hw Hcl Hg _ _ _]. st.
  split; [exact Hw|]. split; [exact Hd2|]. split; [exact Hc2|].
  split; [exact Hcl|exact Hg].
Qed.

(** X15.  What [set] wrote through to the durable tier survives the loss of
    the ephemeral tier: on a calm engine that is neither mem-only nor
    deferred, after [set(e, d, cs, ttl_days)], in any later state whose
    ephemeral tier holds nothing for [e] (a restart of the host), a
    [get(e, cs)] before the expiry returns [d] from the durable row and puts
    the entry back into the ephemeral tier. *)
Theorem durable_round_trip `{Json} (self : Self) (e : string) (d : json)
    (cs : string) (ttl now : Z) (s : St) t (w : gmap string string) :
  _mem_only self = false -> _delaywrite self = false ->
  calm s -> disk s = Table t ->
  json_loads (json_dumps d) = Some d ->
  w !! mem_key self e = None ->
  now < clock s + ttl * TIME_DAYS ->
  exists s1 s2,
    set self e d cs ttl s = (Ok tt, s1) /\
    get self e cs (set_clock now (set_win (fun _ => w) s1)) = (Ok d, s2) /\
    win s2 = <[mem_key self e := json_dumps (entry_of d cs ttl s)]> w.
Proof.
  intros Hm Hdw Hcalm Hd Hl Hw Hnow.
  destruct (set_direct_calm self e d cs ttl s t Hm Hdw Hcalm Hd)
    as (s1 & Hset & _ & Hd1 & (Hex1 & Ha1 & Hf1) & Hc1 & Hg1).
  exists s1.
  set (s1' := set_clock now (set_win (fun _ => w) s1)).
  set (c := derive (Some cs) (global_checksum s)) in *.
  set (row := mkRow (clock s + ttl * TIME_DAYS) (json_dumps d) c) in *.
  assert (Hans : answers s1')
    by (unfold s1'; split; [exact Hex1|split; [st; now rewrite Ha1|st; now rewrite Hf1]]).
  assert (Hdk : disk s1' = Table (<[e := row]> t)) by exact Hd1.
  destruct (get_db_cache_run self e c now s1' (<[e := row]> t) row d Hans Hdk)
    as (s2 & Hrun & _ & _ & Hwin); [apply lookup_insert_eq|exact Hl|].
  exists s2. split; [exact Hset|].
  assert (Hle : (r_expires row <=? now) = false) by (apply Z.leb_gt; exact Hnow).
  rewrite Hle in Hrun, Hwin. simpl r_checksum in *.
  rewrite Z.eqb_refl, orb_true_r in Hrun, Hwin. simpl in Hwin.
  split; [|exact Hwin].
  assert (Hg' : global_checksum s1' = global_checksum s) by exact Hg1.
  assert (Hck : clock s1' = now) by reflexivity.
  rewrite get_mem_miss.
  - rewrite Hg', Hck, Hm. fold c. exact Hrun.
  - rewrite get_mem_cache_absent; [reflexivity|].
    change (win s1') with w. now rewrite Hw.
Qed.

Lemma durable_round_trip_witness :
  exists s1 s2,
    set direct_cache "e" (JInt 7) "v1" 30 (quiet Python3 ∅ (Table ∅) None 1000)
      = (Ok tt, s1) /\
    get direct_cache "e" "v1" (set_clock 5000 (set_win (fun _ => ∅) s1))
      = (Ok (JInt 7), s2) /\
    win s2 = <[mem_key direct_cache "e" := "[2593000, 7, 167]"]> ∅.
Proof.
  exact (durable_round_trip direct_cache "e" (JInt 7) "v1" 30 5000
           (quiet Python3 ∅ (Table ∅) None 1000) ∅ ∅
           eq_refl eq_refl (conj eq_refl (conj eq_refl eq_refl)) eq_refl eq_refl
           eq_refl eq_refl).
Defined.

(** X16.  A missing key: on a store that raises no error, when neither tier
    holds anything for [e], [get(e, cs)] returns [None] for every checksum
    and leaves both tiers as they were. *)
Theorem get_missing_key `{Json} (self : Self) (e cs : string) (s : St) :
  healthy s ->
  win s !! mem_key self e = None -> rows s !! e = None ->
  exists s',
    get self e cs s = (Ok JNull, s') /\ win s' = win s /\ rows s' = rows s.
Proof.
  intros Hh Hw Hr.
  rewrite get_mem_miss
    by (rewrite get_mem_cache_absent; [reflexivity|now rewrite Hw]).
  destruct (_mem_only self); [exists s; now repeat split|].
  destruct (_get_db_cache self e _ (clock s) s) as [r s'] eqn:Hdb.
  apply get_db_cache_miss in Hdb; [|exact Hh|intros row Hrow; congruence].
  destruct Hdb as (-> & Hw' & Hr' & _). exists s'. now repeat split.
Qed.

Lemma get_missing_key_witness :
  exists s',
    get direct_cache "e" "v1" (quiet Python3 ∅ NoFile None 1000) = (Ok JNull, s') /\
    win s' = ∅ /\ rows s' = ∅.
Proof.
  exact (get_missing_key direct_cache "e" "v1" (quiet Python3 ∅ NoFile None 1000)
           (conj eq_refl eq_refl) eq_refl eq_refl).
Defined.

(** X17.  An ephemeral entry whose text the serialiser cannot read is not
    treated as a miss: [json_loads] raises, [get] lets the ValueError out,
    and the durable tier is not consulted. *)
Theorem get_raises_on_unreadable_entry `{Json} (self : Self) (e cs txt : string)
    (s : St) :
  win s !! mem_key self e = Some txt -> truthy_str txt = true ->
  json_loads txt = None ->
  get self e cs s = (Raise ValueError, s).
Proof.
  intros Hw Ht Hl. rewrite get_run.
  assert (Hm : forall c now, _get_mem_cache self e c now s = (Raise ValueError, s)).
  { intros c now. unfold _get_mem_cache; munfold. rewrite Hw. simpl.
    now rewrite Ht, Hl. }
  now rewrite Hm.
Qed.

Lemma get_raises_on_unreadable_entry_witness :
  get direct_cache "e" ""
    (quiet Python3 {[mem_key direct_cache "e" := "[2000, 7"]}
           (Table {["e" := mkRow 2000 "7" 0]}) None 1000)
  = (Raise ValueError,
     quiet Python3 {[mem_key direct_cache "e" := "[2000, 7"]}
           (Table {["e" := mkRow 2000 "7" 0]}) None 1000).
Proof.
  exact (get_raises_on_unreadable_entry direct_cache "e" "" "[2000, 7"
           (quiet Python3 {[mem_key direct_cache "e" := "[2000, 7"]}
                  (Table {["e" := mkRow 2000 "7" 0]}) None 1000)
           eq_refl eq_refl eq_refl).
Defined.

(** * Checksums that collide *)

Lemma codepoint_sum_perm (a b : string) :
  Permutation (list_ascii_of_string a) (list_ascii_of_string b) ->
  codepoint_sum a = codepoint_sum b.
Proof.
  unfold codepoint_sum.
  generalize (list_ascii_of_string a) (list_ascii_of_string b).
  intros l l' Hp. induction Hp; simpl; lia.
Qed.

Lemma derive_closed_form (a : string) (g : option string) :
  derive (Some a) g =
    (if truthy_opt g then codepoint_sum (py_format g) + 45 else 0) + codepoint_sum a.
Proof.
  unfold derive. destruct (truthy_opt g) eqn:Hg; simpl.
  - rewrite andb_false_r. rewrite !codepoint_sum_app.
    change (codepoint_sum "-") with 45. lia.
  - rewrite andb_true_r. destruct a as [|c a]; reflexivity.
Qed.

(** X18.  The checksum of a text is its code-point sum plus a term that
    depends on the override alone, so it cannot tell apart two texts with
    the same sum: in particular every rearrangement of the characters of a
    checksum string derives the same checksum. *)
Theorem get_checksum_collides (g : option string) (a : string) :
  _get_checksum g (Some a) =
    Ok ((if truthy_opt g then codepoint_sum (py_format g) + 45 else 0)
        + codepoint_sum a) /\
  (forall b, codepoint_sum b = codepoint_sum a ->
     _get_checksum g (Some b) = _get_checksum g (Some a)) /\
  (forall b, Permutation (list_ascii_of_string a) (list_ascii_of_string b) ->
     _get_checksum g (Some b) = _get_checksum g (Some a)).
Proof.
  split; [|split].
  - now rewrite get_checksum_eq, derive_closed_form.
  - intros b Hb. rewrite !get_checksum_eq, !derive_closed_form. now rewrite Hb.
  - intros b Hp. rewrite !get_checksum_eq, !derive_closed_form.
    now rewrite (codepoint_sum_perm a b Hp).
Qed.

Example get_checksum_anagram :
  _get_checksum None (Some "v12") = _get_checksum None (Some "v21") /\
  _get_checksum (Some "G") (Some "ad") = _get_checksum (Some "G") (Some "bc").
Proof. split; reflexivity. Qed.

(** X19.  Checksum validation accepts a colliding version string: on a store
    that raises no error and held no row for [e], after
    [set(e, d, checksum=a)] a [get(e, checksum=b)] before the expiry returns
    [d] for every [b] with the same code-point sum as [a], though [b] is not
    the version the entry was stored under. *)
Theorem get_accepts_colliding_checksum `{Json} (self : Self) (e : string) (d : json)
    (a b : string) (ttl now : Z) (s : St) :
  healthy s -> rows s !! e = None ->
  serialisable (entry_of d a ttl s) ->
  json_loads (json_dumps d) = Some d ->
  now < clock s + ttl * TIME_DAYS ->
  codepoint_sum b = codepoint_sum a ->
  exists s1,
    set self e d a ttl s = (Ok tt, s1) /\
    fst (get self e b (set_clock now s1)) = Ok d.
Proof.
  intros Hh Hfresh Hser Hd Hnow Hsum.
  destruct (set_healthy self e d a ttl s Hh) as (s1 & Hset & _).
  exists s1. split; [exact Hset|].
  apply (get_after_set self e d a b ttl now s s1); try assumption.
  right. rewrite !derive_closed_form. now rewrite Hsum.
Qed.

Lemma get_accepts_colliding_checksum_witness :
  exists s1,
    set direct_cache "e" (JInt 7) "v12" 30 (quiet Python3 ∅ NoFile None 1000)
      = (Ok tt, s1) /\
    fst (get direct_cache "e" "v21" (set_clock 1000 s1)) = Ok (JInt 7).
Proof.
  apply (get_accepts_colliding_checksum direct_cache "e" (JInt 7) "v12" "v21" 30 1000
           (quiet Python3 ∅ NoFile None 1000)); try reflexivity; split; reflexivity.
Defined.

(** * A full pass of the cleanup *)

Lemma foldl_sweep_other (force : bool) (now : Z) (l : list (string * Row))
    (t : gmap string Row) (k : string) :
  k ∉ l.*1 -> foldl (sweep_row force now) t l !! k = t !! k.
Proof.
  revert t. induction l as [|[id r] l IH]; intros t Hk; [reflexivity|].
  cbn [foldl]. rewrite fmap_cons in Hk. apply not_elem_of_cons in Hk as [Hne Hk].
  rewrite IH by exact Hk. unfold sweep_row. cbn [fst snd] in *.
  destruct (force || _); [|reflexivity]. apply lookup_delete_ne. congruence.
Qed.

Lemma foldl_sweep_in (force : bool) (now : Z) (l : list (string * Row))
    (t : gmap string Row) (k : string) (r : Row) :
  NoDup l.*1 -> (k, r) ∈ l ->
  foldl (sweep_row force now) t l !! k =
    if force || (r_expires r <? now) then None else t !! k.
Proof.
  revert t. induction l as [|[id r'] l IH]; intros t Hnd Hin.
  - now apply elem_of_nil in Hin.
  - rewrite fmap_cons in Hnd. apply NoDup_cons in Hnd as [Hid Hnd].
    cbn [foldl]. apply elem_of_cons in Hin as [[= <- <-]|Hin].
    + rewrite foldl_sweep_other by exact Hid.
      unfold sweep_row. cbn [fst snd].
      destruct (force || _); [apply lookup_delete_eq|reflexivity].
    + rewrite IH by assumption.
      destruct (force || (r_expires r <? now)); [reflexivity|].
      unfold sweep_row. cbn [fst snd].
      destruct (force || _); [|reflexivity].
      apply lookup_delete_ne. intros ->. apply Hid.
      apply list_elem_of_fmap. exists (k, r). now split.
Qed.

Lemma foldl_clear_lookup (l : list (string * Row)) (w : gmap string string)
    (k : string) :
  foldl clear_row w l !! k = if decide (k ∈ l.*1) then None else w !! k.
Proof.
  revert w. induction l as [|[id r] l IH]; intros w.
  - cbn [foldl]. destruct (decide _) as [Hin|]; [|reflexivity].
    now apply elem_of_nil in Hin.
  - cbn [foldl]. rewrite IH. unfold clear_row. cbn [fst]. rewrite fmap_cons. cbn [fst].
    destruct (decide (k ∈ l.*1)) as [Hin|Hin].
    + rewrite decide_True; [reflexivity|now right].
    + destruct (decide (id = k)) as [->|Hne].
      * rewrite decide_True; [apply lookup_delete_eq|now left].
      * rewrite decide_False; [now apply lookup_delete_ne|].
        intros [->|?]%elem_of_cons; contradiction.
Qed.

(** The loop of [_do_cleanup] on a calm engine runs to its end. *)
Lemma cleanup_rows_calm (force : bool) (now : Z) (l : list (string * Row)) :
  forall (s : St) t,
  calm s -> disk s = Table t ->
  exists s',
    cleanup_rows force now l s = (Ok false, s') /\
    calm s' /\ disk s' = Table (foldl (sweep_row force now) t l) /\
    win s' = foldl clear_row (win s) l /\
    _busy_tasks s' = _busy_tasks s /\ clock s' = clock s.
Proof.
  induction l as [|[id r] l IH]; intros s t Hc Hd.
  - exists s. cbn [cleanup_rows foldl]. unfold ret.
    split; [reflexivity|]. split; [exact Hc|]. split; [exact Hd|]. now repeat split.
  - pose proof Hc as (Hex & Ha & Hf).
    cbn [cleanup_rows foldl]. unfold sweep_row at 2, clear_row at 2. cbn [fst snd].
    unfold exit_or_abort. munfold. rewrite Hex, Ha. st.
    destruct (force || (r_expires r <? now)) eqn:Hcond.
    + match goal with
      | |- context [_execute_sql ?q ?x] =>
          assert (Hd1 : disk x = Table t) by exact Hd;
          assert (Hc1 : calm x) by exact Hc;
          destruct (execute_sql_calm q x t Hc1 Hd1) as (s2 & Hq & Hfr & Hd2 & Hc2 & _);
          rewrite Hq
      end.
      cbn [run_stmt fst] in Hd2.
      destruct (IH s2 (delete id t) Hc2 Hd2) as (s' & Hrun & Hc' & Hd' & Hw' & Hb' & Hk').
      rewrite Hrun. exists s'. split; [reflexivity|]. split; [exact Hc'|].
      split; [exact Hd'|]. destruct Hfr as [_ Hw Hcl _ Hbt _ _]. st.
      split; [now rewrite Hw', Hw|]. split; congruence.
    + match goal with
      | |- context [cleanup_rows force now l ?x] =>
          assert (Hd1 : disk x = Table t) by exact Hd;
          assert (Hc1 : calm x) by exact Hc;
          destruct (IH x t Hc1 Hd1) as (s' & Hrun & Hc' & Hd' & Hw' & Hb' & Hk')
      end.
      rewrite Hrun. exists s'. split; [reflexivity|]. split; [exact Hc'|].
      split; [exact Hd'|]. st. now repeat split.
Qed.

Lemma mem_key_not_marker (self : Self) (e : string) :
  mem_key self e <> lastexecuted_key self /\ mem_key self e <> cleanbusy_key self.
Proof.
  unfold mem_key, lastexecuted_key, cleanbusy_key.
  split; intros Heq; apply append_inj_l in Heq; discriminate.
Qed.

(** X20.  A full pass of [_do_cleanup] on a calm engine whose busy marker is
    not set: a row survives iff the pass is not forced and the row's expiry
    is not before the current time (a row expiring at this very second
    stays); the time of the pass is recorded and the busy marker cleared;
    besides the two markers, exactly the window properties named by the id
    of a row of the table are cleared, whether or not the row was deleted;
    the task list holds the same labels as before. *)
Theorem cleanup_pass (self : Self) (force : bool) (s : St) t :
  calm s -> disk s = Table t ->
  truthy_str (default "" (win s !! cleanbusy_key self)) = false ->
  exists s',
    _do_cleanup self force s = (Ok tt, s') /\
    (forall k, rows s' !! k =
       match t !! k with
       | Some r => if force || (r_expires r <? clock s) then None else Some r
       | None => None
       end) /\
    win s' !! lastexecuted_key self = Some (py_str_of_int (clock s)) /\
    win s' !! cleanbusy_key self = None /\
    (forall k, k <> lastexecuted_key self -> k <> cleanbusy_key self ->
       win s' !! k = match t !! k with Some _ => None | None => win s !! k end) /\
    Permutation (_busy_tasks s') (_busy_tasks s) /\ calm s'.
Proof.
  intros Hc Hd Hbusy. pose proof Hc as (Hex & Ha & Hf).
  unfold _do_cleanup, busy_tasks, exit_or_abort, washup. munfold. st.
  rewrite Hex, Ha. st. rewrite Hbusy. rewrite Z.add_0_r.
  match goal with
  | |- context [_execute_sql SelectIdExpires ?x] =>
      assert (Hd1 : disk x = Table t) by exact Hd;
      assert (Hc1 : calm x) by exact Hc;
      destruct (execute_sql_calm SelectIdExpires x t Hc1 Hd1)
        as (s2 & Hq & Hfr2 & Hd2 & Hc2 & _);
      rewrite Hq
  end.
  cbn [run_stmt fst snd] in *. unfold fetchall.
  destruct (cleanup_rows_calm force (clock s) (map_to_list t) s2 t Hc2 Hd2)
    as (s3 & Hrun & Hc3 & Hd3 & Hw3 & Hb3 & Hk3).
  rewrite Hrun.
  destruct (execute_sql_calm Vacuum s3 _ Hc3 Hd3) as (s4 & Hq4 & Hfr4 & Hd4 & Hc4 & _).
  rewrite Hq4. cbn [run_stmt fst] in Hd4.
  eexists. split; [reflexivity|]. st.
  destruct Hfr2 as [_ Hw2 _ _ Hbt2 _ _]. destruct Hfr4 as [_ Hw4 _ _ Hbt4 _ _]. st.
  assert (Hwin : win s4 = foldl clear_row (<[cleanbusy_key self := "busy"]> (win s))
                             (map_to_list t))
    by (rewrite Hw4, Hw3, Hw2; reflexivity).
  split; [|split; [|split; [|split; [|split]]]].
  - intros k. unfold rows. st. rewrite Hd4.
    destruct (t !! k) as [r|] eqn:Hk.
    + rewrite (foldl_sweep_in force (clock s) (map_to_list t) t k r).
      * now rewrite Hk.
      * apply NoDup_fst_map_to_list.
      * now apply elem_of_map_to_list.
    + rewrite foldl_sweep_other; [exact Hk|].
      intros ((k' & r) & Hk' & Hin)%list_elem_of_fmap. cbn [fst] in Hk'. subst k'.
      apply elem_of_map_to_list in Hin. congruence.
  - rewrite lookup_delete_ne by apply marker_keys_differ.
    apply lookup_insert_eq.
  - apply lookup_delete_eq.
  - intros k Hk1 Hk2.
    rewrite lookup_delete_ne by congruence.
    rewrite lookup_insert_ne by congruence.
    rewrite Hwin, foldl_clear_lookup.
    destruct (t !! k) as [r|] eqn:Hk.
    + rewrite decide_True; [reflexivity|].
      apply list_elem_of_fmap. exists (k, r). split; [reflexivity|].
      now apply elem_of_map_to_list.
    + rewrite decide_False.
      * apply lookup_insert_ne. congruence.
      * intros ((k' & r) & Hk' & Hin)%list_elem_of_fmap. cbn [fst] in Hk'. subst k'.
        apply elem_of_map_to_list in Hin. congruence.
  - rewrite Hbt4, Hb3, Hbt2. st. apply list_remove_last.
  - destruct Hc4 as (? & ? & ?). now repeat split.
Qed.

Lemma cleanup_pass_witness :
  exists s',
    _do_cleanup direct_cache false
      (quiet Python3 {["a" := "x"; "c" := "y"]}
         (Table {["a" := mkRow 10 "1" 0; "b" := mkRow 1000 "2" 0]}) None 1000)
      = (Ok tt, s') /\
    (forall k, rows s' !! k =
       match ({["a" := mkRow 10 "1" 0; "b" := mkRow 1000 "2" 0]} : gmap string Row) !! k with
       | Some r => if false || (r_expires r <? 1000) then None else Some r
       | None => None
       end) /\
    win s' !! lastexecuted_key direct_cache = Some (py_str_of_int 1000) /\
    win s' !! cleanbusy_key direct_cache = None /\
    (forall k, k <> lastexecuted_key direct_cache -> k <> cleanbusy_key direct_cache ->
       win s' !! k =
         match ({["a" := mkRow 10 "1" 0; "b" := mkRow 1000 "2" 0]} : gmap string Row) !! k with
         | Some _ => None
         | None => ({["a" := "x"; "c" := "y"]} : gmap string string) !! k
         end) /\
    Permutation (_busy_tasks s') [] /\ calm s'.
Proof.
  exact (cleanup_pass direct_cache false
           (quiet Python3 {["a" := "x"; "c" := "y"]}
              (Table {["a" := mkRow 10 "1" 0; "b" := mkRow 1000 "2" 0]}) None 1000)
           {["a" := mkRow 10 "1" 0; "b" := mkRow 1000 "2" 0]}
           (conj eq_refl (conj eq_refl eq_refl)) eq_refl eq_refl).
Defined.

(** * Deleting the whole database *)

Lemma do_delete_calm (self : Self) (s : St) t :
  calm s -> disk s = Table t ->
  exists s',
    _do_delete self s = (Ok tt, s') /\ disk s' = Table ∅ /\
    win s' = delete (cleanbusy_key self)
               (<[lastexecuted_key self := py_str_of_int (clock s)]>
                  (<[cleanbusy_key self := "busy"]> (win s))) /\
    Permutation (_busy_tasks s') (_busy_tasks s) /\ calm s' /\
    clock s' = clock s /\ global_checksum s' = global_checksum s.
Proof.
  intros Hc Hd. pose proof Hc as (Hex & Ha & Hf).
  unfold _do_delete, busy_tasks, exit_or_abort, washup. munfold. st.
  rewrite Hex, Ha. st. rewrite Z.add_0_r.
  match goal with
  | |- context [_execute_sql DeleteAll ?x] =>
      assert (Hd1 : disk x = Table t) by exact Hd;
      assert (Hc1 : calm x) by exact Hc;
      destruct (execute_sql_calm DeleteAll x t Hc1 Hd1)
        as (s2 & Hq & Hfr2 & Hd2 & Hc2 & _);
      rewrite Hq
  end.
  cbn [run_stmt fst] in Hd2.
  destruct (execute_sql_calm Vacuum s2 _ Hc2 Hd2) as (s3 & Hq3 & Hfr3 & Hd3 & Hc3 & _).
  rewrite Hq3. cbn [run_stmt fst] in Hd3.
  eexists. split; [reflexivity|]. st.
  destruct Hfr2 as [_ Hw2 Hcl2 Hg2 Hbt2 _ _]. destruct Hfr3 as [_ Hw3 Hcl3 Hg3 Hbt3 _ _]. st.
  split; [exact Hd3|]. split; [now rewrite Hw3, Hw2|].
  split; [rewrite Hbt3, Hbt2; apply list_remove_last|].
  split; [destruct Hc3 as (? & ? & ?); now repeat split|].
  split; congruence.
Qed.

(** X21.  [_do_delete] on a calm engine empties the table, records the time
    of the pass and clears the busy marker, whether or not that marker was
    set when it started; every other window property is left as it was, so
    no entry of the ephemeral tier is removed. *)
Theorem delete_pass (self : Self) (s : St) t :
  calm s -> disk s = Table t ->
  exists s',
    _do_delete self s = (Ok tt, s') /\
    rows s' = ∅ /\
    win s' !! lastexecuted_key self = Some (py_str_of_int (clock s)) /\
    win s' !! cleanbusy_key self = None /\
    (forall k, k <> lastexecuted_key self -> k <> cleanbusy_key self ->
       win s' !! k = win s !! k) /\
    (forall e, win s' !! mem_key self e = win s !! mem_key self e) /\
    Permutation (_busy_tasks s') (_busy_tasks s).
Proof.
  intros Hc Hd.
  destruct (do_delete_calm self s t Hc Hd) as (s' & Hrun & Hd' & Hw & Hb & _).
  assert (Hother : forall k, k <> lastexecuted_key self -> k <> cleanbusy_key self ->
            win s' !! k = win s !! k).
  { intros k Hk1 Hk2. rewrite Hw.
    rewrite lookup_delete_ne by congruence.
    rewrite lookup_insert_ne by congruence.
    apply lookup_insert_ne. congruence. }
  exists s'. split; [exact Hrun|]. split; [unfold rows; now rewrite Hd'|].
  split; [|split; [|split; [exact Hother|split; [|exact Hb]]]].
  - rewrite Hw. rewrite lookup_delete_ne by apply marker_keys_differ.
    apply lookup_insert_eq.
  - rewrite Hw. apply lookup_delete_eq.
  - intros e. destruct (mem_key_not_marker self e). now apply Hother.
Qed.

Lemma delete_pass_witness :
  exists s',
    _do_delete direct_cache
      (quiet Python3 {[cleanbusy_key direct_cache := "busy"]}
         (Table {["a" := mkRow 2000 "1" 0]}) None 1000)
      = (Ok tt, s') /\
    rows s' = ∅ /\
    win s' !! lastexecuted_key direct_cache = Some (py_str_of_int 1000) /\
    win s' !! cleanbusy_key direct_cache = None /\
    (forall k, k <> lastexecuted_key direct_cache -> k <> cleanbusy_key direct_cache ->
       win s' !! k =
         ({[cleanbusy_key direct_cache := "busy"]} : gmap string string) !! k) /\
    (forall e, win s' !! mem_key direct_cache e =
         ({[cleanbusy_key direct_cache := "busy"]} : gmap string string)
           !! mem_key direct_cache e) /\
    Permutation (_busy_tasks s') [].
Proof.
  exact (delete_pass direct_cache
           (quiet Python3 {[cleanbusy_key direct_cache := "busy"]}
              (Table {["a" := mkRow 2000 "1" 0]}) None 1000)
           {["a" := mkRow 2000 "1" 0]}
           (conj eq_refl (conj eq_refl eq_refl)) eq_refl).
Defined.

(** X22.  Deleting the database does not invalidate what the ephemeral tier
    holds: on a calm engine that writes through, after [set(e, d, cs,
    ttl_days)] and then [_do_delete()], the table is empty and yet
    [get(e, cs)] before the expiry still returns [d] (for [d] other than
    [None]), without touching the state. *)
Theorem get_after_delete `{Json} (self : Self) (e : string) (d : json)
    (cs : string) (ttl now : Z) (s : St) t :
  _mem_only self = false -> _delaywrite self = false ->
  calm s -> disk s = Table t ->
  serialisable (entry_of d cs ttl s) ->
  is_None d = false ->
  now < clock s + ttl * TIME_DAYS ->
  exists s1 s2,
    set self e d cs ttl s = (Ok tt, s1) /\
    _do_delete self s1 = (Ok tt, s2) /\
    rows s2 = ∅ /\
    get self e cs (set_clock now s2) = (Ok d, set_clock now s2).
Proof.
  intros Hm Hdw Hc Hd (Htxt & Hl) Hnone Hnow.
  destruct (set_direct_calm self e d cs ttl s t Hm Hdw Hc Hd)
    as (s1 & Hset & Hw1 & Hd1 & Hc1 & Hcl1 & Hg1).
  destruct (do_delete_calm self s1 _ Hc1 Hd1)
    as (s2 & Hdel & Hd2 & Hw2 & _ & _ & _ & Hg2).
  exists s1, s2. split; [exact Hset|]. split; [exact Hdel|].
  split; [unfold rows; now rewrite Hd2|].
  apply get_mem_hit; [|exact Hnone]. st. rewrite Hg2, Hg1.
  unfold entry_of in *.
  erewrite get_mem_cache_entry; [| |exact Htxt|exact Hl].
  - apply Z.leb_gt in Hnow. rewrite Hnow. cbn [fst].
    replace (py_eq_int _ _) with true; [now rewrite orb_true_r|].
    symmetry. simpl. apply Z.eqb_refl.
  - st. rewrite Hw2. destruct (mem_key_not_marker self e) as (Hk1 & Hk2).
    rewrite lookup_delete_ne by congruence.
    rewrite lookup_insert_ne by congruence.
    rewrite lookup_insert_ne by congruence.
    rewrite Hw1. apply lookup_insert_eq.
Qed.

Lemma get_after_delete_witness :
  exists s1 s2,
    set direct_cache "e" (JInt 7) "v1" 1 (quiet Python3 ∅ (Table ∅) None 1000)
      = (Ok tt, s1) /\
    _do_delete direct_cache s1 = (Ok tt, s2) /\
    rows s2 = ∅ /\
    get direct_cache "e" "v1" (set_clock 5000 s2) = (Ok (JInt 7), set_clock 5000 s2).
Proof.
  exact (get_after_delete direct_cache "e" (JInt 7) "v1" 1 5000
           (quiet Python3 ∅ (Table ∅) None 1000) ∅ eq_refl eq_refl
           (conj eq_refl (conj eq_refl eq_refl)) eq_refl (conj eq_refl eq_refl)
           eq_refl eq_refl).
Defined.

(** * Cleanup when the enumeration is refused *)

Lemma execute_sql_aborted (q : Stmt) (s : St) t rest :
  aborts s = true :: rest -> disk s = Table t ->
  _execute_sql q s = (Ok None, set_aborts rest s).
Proof.
  intros Ha Hd. unfold _execute_sql. unfold bind at 1.
  rewrite (get_database_table 2 s t Hd). unfold bind at 1.
  change 10%nat with (S 9). generalize 9%nat. intros n.
  cbn [sql_loop]. munfold. now rewrite Ha.
Qed.

(** X23.  When the abort signal is polled inside the enumerating
    [SELECT] (the guard at the head of [_do_cleanup] still saw none),
    [_execute_sql] returns [None] and [_do_cleanup] raises on
    [None.fetchall()]: the busy-task label is released by the context
    manager, but the busy marker stays set, the time of the pass is not
    recorded, and no row is deleted. *)
Theorem cleanup_raises_when_select_aborted (self : Self) (force : bool) (s : St)
    t polls :
  _exit s = false ->
  aborts s = false :: true :: polls ->
  disk s = Table t ->
  truthy_str (default "" (win s !! cleanbusy_key self)) = false ->
  exists s',
    _do_cleanup self force s = (Raise AttributeError, s') /\
    win s' !! cleanbusy_key self = Some "busy" /\
    win s' !! lastexecuted_key self = win s !! lastexecuted_key self /\
    rows s' = rows s /\
    Permutation (_busy_tasks s') (_busy_tasks s).
Proof.
  intros Hex Ha Hd Hbusy.
  unfold _do_cleanup, busy_tasks, exit_or_abort. munfold. st.
  rewrite Hex, Ha. st. rewrite Hbusy.
  match goal with
  | |- context [_execute_sql SelectIdExpires ?x] =>
      assert (Hd1 : disk x = Table t) by exact Hd;
      assert (Ha1 : aborts x = true :: polls) by reflexivity;
      rewrite (execute_sql_aborted SelectIdExpires x t polls Ha1 Hd1)
  end.
  eexists. split; [reflexivity|]. st.
  split; [apply lookup_insert_eq|].
  split; [apply lookup_insert_ne, marker_keys_differ|].
  split; [reflexivity|apply list_remove_last].
Qed.

Lemma cleanup_raises_when_select_aborted_witness :
  exists s',
    _do_cleanup direct_cache false
      (mkSt Python3 ∅ (Table {["a" := mkRow 10 "1" 0]}) 1000
            [false; true] [] [] [] None [] false [])
      = (Raise AttributeError, s') /\
    win s' !! cleanbusy_key direct_cache = Some "busy" /\
    win s' !! lastexecuted_key direct_cache = None /\
    rows s' = {["a" := mkRow 10 "1" 0]} /\
    Permutation (_busy_tasks s') [].
Proof.
  exact (cleanup_raises_when_select_aborted direct_cache false
           (mkSt Python3 ∅ (Table {["a" := mkRow 10 "1" 0]}) 1000
                 [false; true] [] [] [] None [] false [])
           {["a" := mkRow 10 "1" 0]} [] eq_refl eq_refl eq_refl eq_refl).
Defined.

(** * After the exit flag is set *)

Lemma execute_sql_exiting (q : Stmt) (s : St) t :
  _exit s = true -> disk s = Table t ->
  exists s',
    _execute_sql q s = (Ok None, s') /\ frame s s' /\ disk s' = disk s /\
    trace s' = trace s.
Proof.
  intros Hex Hd. unfold _execute_sql. unfold bind at 1.
  rewrite (get_database_table 2 s t Hd). unfold bind at 1.
  change 10%nat with (S 9). generalize 9%nat. intros n.
  cbn [sql_loop]. munfold.
  destruct (aborts s) as [|[] l] eqn:Ha; st; try rewrite Hex;
    (eexists; split; [reflexivity|]);
    (split; [first [apply frame_refl | apply frame_set_aborts]|]);
    now split.
Qed.

(** X24.  Once the exit flag is set (as [close] sets it), a cache that
    writes through works on the ephemeral tier alone: [set] returns normally
    and writes the window property but no row, and [get] for a key the
    ephemeral tier does not hold returns [None] without reading the table,
    even when the table holds a valid row for the key. *)
Theorem exiting_cache_skips_durable_tier `{Json} (self : Self) (e : string)
    (d : json) (cs : string) (ttl : Z) (s : St) t :
  _exit s = true -> disk s = Table t ->
  _mem_only self = false -> _delaywrite self = false ->
  (exists s1,
     set self e d cs ttl s = (Ok tt, s1) /\ rows s1 = rows s /\
     win s1 = <[mem_key self e := json_dumps (entry_of d cs ttl s)]> (win s)) /\
  (win s !! mem_key self e = None ->
   exists s2,
     get self e cs s = (Ok JNull, s2) /\ rows s2 = rows s /\ win s2 = win s /\
     trace s2 = trace s).
Proof.
  intros Hex Hd Hm Hdw. split.
  - rewrite set_run. cbv zeta. rewrite Hm, Hdw.
    unfold _set_db_cache. unfold bind at 1.
    match goal with
    | |- context [_execute_sql ?q ?x] =>
        assert (Hd1 : disk x = Table t) by exact Hd;
        assert (Hex1 : _exit x = true) by exact Hex;
        destruct (execute_sql_exiting q x t Hex1 Hd1) as (s2 & Hq & Hfr & Hd2 & _);
        rewrite Hq
    end.
    unfold ret. eexists. split; [reflexivity|]. st.
    destruct Hfr as [_ Hw _ _ _ _ _]. st.
    split; [unfold rows; st; now rewrite Hd2|exact Hw].
  - intros Hw. rewrite get_mem_miss.
    + rewrite Hm. unfold _get_db_cache. unfold bind at 1.
      destruct (execute_sql_exiting (SelectEntry e) s t Hex Hd)
        as (s2 & Hq & Hfr & Hd2 & Htr).
      rewrite Hq. unfold ret. exists s2. split; [reflexivity|].
      destruct Hfr as [_ Hw2 _ _ _ _ _].
      split; [unfold rows; now rewrite Hd2|]. now split.
    + rewrite get_mem_cache_absent; [reflexivity|]. now rewrite Hw.
Qed.

Lemma exiting_cache_skips_durable_tier_witness :
  let s := mkSt Python3 ∅ (Table {["e" := mkRow 9000 "7" 0]}) 1000 [] [] [] []
                None [] true [] in
  (exists s1,
     set direct_cache "k" (JInt 1) "" 1 s = (Ok tt, s1) /\ rows s1 = rows s /\
     win s1 = <[mem_key direct_cache "k" :=
                  json_dumps (entry_of (JInt 1) "" 1 s)]> (win s)) /\
  (exists s2,
     get direct_cache "e" "" s = (Ok JNull, s2) /\ rows s2 = rows s /\ win s2 = win s /\
     trace s2 = trace s).
Proof.
  split.
  - exact (proj1 (exiting_cache_skips_durable_tier direct_cache "k" (JInt 1) "" 1
             (mkSt Python3 ∅ (Table {["e" := mkRow 9000 "7" 0]}) 1000 [] [] [] []
                   None [] true [])
             {["e" := mkRow 9000 "7" 0]} eq_refl eq_refl eq_refl eq_refl)).
  - exact (proj2 (exiting_cache_skips_durable_tier direct_cache "e" (JInt 1) "" 1
             (mkSt Python3 ∅ (Table {["e" := mkRow 9000 "7" 0]}) 1000 [] [] [] []
                   None [] true [])
             {["e" := mkRow 9000 "7" 0]} eq_refl eq_refl eq_refl eq_refl) eq_refl).
Defined.

Lemma flush_exit `{Json} (queue : list Queued) (s s' : St) r :
  flush queue s = (r, s') -> _exit s' = _exit s.
Proof.
  revert s. induction queue as [|[[[e c] x] d] queue IH]; intros s; simpl.
  - munfold. now intros [= <- <-].
  - unfold bind at 1. destruct (_set_db_cache e c x d s) as [r1 s1] eqn:H1.
    apply set_db_cache_inv in H1. destruct H1 as ([] & _ & _).
    destruct r1 as [[]|ex|].
    + intros Hrec. apply IH in Hrec. congruence.
    + now intros [= <- <-].
    + now intros [= <- <-].
Qed.

(** X25.  However [close] ends, the exit flag is set when it is over, so the
    destructor that runs later does nothing at all; on an instance that was
    not closed the destructor is [close]. *)
Theorem del_after_close `{Json} (s s1 : St) r :
  close s = (r, s1) ->
  _exit s1 = true /\ __del__ s1 = (Ok tt, s1) /\
  (_exit s = false -> __del__ s = close s).
Proof.
  intros Hclose.
  assert (Hex : _exit s1 = true).
  { revert Hclose. unfold close. unfold bind at 1, modify at 1.
    unfold bind at 1, wait_for_tasks at 1.
    destruct (await_tasks (aborts (set_exit true s)) (set_exit true s))
      as [ra sa] eqn:Ha.
    apply await_tasks_inv in Ha. destruct Ha as ([] & _). st.
    destruct ra as [[]|ex|]; [| |now intros [= <- <-]].
    - unfold bind at 1, gets at 1. unfold bind at 1.
      assert (Hlog : forall q : list Queued,
                (if match q with [] => false | _ => true end
                 then kodi_log "CACHE: Write Items in Queue" else ret tt) sa
                = (Ok tt, sa)) by (intros []; reflexivity).
      rewrite Hlog. unfold bind at 1.
      destruct (flush (_queue sa) sa) as [rf sf] eqn:Hfl.
      apply flush_exit in Hfl.
      destruct rf as [[]|ex|]; munfold; intros [= <- <-]; st; congruence.
    - now intros [= <- <-]. }
  split; [exact Hex|]. split.
  - unfold __del__. munfold. now rewrite Hex.
  - intros Hn. unfold __del__. unfold bind, gets. now rewrite Hn.
Qed.

Lemma del_after_close_witness :
  let s := mkSt Python3 ∅ (Table ∅) 1000 [] [] [] [] None [] false
                [("e", 0, 2000, JInt 7)] in
  _exit (snd (close s)) = true /\
  __del__ (snd (close s)) = (Ok tt, snd (close s)) /\
  __del__ s = close s.
Proof.
  destruct (del_after_close
              (mkSt Python3 ∅ (Table ∅) 1000 [] [] [] [] None [] false
                    [("e", 0, 2000, JInt 7)])
              _ _ (surjective_pairing _)) as (H1 & H2 & H3).
  split; [exact H1|]. split; [exact H2|]. exact (H3 eq_refl).
Defined.

(** * Construction *)

Lemma py_str_of_int_truthy (n : Z) : truthy_str (py_str_of_int n) = true.
Proof.
  unfold py_str_of_int. destruct (Z.to_int n) as [d|d]; [|reflexivity].
  now destruct d.
Qed.

Lemma py_int_of_str_of_int (n : Z) : py_int_of_str (py_str_of_int n) = Some n.
Proof.
  unfold py_int_of_str, py_str_of_int.
  rewrite NilZero.isi.
  - simpl. now rewrite DecimalZ.of_to.
  - destruct n as [|p|p]; simpl; try discriminate.
    intros [= Hp]. now apply DecimalPos.Unsigned.to_uint_nonnil in Hp.
  - destruct n as [|p|p]; simpl; try discriminate.
    intros [= Hp]. now apply DecimalPos.Unsigned.to_uint_nonnil in Hp.
Qed.

(** X26.  Constructing a cache that is not mem-only on a host that has no
    "last executed" marker for its name returns the instance named
    [folder_filename_simplecache] (with the defaults for a missing folder or
    filename), records the current time as the marker and does not touch the
    database file.  The marker is text that [check_cleanup] reads back: a
    later construction under the same name, at whatever time, parses it,
    raises nothing, runs no cleanup and changes nothing. *)
Theorem init_records_marker_once `{Json} (folder filename : option string)
    (dw dw' : bool) (s : St) (later : Z) :
  win s !! lastexecuted_key (mkSelf (sc_name folder filename) false dw) = None ->
  0 <= clock s + _auto_clean_interval ->
  exists s1,
    __init__ folder filename false dw s
      = (Ok (mkSelf (sc_name folder filename) false dw), s1) /\
    win s1 = <[lastexecuted_key (mkSelf (sc_name folder filename) false dw)
                 := py_str_of_int (clock s)]> (win s) /\
    disk s1 = disk s /\ trace s1 = trace s /\
    __init__ folder filename false dw' (set_clock later s1)
      = (Ok (mkSelf (sc_name folder filename) false dw'), set_clock later s1).
Proof.
  intros Hw Hclock. unfold __init__. fold (sc_name folder filename).
  set (self := mkSelf (sc_name folder filename) false dw) in *.
  set (self' := mkSelf (sc_name folder filename) false dw').
  unfold bind at 1, modify at 1. unfold bind at 1, modify at 1. unfold bind at 1.
  rewrite check_cleanup_run by reflexivity. st. rewrite Hw. cbv zeta. simpl default.
  change (truthy_str "") with false. cbn [negb]. munfold.
  eexists. split; [reflexivity|]. st.
  split; [reflexivity|]. split; [reflexivity|]. split; [reflexivity|].
  rewrite check_cleanup_run by reflexivity. st.
  change (lastexecuted_key self') with (lastexecuted_key self).
  rewrite lookup_insert_eq. cbv zeta. simpl default.
  rewrite py_str_of_int_truthy, py_int_of_str_of_int. cbn [negb].
  assert (Hlt : (clock s + (later + _auto_clean_interval) <? later) = false)
    by (apply Z.ltb_ge; lia).
  rewrite Hlt. reflexivity.
Qed.

Lemma init_records_marker_once_witness :
  exists s1,
    __init__ None (Some "tmdb.db") false false (quiet Python3 ∅ NoFile None 1000)
      = (Ok (mkSelf "database_v2_tmdb.db_simplecache" false false), s1) /\
    win s1 = {["database_v2_tmdb.db_simplecache.clean.lastexecuted" := "1000"]} /\
    disk s1 = NoFile /\ trace s1 = [] /\
    __init__ None (Some "tmdb.db") false true (set_clock 1000000000 s1)
      = (Ok (mkSelf "database_v2_tmdb.db_simplecache" false true),
         set_clock 1000000000 s1).
Proof.
  exact (init_records_marker_once None (Some "tmdb.db") false true
           (quiet Python3 ∅ NoFile None 1000) 1000000000 eq_refl
           (proj1 (Z.leb_le 0 (1000 + _auto_clean_interval)) eq_refl)).
Defined.

(** * Reading back what was set *)

Lemma bind_ok {A B} (m : M A) (k : A -> M B) (s s' : St) (a : A) :
  m s = (Ok a, s') -> bind m k s = k a s'.
Proof. intros E. unfold bind. now rewrite E. Qed.

(** Opening a file on which the probe raises, when the creation succeeds. *)
Lemma get_database_fresh (attempts : nat) (s : St) :
  (forall t, disk s <> Table t) -> creates s = [] ->
  _get_database attempts s
    = (Ok (Some tt), set_disk (Table ∅) (set_disk NoFile s)).
Proof.
  intros Hd Hc.
  destruct attempts; cbn [_get_database]; munfold;
    (destruct (disk s) as [| |t] eqn:Hds; [| |now destruct (Hd t)]);
    st; rewrite Hc; reflexivity.
Qed.

(** On a calm engine whose table can be created, the statement runs on the
    rows a reader sees. *)
Lemma execute_sql_clear (q : Stmt) (s : St) :
  calm s -> creates s = [] ->
  exists s',
    _execute_sql q s = (Ok (Some (snd (run_stmt q (rows s)))), s') /\
    frame s s' /\ disk s' = Table (fst (run_stmt q (rows s))) /\
    calm s' /\ creates s' = [].
Proof.
  intros Hc Hcr.
  assert (Hh : healthy s) by (destruct Hc as (_ & _ & Hf); now split).
  assert (Hstep : exists s0 t, _execute_sql q s = _execute_sql q s0 /\ frame s s0 /\
            disk s0 = Table t /\ rows s = t /\ calm s0).
  { destruct (disk s) as [| |t] eqn:Hd.
    1,2: exists (set_disk (Table ∅) (set_disk NoFile s)), ∅;
         (split; [|split; [eauto using frame_trans, frame_set_disk|
                           split; [reflexivity|split; [unfold rows; now rewrite Hd|exact Hc]]]]);
         unfold _execute_sql;
         rewrite (bind_ok _ _ s (set_disk (Table ∅) (set_disk NoFile s)) (Some tt));
         [ rewrite (bind_ok _ _ (set_disk (Table ∅) (set_disk NoFile s))
                      (set_disk (Table ∅) (set_disk NoFile s)) (Some tt));
           [reflexivity|now apply (get_database_table 2 _ ∅)]
         | apply get_database_fresh; [rewrite Hd; discriminate|exact Hcr] ].
    exists s, t. split; [reflexivity|]. split; [apply frame_refl|].
    split; [exact Hd|]. split; [unfold rows; now rewrite Hd|exact Hc]. }
  destruct Hstep as (s0 & t & Heq & Hfr0 & Hd0 & Hrows & Hc0).
  destruct (execute_sql_calm q s0 t Hc0 Hd0) as (s' & Hq & Hfr & Hd' & Hc' & _).
  exists s'. rewrite Heq, Hrows. split; [exact Hq|].
  split; [eapply frame_trans; eassumption|]. split; [exact Hd'|].
  split; [exact Hc'|].
  rewrite <- Heq in Hq. apply execute_sql_healthy in Hq; [|exact Hh].
  now destruct Hq as ((_ & Hcr') & _).
Qed.

(** [set] on a calm engine that writes through, whatever the file held. *)
Lemma set_direct_clear `{Json} (self : Self) (e : string) (d : json) (cs : string)
    (ttl : Z) (s : St) :
  _mem_only self = false -> _delaywrite self = false ->
  calm s -> creates s = [] ->
  exists s1,
    set self e d cs ttl s = (Ok tt, s1) /\
    disk s1 = Table (<[e := mkRow (clock s + ttl * TIME_DAYS) (json_dumps d)
                             (derive (Some cs) (global_checksum s))]> (rows s)) /\
    calm s1.
Proof.
  intros Hm Hdw Hcalm Hcr. rewrite set_run. cbv zeta. rewrite Hm, Hdw.
  unfold _set_db_cache. unfold bind at 1.
  match goal with
  | |- context [_execute_sql ?q ?x] =>
      assert (Hcr1 : creates x = []) by exact Hcr;
      assert (Hc1 : calm x) by exact Hcalm;
      destruct (execute_sql_clear q x Hc1 Hcr1) as (s2 & Hq & Hfr & Hd2 & Hc2 & _);
      rewrite Hq
  end.
  unfold ret. eexists. split; [reflexivity|]. st.
  split; [exact Hd2|exact Hc2].
Qed.

(** What [get] does after a [set] of the same endpoint, before the expiry:
    the ephemeral entry is served when the derived checksum is 0 or the
    stored one and the data is not [None]; otherwise a mem-only engine
    answers [None] and any other engine asks the durable tier. *)
Lemma get_after_set_run `{Json} (self : Self) (e : string) (d : json)
    (cs cs' : string) (ttl now : Z) (s s1 : St) r :
  serialisable (entry_of d cs ttl s) ->
  set self e d cs ttl s = (r, s1) ->
  now < clock s + ttl * TIME_DAYS ->
  get self e cs' (set_clock now s1) =
    let c' := derive (Some cs') (global_checksum s) in
    let v := if (c' =? 0) || (c' =? derive (Some cs) (global_checksum s))
             then d else JNull in
    if negb (is_None v) || _mem_only self then (Ok v, set_clock now s1)
    else _get_db_cache self e c' now (set_clock now s1).
Proof.
  intros (Ht & Hl) Hset Hnow.
  apply set_inv in Hset. destruct Hset as (Hw & _ & Hg & _).
  rewrite get_run. st. rewrite Hg. cbv zeta.
  erewrite get_mem_cache_entry; [| |exact Ht|exact Hl].
  - apply Z.leb_gt in Hnow. rewrite Hnow. reflexivity.
  - st. rewrite Hw. apply lookup_insert_eq.
Qed.

(** The durable read after a [set] that wrote through. *)
Lemma db_after_set_direct `{Json} (self : Self) (e : string) (d : json)
    (cs : string) (c' ttl now : Z) (s s1 : St) :
  _mem_only self = false -> _delaywrite self = false ->
  calm s -> creates s = [] ->
  json_loads (json_dumps d) = Some d ->
  set self e d cs ttl s = (Ok tt, s1) ->
  now < clock s + ttl * TIME_DAYS ->
  fst (_get_db_cache self e c' now (set_clock now s1)) =
    Ok (if (c' =? 0) || (c' =? derive (Some cs) (global_checksum s))
        then d else JNull).
Proof.
  intros Hm Hdw Hc Hcr Hl Hset Hnow.
  destruct (set_direct_clear self e d cs ttl s Hm Hdw Hc Hcr) as (s1' & Hset' & Hd1 & Hc1).
  assert (s1' = s1) by congruence. subst s1'.
  destruct Hc1 as (Hex1 & Ha1 & Hf1).
  destruct (get_db_cache_run self e c' now (set_clock now s1) _ _ d
              (conj Hex1 (conj (f_equal (hd false) Ha1) (f_equal (hd NoFault) Hf1)))
              Hd1 (lookup_insert_eq _ _ _) Hl) as (s2 & Hrun & _).
  rewrite Hrun. cbn [fst r_expires r_checksum].
  apply Z.leb_gt in Hnow. now rewrite Hnow.
Qed.

(** C2, as amended.  Once [set(endpoint, data, checksum, ttl_days)] has
    returned, a [get(endpoint, checksum)] on the same engine evaluated
    before the entry expires -- so at once, when [ttl_days] is positive --
    (A) returns [data], from the ephemeral tier and without touching the
    state, when the data is not [None] or the engine is mem-only; (B) returns
    [data], [None] included, on a calm engine that writes through, whatever
    the table held for the endpoint before; (C) for [None] on an engine that
    is not mem-only, returns exactly what the durable read returns: a cached
    [None] is indistinguishable from a miss. *)
Theorem set_then_get `{Json} (self : Self) (e : string) (d : json) (cs : string)
    (ttl now : Z) (s s1 : St) :
  serialisable (entry_of d cs ttl s) ->
  set self e d cs ttl s = (Ok tt, s1) ->
  now < clock s + ttl * TIME_DAYS ->
  (is_None d = false \/ _mem_only self = true ->
     get self e cs (set_clock now s1) = (Ok d, set_clock now s1)) /\
  (_mem_only self = false -> _delaywrite self = false ->
   calm s -> creates s = [] -> json_loads (json_dumps d) = Some d ->
     fst (get self e cs (set_clock now s1)) = Ok d) /\
  (is_None d = true -> _mem_only self = false ->
     get self e cs (set_clock now s1) =
       _get_db_cache self e (derive (Some cs) (global_checksum s)) now
         (set_clock now s1)).
Proof.
  intros Hser Hset Hnow.
  pose proof (get_after_set_run self e d cs cs ttl now s s1 _ Hser Hset Hnow) as Hget.
  cbv zeta in Hget. rewrite Z.eqb_refl, orb_true_r in Hget.
  split; [|split].
  - intros [Hd|Hm]; rewrite Hget.
    + now rewrite Hd.
    + now rewrite Hm, orb_true_r.
  - intros Hm Hdw Hc Hcr Hl. rewrite Hget, Hm, orb_false_r.
    destruct (is_None d); cbn [negb]; [|reflexivity].
    rewrite (db_after_set_direct self e d cs _ ttl now s s1 Hm Hdw Hc Hcr Hl Hset Hnow).
    now rewrite Z.eqb_refl, orb_true_r.
  - intros Hd Hm. rewrite Hget. now rewrite Hd, Hm.
Qed.

(** A value on a write-through engine; [None] on a write-through engine over
    an older row; [None] on a mem-only engine; and [None] on a deferred
    engine, answered by the durable read. *)
Lemma set_then_get_witness :
  let old := Table {["e" := mkRow 999999 "1" 0]} in
  let after self d := snd (set self "e" d "v1" 30 (quiet Python3 ∅ old None 1000)) in
  get direct_cache "e" "v1" (set_clock 1000 (after direct_cache (JInt 7)))
    = (Ok (JInt 7), set_clock 1000 (after direct_cache (JInt 7))) /\
  fst (get direct_cache "e" "v1" (set_clock 1000 (after direct_cache JNull)))
    = Ok JNull /\
  get mem_cache "e" "v1" (set_clock 1000 (after mem_cache JNull))
    = (Ok JNull, set_clock 1000 (after mem_cache JNull)) /\
  get deferred_cache "e" "v1" (set_clock 1000 (after deferred_cache JNull))
    = _get_db_cache deferred_cache "e" (derive (Some "v1") None) 1000
        (set_clock 1000 (after deferred_cache JNull)).
Proof.
  cbv zeta.
  set (s0 := quiet Python3 ∅ (Table {["e" := mkRow 999999 "1" 0]}) None 1000).
  assert (Hser : forall d, d = JInt 7 \/ d = JNull -> serialisable (entry_of d "v1" 30 s0))
    by (intros d [-> | ->]; split; reflexivity).
  split; [|split; [|split]].
  - apply (set_then_get direct_cache "e" (JInt 7) "v1" 30 1000 s0 _
             (Hser _ (or_introl eq_refl)) (surjective_pairing _) eq_refl).
    now left.
  - apply (set_then_get direct_cache "e" JNull "v1" 30 1000 s0 _
             (Hser _ (or_intror eq_refl)) (surjective_pairing _) eq_refl);
      try reflexivity.
    now repeat split.
  - apply (set_then_get mem_cache "e" JNull "v1" 30 1000 s0 _
             (Hser _ (or_intror eq_refl)) (surjective_pairing _) eq_refl).
    now right.
  - apply (set_then_get deferred_cache "e" JNull "v1" 30 1000 s0 _
             (Hser _ (or_intror eq_refl)) (surjective_pairing _) eq_refl);
      reflexivity.
Defined.

(** C2 as stated fails for [None] where the durable tier still holds an
    older row: a cached [None] is indistinguishable from a miss, so [get]
    falls through to the durable tier and returns what an earlier writer
    left there.  (1) On a deferred engine the [set] has not written the row.
    (2) On a write-through engine whose [INSERT] failed, [set] returned
    all the same and the older row is still there. *)
Lemma set_then_get_none_counterexample :
  let s := quiet Python3 ∅ (Table {["e" := mkRow 999999 "1" 0]}) None 1000 in
  let f := mkSt Python3 ∅ (Table {["e" := mkRow 999999 "1" 0]}) 1000 [] [OtherError]
                [] [] None [] false [] in
  (serialisable (entry_of JNull "" 30 s) /\
   fst (set deferred_cache "e" JNull "" 30 s) = Ok tt /\
   fst (get deferred_cache "e" "" (snd (set deferred_cache "e" JNull "" 30 s)))
     = Ok (JInt 1) /\
   JInt 1 <> JNull) /\
  (serialisable (entry_of JNull "" 30 f) /\
   fst (set direct_cache "e" JNull "" 30 f) = Ok tt /\
   fst (get direct_cache "e" "" (snd (set direct_cache "e" JNull "" 30 f)))
     = Ok (JInt 1) /\
   JInt 1 <> JNull).
Proof.
  cbv zeta. split.
  - split; [split; reflexivity|]. split; [reflexivity|].
    split; [vm_compute; reflexivity|discriminate].
  - split; [split; reflexivity|]. split; [vm_compute; reflexivity|].
    split; [vm_compute; reflexivity|discriminate].
Qed.

(** * Checksum gating, whatever the table held *)





(** * The override and the empty checksum *)

(** Where a value that [get] returns comes from: an unexpired entry of the
    ephemeral tier or an unexpired row, holding that value, whose stored
    checksum the derived checksum accepts. *)
Lemma get_hit_source `{Json} (self : Self) (e cs : string) (s s' : St) (v : json) :
  get self e cs s = (Ok v, s') ->
  is_None v = false ->
  (exists txt cd,
     win s !! mem_key self e = Some txt /\ json_loads txt = Some cd /\
     py_index cd 1 = Ok v /\
     (derive (Some cs) (global_checksum s) = 0 \/
      exists c2, py_index cd 2 = Ok c2 /\
                 py_eq_int (derive (Some cs) (global_checksum s)) c2 = true)) \/
  (exists row,
     rows s !! e = Some row /\ json_loads (r_data row) = Some v /\
     (derive (Some cs) (global_checksum s) = 0 \/
      r_checksum row = derive (Some cs) (global_checksum s))).
Proof.
  intros Hget Hv. rewrite get_run in Hget.
  set (c := derive (Some cs) (global_checksum s)) in *.
  destruct (fst (_get_mem_cache self e c (clock s) s)) as [v0| |] eqn:Hm;
    try discriminate.
  destruct (is_None v0) eqn:Hv0; simpl in Hget.
  - destruct (_mem_only self); [injection Hget as <- <-; congruence|].
    apply get_db_cache_inv in Hget. destruct Hget as (_ & _ & _ & Hr).
    destruct Hr as [(-> & _) | (row & Hrow & _ & Hcs & Hl & _)]; [discriminate|].
    right. exists row. split; [exact Hrow|]. split; [exact Hl|].
    destruct Hcs as [Hz|Hz]; [now left|now right].
  - injection Hget as <- <-.
    apply get_mem_cache_hit in Hm; [|exact Hv0].
    destruct Hm as (txt & cd & c0 & exp & Hw & Hl & _ & _ & _ & H1 & Hcs).
    left. exists txt, cd. auto.
Qed.

(** [get] when the ephemeral tier holds an unexpired entry
    [[expires, data, checksum]]. *)
Lemma get_on_entry `{Json} (self : Self) (e cs txt : string) (exp c2 : Z)
    (d : json) (s : St) :
  win s !! mem_key self e = Some txt -> truthy_str txt = true ->
  json_loads txt = Some (JList [JInt exp; d; JInt c2]) ->
  clock s < exp ->
  get self e cs s =
    let c := derive (Some cs) (global_checksum s) in
    let v := if (c =? 0) || (c =? c2) then d else JNull in
    if negb (is_None v) || _mem_only self then (Ok v, s)
    else _get_db_cache self e c (clock s) s.
Proof.
  intros Hw Ht Hl Hexp. rewrite get_run. cbv zeta.
  rewrite (get_mem_cache_entry self e txt _ _ exp d (JInt c2) s Hw Ht Hl).
  apply Z.leb_gt in Hexp. rewrite Hexp. reflexivity.
Qed.

(** [get] on an engine that is not mem-only, when the ephemeral tier holds
    nothing for the endpoint and the table an unexpired, readable row. *)
Lemma get_on_row `{Json} (self : Self) (e cs : string) (s : St) t row v :
  _mem_only self = false -> win s !! mem_key self e = None ->
  answers s -> disk s = Table t -> t !! e = Some row ->
  json_loads (r_data row) = Some v -> clock s < r_expires row ->
  fst (get self e cs s) =
    let c := derive (Some cs) (global_checksum s) in
    Ok (if (c =? 0) || (c =? r_checksum row) then v else JNull).
Proof.
  intros Hm Hw Hans Hd Ht Hl Hexp. rewrite get_mem_miss.
  - rewrite Hm.
    destruct (get_db_cache_run self e (derive (Some cs) (global_checksum s)) (clock s)
                s t row v Hans Hd Ht Hl) as (s' & Hrun & _).
    rewrite Hrun. cbn [fst]. apply Z.leb_gt in Hexp. now rewrite Hexp.
  - rewrite get_mem_cache_absent; [reflexivity|]. now rewrite Hw.
Qed.

(** C10.  (A) With the override [g] set, [get] with an empty checksum does
    not bypass validation.  The derived checksum is the code-point sum of
    "<g>-", which is positive.  An unexpired entry of the ephemeral tier is
    served iff it stores that sum: one that stores another checksum, 0
    included, is passed over -- a mem-only engine then returns [None], any
    other asks the durable tier.  There, an unexpired row is served iff it
    stores that sum.  And whatever [get] returns other than [None] is the
    data of an entry or of a row that stores that sum.  (B) With the
    override unset the empty checksum derives to 0, and every unexpired
    entry and row is served, whatever checksum it stores. *)
Theorem override_gates_empty_checksum `{Json} (self : Self) (e : string) :
  (forall (s : St) (g : string),
     global_checksum s = Some g -> truthy_str g = true ->
     derive_checksum "" s = (Ok (codepoint_sum (g +:+ "-")), s) /\
     0 < codepoint_sum (g +:+ "-") /\
     (forall txt exp d c2,
        win s !! mem_key self e = Some txt -> truthy_str txt = true ->
        json_loads txt = Some (JList [JInt exp; d; JInt c2]) ->
        clock s < exp ->
        (c2 = codepoint_sum (g +:+ "-") -> is_None d = false ->
           get self e "" s = (Ok d, s)) /\
        (c2 <> codepoint_sum (g +:+ "-") ->
           get self e "" s =
             if _mem_only self then (Ok JNull, s)
             else _get_db_cache self e (codepoint_sum (g +:+ "-")) (clock s) s)) /\
     (forall t row v,
        _mem_only self = false -> win s !! mem_key self e = None ->
        answers s -> disk s = Table t -> t !! e = Some row ->
        json_loads (r_data row) = Some v -> clock s < r_expires row ->
        fst (get self e "" s) =
          Ok (if codepoint_sum (g +:+ "-") =? r_checksum row then v else JNull)) /\
     (forall v s',
        get self e "" s = (Ok v, s') -> is_None v = false ->
        (exists txt cd c2,
           win s !! mem_key self e = Some txt /\ json_loads txt = Some cd /\
           py_index cd 1 = Ok v /\ py_index cd 2 = Ok c2 /\
           py_eq_int (codepoint_sum (g +:+ "-")) c2 = true) \/
        (exists row,
           rows s !! e = Some row /\ json_loads (r_data row) = Some v /\
           r_checksum row = codepoint_sum (g +:+ "-")))) /\
  (forall (s : St),
     truthy_opt (global_checksum s) = false ->
     derive_checksum "" s = (Ok 0, s) /\
     (forall txt exp d c2,
        win s !! mem_key self e = Some txt -> truthy_str txt = true ->
        json_loads txt = Some (JList [JInt exp; d; JInt c2]) ->
        clock s < exp -> is_None d = false ->
        get self e "" s = (Ok d, s)) /\
     (forall t row v,
        _mem_only self = false -> win s !! mem_key self e = None ->
        answers s -> disk s = Table t -> t !! e = Some row ->
        json_loads (r_data row) = Some v -> clock s < r_expires row ->
        fst (get self e "" s) = Ok v)).
Proof.
  split.
  - intros s g Hg Ht.
    destruct (derive_empty_override g Ht) as (Hd & Hpos).
    assert (Hc : derive (Some "") (global_checksum s) = codepoint_sum (g +:+ "-"))
      by (now rewrite Hg).
    split; [|split; [|split; [|split]]].
    + rewrite derive_checksum_run. now rewrite Hc.
    + exact Hpos.
    + intros txt exp d c2 Hw Htxt Hl Hexp.
      pose proof (get_on_entry self e "" txt exp c2 d s Hw Htxt Hl Hexp) as Hget.
      cbv zeta in Hget. rewrite Hc in Hget.
      assert (Hnz : (codepoint_sum (g +:+ "-") =? 0) = false)
        by (apply Z.eqb_neq; lia).
      rewrite Hnz in Hget. cbn [orb] in Hget. split.
      * intros -> Hnone. rewrite Hget, Z.eqb_refl. now rewrite Hnone.
      * intros Hne. rewrite Hget.
        assert (Hf : (codepoint_sum (g +:+ "-") =? c2) = false)
          by (apply Z.eqb_neq; congruence).
        now rewrite Hf.
    + intros t row v Hm Hw Hans Hdk Hrow Hl Hexp.
      rewrite (get_on_row self e "" s t row v Hm Hw Hans Hdk Hrow Hl Hexp).
      cbv zeta. rewrite Hc.
      assert (Hnz : (codepoint_sum (g +:+ "-") =? 0) = false)
        by (apply Z.eqb_neq; lia).
      now rewrite Hnz.
    + intros v s' Hget Hv.
      destruct (get_hit_source self e "" s s' v Hget Hv)
        as [(txt & cd & Hw & Hl & H1 & Hcs) | (row & Hrow & Hl & Hcs)];
        rewrite Hc in Hcs.
      * destruct Hcs as [Hz|(c2 & H2 & Heq)]; [lia|].
        left. exists txt, cd, c2. auto 6.
      * destruct Hcs as [Hz|Heq]; [lia|]. right. exists row. auto.
  - intros s Hg.
    assert (Hc : derive (Some "") (global_checksum s) = 0)
      by (now rewrite derive_unset by exact Hg).
    split; [|split].
    + rewrite derive_checksum_run. now rewrite Hc.
    + intros txt exp d c2 Hw Htxt Hl Hexp Hnone.
      rewrite (get_on_entry self e "" txt exp c2 d s Hw Htxt Hl Hexp).
      cbv zeta. rewrite Hc. cbn [Z.eqb orb]. now rewrite Hnone.
    + intros t row v Hm Hw Hans Hdk Hrow Hl Hexp.
      rewrite (get_on_row self e "" s t row v Hm Hw Hans Hdk Hrow Hl Hexp).
      cbv zeta. now rewrite Hc.
Qed.

(** With the override "G" the empty checksum derives to 116.  An entry
    stored under 116 is served and one stored under 0 is refused, in the
    ephemeral tier (on a mem-only engine) and in the durable tier alike;
    without the override the entry stored under 116 is served all the same. *)
Lemma override_gates_empty_checksum_witness :
  let w116 : gmap string string := {[mem_key mem_cache "e" := "[2000, 7, 116]"]} in
  let w0 : gmap string string := {[mem_key mem_cache "e" := "[2000, 7, 0]"]} in
  let t116 : gmap string Row := {["e" := mkRow 2000 "7" 116]} in
  let t0 : gmap string Row := {["e" := mkRow 2000 "7" 0]} in
  derive_checksum "" (quiet Python3 w116 NoFile (Some "G") 1000)
    = (Ok 116, quiet Python3 w116 NoFile (Some "G") 1000) /\
  get mem_cache "e" "" (quiet Python3 w116 NoFile (Some "G") 1000)
    = (Ok (JInt 7), quiet Python3 w116 NoFile (Some "G") 1000) /\
  get mem_cache "e" "" (quiet Python3 w0 NoFile (Some "G") 1000)
    = (Ok JNull, quiet Python3 w0 NoFile (Some "G") 1000) /\
  fst (get direct_cache "e" "" (quiet Python3 ∅ (Table t116) (Some "G") 1000))
    = Ok (JInt 7) /\
  fst (get direct_cache "e" "" (quiet Python3 ∅ (Table t0) (Some "G") 1000))
    = Ok JNull /\
  get mem_cache "e" "" (quiet Python3 w116 NoFile None 1000)
    = (Ok (JInt 7), quiet Python3 w116 NoFile None 1000).
Proof.
  cbv zeta.
  pose proof (override_gates_empty_checksum mem_cache "e") as (Am & Bm).
  pose proof (override_gates_empty_checksum direct_cache "e") as (Ad & _).
  split; [|split; [|split; [|split; [|split]]]].
  - exact (proj1 (Am (quiet Python3 {[mem_key mem_cache "e" := "[2000, 7, 116]"]} NoFile
                        (Some "G") 1000) "G" eq_refl eq_refl)).
  - destruct (Am (quiet Python3 {[mem_key mem_cache "e" := "[2000, 7, 116]"]} NoFile
                    (Some "G") 1000) "G" eq_refl eq_refl) as (_ & _ & Hmem & _).
    now apply (Hmem "[2000, 7, 116]" 2000 (JInt 7) 116).
  - destruct (Am (quiet Python3 {[mem_key mem_cache "e" := "[2000, 7, 0]"]} NoFile
                    (Some "G") 1000) "G" eq_refl eq_refl) as (_ & _ & Hmem & _).
    now apply (Hmem "[2000, 7, 0]" 2000 (JInt 7) 0).
  - destruct (Ad (quiet Python3 ∅ (Table {["e" := mkRow 2000 "7" 116]}) (Some "G") 1000)
                "G" eq_refl eq_refl) as (_ & _ & _ & Hdb & _).
    now apply (Hdb {["e" := mkRow 2000 "7" 116]} (mkRow 2000 "7" 116) (JInt 7)).
  - destruct (Ad (quiet Python3 ∅ (Table {["e" := mkRow 2000 "7" 0]}) (Some "G") 1000)
                "G" eq_refl eq_refl) as (_ & _ & _ & Hdb & _).
    now apply (Hdb {["e" := mkRow 2000 "7" 0]} (mkRow 2000 "7" 0) (JInt 7)).
  - destruct (Bm (quiet Python3 {[mem_key mem_cache "e" := "[2000, 7, 116]"]} NoFile
                    None 1000) eq_refl) as (_ & Hmem & _).
    now apply (Hmem "[2000, 7, 116]" 2000 (JInt 7) 116).
Defined.

(** * What [set] leaves alone *)

(** A file on which the probe raises is deleted: afterwards there is no
    file, or the new, empty table. *)
Lemma get_database_deletes (attempts : nat) :
  forall (s s' : St) r,
  (forall t, disk s <> Table t) ->
  _get_database attempts s = (r, s') ->
  (r = Ok None /\ disk s' = NoFile) \/ (r = Ok (Some tt) /\ disk s' = Table ∅).
Proof.
  induction attempts as [|n IH]; intros s s' r Hd; cbn [_get_database]; munfold.
  - destruct (disk s) as [| |t] eqn:Hds; [| |now destruct (Hd t)];
      st; destruct (creates s) as [|[] l]; st; intros [= <- <-]; st; auto.
  - destruct (disk s) as [| |t] eqn:Hds; [| |now destruct (Hd t)];
      st; destruct (creates s) as [|[] l]; st;
      try (intros [= <- <-]; st; now auto);
      intros Hrec; apply IH in Hrec; auto; st; discriminate.
Qed.

(** What [_execute_sql] leaves of the file. *)
Lemma execute_sql_disk (q : Stmt) (s s' : St) r :
  _execute_sql q s = (r, s') ->
  (forall t, disk s = Table t ->
     disk s' = Table t \/ disk s' = Table (fst (run_stmt q t))) /\
  ((forall t, disk s <> Table t) ->
     disk s' = NoFile \/ disk s' = Table ∅ \/ disk s' = Table (fst (run_stmt q ∅))).
Proof.
  unfold _execute_sql. unfold bind at 1.
  destruct (_get_database 2 s) as [rd sd] eqn:Hdb.
  assert (Hloop : forall t, rd = Ok (Some tt) -> disk sd = Table t ->
            (let '(r, s') := sql_loop 10 ErrorNone q sd in
             match r with
             | Ok a =>
                 match a with
                 | Returned result => ret result
                 | Left ErrorUnbound => raise UnboundLocalError
                 | Left _ => kodi_log "CACHE: _database ERROR ! -- " ;; ret None
                 end s'
             | Raise e => (Raise e, s')
             | Hang => (Hang, s')
             end) = (r, s') ->
            disk s' = Table t \/ disk s' = Table (fst (run_stmt q t))).
  { intros t _ Ht.
    destruct (sql_loop 10 ErrorNone q sd) as [rl sl] eqn:Hl.
    apply sql_loop_inv in Hl. destruct Hl as (_ & e & -> & Hran).
    destruct e as [[c|]|err]; simpl in Hran.
    - munfold. intros [= <- <-]. destruct Hran as (_ & t0 & Ht0 & Ht' & _).
      right. congruence.
    - munfold. intros [= <- <-]. left. congruence.
    - destruct err; munfold; intros [= <- <-]; left; congruence. }
  intros Hrun. split.
  - intros t Ht. rewrite (get_database_table 2 s t Ht) in Hdb.
    injection Hdb as <- <-. unfold bind at 1 in Hrun.
    now apply (Hloop t).
  - intros Hd.
    destruct (get_database_deletes 2 s sd rd Hd Hdb) as [(-> & Hn)|(-> & Ht)].
    + revert Hrun. munfold. intros [= <- <-]. now left.
    + right. unfold bind at 1 in Hrun. now apply (Hloop ∅).
Qed.

(** X13.  However [set(e, ...)] ends -- it may return or raise -- it never
    hangs, it leaves the ephemeral entry of every other endpoint as it was,
    it removes no queued write, and the busy-task list is back to what it
    was (up to order): the label is released on every way out.  A mem-only
    or deferred engine does not touch the database file.  On an engine that
    writes through: when the file holds the table, the probe passing, the
    row of every other endpoint is kept; when the probe raises (no file, or
    a file that is damaged or locked at that moment) the file is deleted
    with what it held, and afterwards there is no file or a new table
    holding no row but that of [e]. *)
Theorem set_footprint `{Json} (self : Self) (e : string) (d : json) (cs : string)
    (ttl : Z) (s s1 : St) r :
  set self e d cs ttl s = (r, s1) ->
  r <> Hang /\
  (forall e', e' <> e ->
     win s1 !! mem_key self e' = win s !! mem_key self e') /\
  (exists added, _queue s1 = (_queue s ++ added)%list) /\
  Permutation (_busy_tasks s1) (_busy_tasks s) /\
  (_mem_only self = true \/ _delaywrite self = true -> disk s1 = disk s) /\
  (forall t, disk s = Table t ->
     exists t', disk s1 = Table t' /\ forall e', e' <> e -> t' !! e' = t !! e') /\
  (_mem_only self = false -> _delaywrite self = false ->
   (forall t, disk s <> Table t) ->
     disk s1 = NoFile \/
     exists t', disk s1 = Table t' /\ forall e', e' <> e -> t' !! e' = None).
Proof.
  intros Hset.
  pose proof (set_rows self e d cs ttl s s1 r Hset) as (Hh & _ & Hq).
  pose proof Hset as Hinv. apply set_inv in Hinv.
  destruct Hinv as (Hw & _ & _ & _ & _ & Hb).
  split; [exact Hh|]. split; [|split; [|split]].
  - intros e' Hne. rewrite Hw. apply lookup_insert_ne. intros Hk.
    apply mem_key_inj in Hk. now subst.
  - destruct Hq as [-> | ->]; [exists []; now rewrite app_nil_r|eauto].
  - rewrite Hb. apply list_remove_last.
  - revert Hset. rewrite set_run. cbv zeta.
    destruct (_mem_only self) eqn:Hm.
    { intros [= <- <-]. st. split; [reflexivity|]. split; [eauto|]. discriminate. }
    destruct (_delaywrite self) eqn:Hdw.
    { intros [= <- <-]. st. split; [reflexivity|]. split; [eauto|]. discriminate. }
    unfold _set_db_cache. unfold bind at 1.
    destruct (_execute_sql _ _) as [rq sq] eqn:Hsql.
    apply execute_sql_disk in Hsql. st. destruct Hsql as (Htab & Hdel).
    assert (Hd1 : disk s1 = disk sq ->
              (forall t, disk s = Table t ->
                 exists t', disk s1 = Table t' /\
                            forall e', e' <> e -> t' !! e' = t !! e') /\
              ((forall t, disk s <> Table t) ->
                 disk s1 = NoFile \/
                 exists t', disk s1 = Table t' /\
                            forall e', e' <> e -> t' !! e' = None)).
    { intros ->. split.
      - intros t Ht. destruct (Htab t Ht) as [-> | ->]; eexists; (split; [reflexivity|]).
        + reflexivity.
        + intros e' Hne. cbn [run_stmt fst]. apply lookup_insert_ne. congruence.
      - intros Hd. destruct (Hdel Hd) as [-> | [-> | ->]]; [now left| |];
          right; eexists; (split; [reflexivity|]); intros e' Hne.
        + apply lookup_empty.
        + cbn [run_stmt fst]. rewrite lookup_insert_ne by congruence.
          apply lookup_empty. }
    intros Hrun.
    assert (Heq : disk s1 = disk sq).
    { destruct rq as [c| |]; revert Hrun; munfold; intros [= <- <-]; reflexivity. }
    destruct (Hd1 Heq) as (H1 & H2).
    split; [intros [?|?]; discriminate|]. split; [exact H1|]. intros _ _. exact H2.
Qed.

(** A write-through [set] that raises (Python 3, store locked) over a table
    holding another endpoint; and one over a file on which the probe
    raises. *)
Lemma set_footprint_witness :
  let t : gmap string Row := {["o" := mkRow 999999 "1" 0]} in
  let s := mkSt Python3 ∅ (Table t) 1000 [] [locked] [] [] None ["other"] false [] in
  let r := fst (set direct_cache "e" (JInt 7) "v1" 30 s) in
  let s1 := snd (set direct_cache "e" (JInt 7) "v1" 30 s) in
  let s' := snd (set direct_cache "e" (JInt 7) "v1" 30
                   (quiet Python3 ∅ Corrupt None 1000)) in
  r = Raise UnboundLocalError /\
  (exists added, _queue s1 = (_queue s ++ added)%list) /\
  Permutation (_busy_tasks s1) (_busy_tasks s) /\
  (exists t', disk s1 = Table t' /\ t' !! "o" = t !! "o") /\
  (disk s' = NoFile \/ exists t', disk s' = Table t' /\ t' !! "o" = None).
Proof.
  cbv zeta.
  destruct (set_footprint direct_cache "e" (JInt 7) "v1" 30
              (mkSt Python3 ∅ (Table {["o" := mkRow 999999 "1" 0]}) 1000 [] [locked]
                    [] [] None ["other"] false [])
              _ _ (surjective_pairing _)) as (_ & _ & Hq & Hb & _ & Ht & _).
  destruct (set_footprint direct_cache "e" (JInt 7) "v1" 30
              (quiet Python3 ∅ Corrupt None 1000)
              _ _ (surjective_pairing _)) as (_ & _ & _ & _ & _ & _ & Hc).
  split; [vm_compute; reflexivity|]. split; [exact Hq|]. split; [exact Hb|]. split.
  - destruct (Ht _ eq_refl) as (t' & Hd & Hk). exists t'. split; [exact Hd|].
    now apply Hk.
  - destruct (Hc eq_refl eq_refl) as [Hn|(t' & Hd & Hk)]; [now intros t|now left|].
    right. exists t'. split; [exact Hd|]. now apply Hk.
Defined.
